(** * unassemblize: the two-pass function disassembler of [function.cpp]

    A shallow embedding of [unassemblize::Function::disassemble] and of the
    five Zydis formatter hooks it installs, together with the properties of
    the label table, of the address resolution order and of the two passes.

    The machine-code decoder and the formatter (Zydis) and the executable
    image (class [Executable]) are collaborators whose code is not part of
    the translation unit; they appear as the class [Zydis] and as the record
    [Executable.t]. *)

From Stdlib Require Import ZArith Lia Ascii.
From stdpp Require Import gmap strings list.

Local Open Scope Z_scope.

(** ** Machine integers *)

(** [uint32_t] and [uint64_t] values are integers with the wrap-around of the
    C++ unsigned types written out. *)
Definition wrap32 (z : Z) : Z := z mod 2 ^ 32.
Definition wrap64 (z : Z) : Z := z mod 2 ^ 64.

(** [get_le32]: [data] is the buffer from the pointer on.  Reading past the
    end of the buffer has no defined result, which is [None] here.  The
    shifts are done in [int] and the result is converted to [uint32_t]. *)
Definition get_le32 (data : list Z) : option Z :=
  match data with
  | d0 :: d1 :: d2 :: d3 :: _ =>
      Some (wrap32 (Z.lor (Z.lor (Z.lor (Z.shiftl d3 24) (Z.shiftl d2 16))
                                 (Z.shiftl d1 8)) d0))
  | _ => None
  end.

(** ** Text *)

Definition LF : string := String "010"%char "".

Definition hex_digit (d : Z) : ascii :=
  match d with
  | 0 => "0" | 1 => "1" | 2 => "2" | 3 => "3" | 4 => "4" | 5 => "5"
  | 6 => "6" | 7 => "7" | 8 => "8" | 9 => "9" | 10 => "a" | 11 => "b"
  | 12 => "c" | 13 => "d" | 14 => "e" | _ => "f"
  end%char.

Fixpoint hex_digits (fuel : nat) (n : Z) (acc : string) : string :=
  match fuel with
  | O => acc
  | S fuel' =>
      let acc' := String (hex_digit (n mod 16)) acc in
      if n / 16 =? 0 then acc' else hex_digits fuel' (n / 16) acc'
  end.

(** [stream << std::hex << address] for a [uint64_t]: lower case, no prefix,
    no leading zeros, at most 16 digits. *)
Definition hex (n : Z) : string := hex_digits 16 (wrap64 n) "".

(** Reading a hexadecimal number back, digit by digit; [acc] is the value of
    the digits read so far. *)
Definition hex_digit_value (c : ascii) : Z :=
  match c with
  | "0" => 0 | "1" => 1 | "2" => 2 | "3" => 3 | "4" => 4 | "5" => 5
  | "6" => 6 | "7" => 7 | "8" => 8 | "9" => 9 | "a" => 10 | "b" => 11
  | "c" => 12 | "d" => 13 | "e" => 14 | "f" => 15 | _ => 0
  end%char.

Fixpoint hex_value_from (acc : Z) (s : string) : Z :=
  match s with
  | EmptyString => acc
  | String c s' => hex_value_from (16 * acc + hex_digit_value c) s'
  end.

(** The arguments handed to a [printf]-style call. *)
Inductive fmt_arg : Type :=
  | ArgStr (s : string)
  | ArgU64 (v : Z).

Definition PRIx64 : string := "llx".

(** The conversions of [vsnprintf] that the hooks use.  [%s] takes a string,
    [%llx] a 64-bit value; [%x] reads an [unsigned int], so of the
    [uint64_t] that the hooks hand to it the low 32 bits are printed.  A [%]
    that no conversion follows is an invalid directive: the call fails. *)
Fixpoint vsnprintf (fmt : string) (args : list fmt_arg) : option string :=
  match fmt with
  | EmptyString => Some EmptyString
  | String "%" (String "s" rest) =>
      match args with
      | ArgStr s :: args' => (λ t, s +:+ t) <$> vsnprintf rest args'
      | _ => None
      end
  | String "%" (String "x" rest) =>
      match args with
      | ArgU64 v :: args' => (λ t, hex (wrap32 v) +:+ t) <$> vsnprintf rest args'
      | _ => None
      end
  | String "%" (String "l" (String "l" (String "x" rest))) =>
      match args with
      | ArgU64 v :: args' => (λ t, hex v +:+ t) <$> vsnprintf rest args'
      | _ => None
      end
  | String "%" _ => None
  | String c rest => String c <$> vsnprintf rest args
  end.


(** ** The executable image

    Class [Executable] is consulted through its accessors only; they are the
    fields of this record.  [section_end] is the lookup of a section's end
    address by name that the specification lists next to the lookup of its
    start address. *)
Module Executable.

Record Symbol : Type := {
  name : string;
  value : Z
}.

Record t : Type := {
  section_size : string → Z;
  section_address : string → Z;
  section_end : string → Z;
  section_data : string → list Z;
  get_symbol : Z → Symbol;
  base_address : Z;
  end_address : Z
}.

End Executable.

(** ** The function object *)

(** [unassemblize::Function]: [m_labels] is a [std::map<uint64_t,
    std::string>] and [m_dissassembly] the text produced so far. *)
Record Function : Type := {
  m_executable : Executable.t;
  m_section : string;
  m_startAddress : Z;
  m_endAddress : Z;
  m_labels : gmap Z string;
  m_dissassembly : string
}.

Definition labels (func : Function) : gmap Z string := m_labels func.
Definition executable (func : Function) : Executable.t := m_executable func.

(** Modelled from the spec: [Function::section_address()] and
    [Function::section_end()], the bounds of the function's own section, of
    which the translation unit has the calls only.  The specification has
    the start and the end address of a section as lookups of the image by
    section name. *)
Definition section_address (func : Function) : Z :=
  Executable.section_address (m_executable func) (m_section func).
Definition section_end (func : Function) : Z :=
  Executable.section_end (m_executable func) (m_section func).

Definition set_labels (func : Function) (l : gmap Z string) : Function :=
  {| m_executable := m_executable func; m_section := m_section func;
     m_startAddress := m_startAddress func; m_endAddress := m_endAddress func;
     m_labels := l; m_dissassembly := m_dissassembly func |}.

Definition set_dissassembly (func : Function) (d : string) : Function :=
  {| m_executable := m_executable func; m_section := m_section func;
     m_startAddress := m_startAddress func; m_endAddress := m_endAddress func;
     m_labels := m_labels func; m_dissassembly := d |}.

(** ** The label table *)

Definition label_name (address : Z) : string := "label_" +:+ hex address.

(** The guarded assignment that pass 1 performs at each of its three
    insertion places:
    [if (m_labels.find(a) == m_labels.end()) m_labels[a] = "label_" + hex(a)]. *)
Definition insert_label (address : Z) (m : gmap Z string) : gmap Z string :=
  match m !! address with
  | None => <[address := label_name address]> m
  | Some _ => m
  end.

(** [m[address]] of [std::map]: a missing key is added with an empty string
    before its value is returned. *)
Definition map_subscript (m : gmap Z string) (address : Z)
    : string * gmap Z string :=
  match m !! address with
  | Some s => (s, m)
  | None => (EmptyString, <[address := EmptyString]> m)
  end.

(** ** The Zydis data the code reads *)

Inductive ZydisMachineMode : Type :=
  | ZYDIS_MACHINE_MODE_LONG_64
  | ZYDIS_MACHINE_MODE_LONG_COMPAT_32
  | ZYDIS_MACHINE_MODE_LONG_COMPAT_16
  | ZYDIS_MACHINE_MODE_LEGACY_32
  | ZYDIS_MACHINE_MODE_LEGACY_16
  | ZYDIS_MACHINE_MODE_REAL_16
  | ZYDIS_MACHINE_MODE_OTHER (n : Z).

Inductive ZydisStackWidth : Type :=
  | ZYDIS_STACK_WIDTH_16
  | ZYDIS_STACK_WIDTH_32
  | ZYDIS_STACK_WIDTH_64.

Inductive ZydisMnemonic : Type :=
  | ZYDIS_MNEMONIC_NOP
  | ZYDIS_MNEMONIC_JMP
  | ZYDIS_MNEMONIC_OTHER (n : Z).

(** Of an operand the hooks read [imm.value.u], [mem.disp.value] (signed)
    and [ptr.offset]. *)
Record ZydisDecodedOperand : Type := {
  imm_value_u : Z;
  mem_disp_value : Z;
  ptr_offset : Z
}.

(** Of [instruction.info] the passes read [length], [mnemonic] and
    [raw.imm->is_relative]. *)
Record ZydisDecodedInstruction : Type := {
  info_length : Z;
  info_mnemonic : ZydisMnemonic;
  info_raw_imm_is_relative : bool
}.

Record ZydisDisassembledInstruction : Type := {
  insn_runtime_address : Z;
  insn_info : ZydisDecodedInstruction;
  insn_operands : list ZydisDecodedOperand;
  insn_text : string
}.

Record ZydisFormatterContext : Type := {
  ctx_instruction : ZydisDecodedInstruction;
  ctx_operand : ZydisDecodedOperand;
  ctx_runtime_address : Z
}.

(** A formatter callback appends to the text of the formatter buffer, or
    fails.  [ZydisFormatterBufferAppend] and [ZydisFormatterBufferGetString]
    succeed on the untokenized buffer that [ZydisFormatterFormatInstruction]
    hands to the callbacks and leave its text as it is. *)
Definition ZydisFormatterFunc : Type :=
  ZydisFormatterContext → string → option string.

(** The callbacks that [UnasmDisassembleCustom] installs with
    [ZydisFormatterSetHook]. *)
Record ZydisFormatter : Type := {
  FUNC_PRINT_ADDRESS_ABS : ZydisFormatterFunc;
  FUNC_PRINT_IMM : ZydisFormatterFunc;
  FUNC_PRINT_ADDRESS_REL : ZydisFormatterFunc;
  FUNC_PRINT_DISP : ZydisFormatterFunc;
  FUNC_FORMAT_OPERAND_PTR : ZydisFormatterFunc
}.

Definition zero_operand : ZydisDecodedOperand :=
  {| imm_value_u := 0; mem_disp_value := 0; ptr_offset := 0 |}.

(** ** The collaborators *)

(** The part of Zydis that the code calls.

    [ZydisDecoderDecode] stands for [ZydisDecoderInit],
    [ZydisDecoderDecodeInstruction] and [ZydisDecoderDecodeOperands] on the
    buffer from the pointer on, with the length that the caller announces.

    [ZydisFormatterFormatInstruction] stands for [ZydisFormatterInit] with
    the Intel style and the forced operand size, followed by the call of that
    name, for the given callbacks.

    The five [default_...] are the callbacks of the formatter that
    [ZydisFormatterSetHook] hands back when the hooks are installed.

    [buffer_has_room] tells whether a text fits into the string of the
    formatter buffer, which has the fixed capacity of the [text] member of
    the instruction. *)
Class Zydis : Type := {
  buffer_has_room : string → bool;
  ZydisDecoderDecode :
    ZydisMachineMode → ZydisStackWidth → list Z → Z →
    option (ZydisDecodedInstruction * list ZydisDecodedOperand);
  ZydisCalcAbsoluteAddress :
    ZydisDecodedInstruction → ZydisDecodedOperand → Z → option Z;
  ZydisFormatterFormatInstruction :
    ZydisFormatter → ZydisDecodedInstruction → list ZydisDecodedOperand → Z →
    option string;
  default_print_address_absolute : ZydisFormatterFunc;
  default_print_address_relative : ZydisFormatterFunc;
  default_print_immediate : ZydisFormatterFunc;
  default_print_displacement : ZydisFormatterFunc;
  default_format_operand_ptr : ZydisFormatterFunc
}.

(** ** The formatter hooks and the two passes *)

Section Unassemblize.

Context `{!Zydis}.

(** Appending to the string of the formatter buffer fails when the result
    does not fit. *)
Definition ZyanStringAppend (str t : string) : option string :=
  if buffer_has_room (str +:+ t) then Some (str +:+ t) else None.

(** [ZyanStringAppendFormat]: the formatted text is appended to the string;
    a failing [vsnprintf] makes the call return a failure status. *)
Definition ZyanStringAppendFormat
    (str : string) (fmt : string) (args : list fmt_arg) : option string :=
  t ← vsnprintf fmt args; ZyanStringAppend str t.

Definition UnasmFormatterPrintAddressAbsolute (func : Function)
    : ZydisFormatterFunc := λ context buffer,
  address ← ZydisCalcAbsoluteAddress (ctx_instruction context)
              (ctx_operand context) (ctx_runtime_address context);
  match labels func !! address with
  | Some label => ZyanStringAppendFormat buffer "%s" [ArgStr label]
  | None =>
      if (section_address func <=? address) && (address <=? section_end func)
      then
        let symbol := Executable.get_symbol (executable func) address in
        if bool_decide (Executable.name symbol ≠ EmptyString)
           && (Executable.value symbol =? address)
        then ZyanStringAppendFormat buffer "%s" [ArgStr (Executable.name symbol)]
        else ZyanStringAppendFormat buffer "sub_%x" [ArgU64 address]
      else if (Executable.base_address (executable func) <=? address)
              && (address <=? Executable.end_address (executable func))
      then
        let symbol := Executable.get_symbol (executable func) address in
        if bool_decide (Executable.name symbol ≠ EmptyString)
           && (Executable.value symbol =? address)
        then ZyanStringAppendFormat buffer "%s" [ArgStr (Executable.name symbol)]
        else ZyanStringAppendFormat buffer "off_%x" [ArgU64 address]
      else default_print_address_absolute context buffer
  end.

Definition UnasmFormatterPrintAddressRelative (func : Function)
    : ZydisFormatterFunc := λ context buffer,
  address ← ZydisCalcAbsoluteAddress (ctx_instruction context)
              (ctx_operand context) (ctx_runtime_address context);
  match labels func !! address with
  | Some label => ZyanStringAppendFormat buffer "%s" [ArgStr label]
  | None =>
      if (section_address func <=? address) && (address <=? section_end func)
      then
        let symbol := Executable.get_symbol (executable func) address in
        if bool_decide (Executable.name symbol ≠ EmptyString)
           && (Executable.value symbol =? address)
        then ZyanStringAppendFormat buffer "%s" [ArgStr (Executable.name symbol)]
        else ZyanStringAppendFormat buffer "sub_%x" [ArgU64 address]
      else if (Executable.base_address (executable func) <=? address)
              && (address <=? Executable.end_address (executable func))
      then
        let symbol := Executable.get_symbol (executable func) address in
        if bool_decide (Executable.name symbol ≠ EmptyString)
           && (Executable.value symbol =? address)
        then ZyanStringAppendFormat buffer "%s" [ArgStr (Executable.name symbol)]
        else ZyanStringAppendFormat buffer "off_%x" [ArgU64 address]
      else default_print_address_relative context buffer
  end.

Definition UnasmFormatterPrintIMM (func : Function)
    : ZydisFormatterFunc := λ context buffer,
  let address := imm_value_u (ctx_operand context) in
  match labels func !! address with
  | Some label => ZyanStringAppendFormat buffer "%s" [ArgStr label]
  | None =>
      if (section_address func <=? address) && (address <=? section_end func)
      then
        let symbol := Executable.get_symbol (executable func) address in
        if bool_decide (Executable.name symbol ≠ EmptyString)
           && (Executable.value symbol =? address)
        then ZyanStringAppendFormat buffer "%s" [ArgStr (Executable.name symbol)]
        else ZyanStringAppendFormat buffer "sub_%x" [ArgU64 address]
      else if (Executable.base_address (executable func) <=? address)
              && (address <=? Executable.end_address (executable func))
      then
        let symbol := Executable.get_symbol (executable func) address in
        if bool_decide (Executable.name symbol ≠ EmptyString)
           && (Executable.value symbol =? address)
        then ZyanStringAppendFormat buffer "%s" [ArgStr (Executable.name symbol)]
        else ZyanStringAppendFormat buffer "off_%x" [ArgU64 address]
      else default_print_immediate context buffer
  end.

(** The displacement is a signed 64-bit field that the hook converts to
    [uint64_t]; [diff] is an unsigned difference.  In the branch of the
    function's own section the format of the symbol-plus-offset text ends in
    a [%] without a conversion. *)
Definition UnasmFormatterPrintDISP (func : Function)
    : ZydisFormatterFunc := λ context buffer,
  let address := wrap64 (mem_disp_value (ctx_operand context)) in
  match labels func !! address with
  | Some label => ZyanStringAppendFormat buffer "+%s" [ArgStr label]
  | None =>
      if (section_address func <=? address) && (address <=? section_end func)
      then
        let symbol := Executable.get_symbol (executable func) address in
        if bool_decide (Executable.name symbol ≠ EmptyString) then
          if Executable.value symbol =? address
          then ZyanStringAppendFormat buffer "+%s"
                 [ArgStr (Executable.name symbol)]
          else
            let diff := wrap64 (address - Executable.value symbol) in
            ZyanStringAppendFormat buffer "+%s+0x%"
              [ArgStr (Executable.name symbol); ArgU64 diff]
        else ZyanStringAppendFormat buffer "+sub_%x" [ArgU64 address]
      else if (Executable.base_address (executable func) <=? address)
              && (address <=? Executable.end_address (executable func))
      then
        let symbol := Executable.get_symbol (executable func) address in
        if bool_decide (Executable.name symbol ≠ EmptyString) then
          if Executable.value symbol =? address
          then ZyanStringAppendFormat buffer "+%s"
                 [ArgStr (Executable.name symbol)]
          else
            let diff := wrap64 (address - Executable.value symbol) in
            ZyanStringAppendFormat buffer ("+%s+0x%" +:+ PRIx64 +:+ "")
              [ArgStr (Executable.name symbol); ArgU64 diff]
        else ZyanStringAppendFormat buffer "+off_%x" [ArgU64 address]
      else default_print_displacement context buffer
  end.

Definition UnasmFormatterFormatOperandPTR (func : Function)
    : ZydisFormatterFunc := λ context buffer,
  let address := ptr_offset (ctx_operand context) in
  match labels func !! address with
  | Some label => ZyanStringAppendFormat buffer "%s" [ArgStr label]
  | None =>
      if (section_address func <=? address) && (address <=? section_end func)
      then
        let symbol := Executable.get_symbol (executable func) address in
        if bool_decide (Executable.name symbol ≠ EmptyString)
           && (Executable.value symbol =? address)
        then ZyanStringAppendFormat buffer "%s" [ArgStr (Executable.name symbol)]
        else ZyanStringAppendFormat buffer "sub_%x" [ArgU64 address]
      else if (Executable.base_address (executable func) <=? address)
              && (address <=? Executable.end_address (executable func))
      then
        let symbol := Executable.get_symbol (executable func) address in
        if bool_decide (Executable.name symbol ≠ EmptyString)
           && (Executable.value symbol =? address)
        then ZyanStringAppendFormat buffer "%s" [ArgStr (Executable.name symbol)]
        else ZyanStringAppendFormat buffer "unk_%x" [ArgU64 address]
      else default_format_operand_ptr context buffer
  end.

(** *** Decoding one instruction *)

(** The stack width that both disassemble functions derive from the machine
    mode; an unknown mode is an invalid argument. *)
Definition stack_width_of (machine_mode : ZydisMachineMode)
    : option ZydisStackWidth :=
  match machine_mode with
  | ZYDIS_MACHINE_MODE_LONG_64 => Some ZYDIS_STACK_WIDTH_64
  | ZYDIS_MACHINE_MODE_LONG_COMPAT_32
  | ZYDIS_MACHINE_MODE_LEGACY_32 => Some ZYDIS_STACK_WIDTH_32
  | ZYDIS_MACHINE_MODE_LONG_COMPAT_16
  | ZYDIS_MACHINE_MODE_LEGACY_16
  | ZYDIS_MACHINE_MODE_REAL_16 => Some ZYDIS_STACK_WIDTH_16
  | ZYDIS_MACHINE_MODE_OTHER _ => None
  end.

(** At both call sites [buffer] points into the section data and
    [instruction] is the address of a local, so neither is null. *)
Definition UnasmDisassembleNoFormat (machine_mode : ZydisMachineMode)
    (runtime_address : Z) (buffer : list Z) (length : Z)
    : option ZydisDisassembledInstruction :=
  stack_width ← stack_width_of machine_mode;
  decoded ← ZydisDecoderDecode machine_mode stack_width buffer length;
  Some {| insn_runtime_address := runtime_address;
          insn_info := decoded.1;
          insn_operands := decoded.2;
          insn_text := EmptyString |}.

Definition UnasmDisassembleCustom (machine_mode : ZydisMachineMode)
    (runtime_address : Z) (buffer : list Z) (length : Z)
    (user_data : Function) : option ZydisDisassembledInstruction :=
  stack_width ← stack_width_of machine_mode;
  decoded ← ZydisDecoderDecode machine_mode stack_width buffer length;
  let formatter :=
    {| FUNC_PRINT_ADDRESS_ABS := UnasmFormatterPrintAddressAbsolute user_data;
       FUNC_PRINT_IMM := UnasmFormatterPrintIMM user_data;
       FUNC_PRINT_ADDRESS_REL := UnasmFormatterPrintAddressRelative user_data;
       FUNC_PRINT_DISP := UnasmFormatterPrintDISP user_data;
       FUNC_FORMAT_OPERAND_PTR := UnasmFormatterFormatOperandPTR user_data |} in
  text ← ZydisFormatterFormatInstruction formatter decoded.1 decoded.2
           runtime_address;
  Some {| insn_runtime_address := runtime_address;
          insn_info := decoded.1;
          insn_operands := decoded.2;
          insn_text := text |}.

(** *** The state of a pass *)

(** How a loop of the model ends: the loop condition became false; the code
    read past the section data or read the [address] that a failed
    [ZydisCalcAbsoluteAddress] left unset; or the model ran out of fuel. *)
Inductive Status : Type :=
  | Finished
  | Undefined
  | OutOfFuel.

(** The function object and the two cursors of [disassemble]; [offset] is a
    [ZyanUSize], 64 bits wide. *)
Record Frame : Type := {
  this : Function;
  offset : Z;
  runtime_address : Z
}.

Definition with_this (f : Function) (fr : Frame) : Frame :=
  {| this := f; offset := offset fr; runtime_address := runtime_address fr |}.

(** [offset += n; runtime_address += n]. *)
Definition advance (n : Z) (fr : Frame) : Frame :=
  {| this := this fr;
     offset := wrap64 (offset fr + n);
     runtime_address := wrap64 (runtime_address fr + n) |}.

(** [m_executable.section_data(m_section.c_str()) + offset]. *)
Definition section_pointer (fr : Frame) : list Z :=
  drop (Z.to_nat (offset fr))
       (Executable.section_data (m_executable (this fr)) (m_section (this fr))).

(** [a >= m_startAddress && a <= m_endAddress]. *)
Definition in_function (func : Function) (a : Z) : bool :=
  (m_startAddress func <=? a) && (a <=? m_endAddress func).

Definition nop_or_jmp (mnemonic : ZydisMnemonic) : bool :=
  match mnemonic with
  | ZYDIS_MNEMONIC_NOP | ZYDIS_MNEMONIC_JMP => true
  | ZYDIS_MNEMONIC_OTHER _ => false
  end.

(** The fuel of the jump table loops: every turn moves the cursor four
    bytes further into the section data. *)
Definition table_fuel (fr : Frame) : nat :=
  S (length (Executable.section_data (m_executable (this fr))
                                     (m_section (this fr)))).

(** *** Pass 1: the labels *)

(** The inner [while] of pass 1, entered with the local [in_jump_table] and
    the word [next_int] read at the cursor. *)
Fixpoint pass1_jump_table (fuel : nat) (in_jump_table : bool) (next_int : Z)
    (fr : Frame) : Status * Frame :=
  match fuel with
  | O => (OutOfFuel, fr)
  | S fuel' =>
      if in_function (this fr) next_int then
        let l1 :=
          if in_jump_table then labels (this fr)
          else if in_function (this fr) (runtime_address fr)
          then insert_label (runtime_address fr) (labels (this fr))
          else labels (this fr) in
        let l2 := insert_label next_int l1 in
        let fr' := advance 4 (with_this (set_labels (this fr) l2) fr) in
        match get_le32 (section_pointer fr') with
        | Some next_int' => pass1_jump_table fuel' true next_int' fr'
        | None => (Undefined, fr')
        end
      else (Finished, fr)
  end.

(** The body of the outer [while] of pass 1. *)
Definition pass1_body (instruction : ZydisDisassembledInstruction)
    (fr : Frame) : Status * Frame :=
  let info := insn_info instruction in
  let relative :=
    if info_raw_imm_is_relative info then
      match ZydisCalcAbsoluteAddress info
              (hd zero_operand (insn_operands instruction))
              (runtime_address fr) with
      | Some address =>
          if in_function (this fr) address
          then Some (insert_label address (labels (this fr)))
          else Some (labels (this fr))
      | None => None
      end
    else Some (labels (this fr)) in
  match relative with
  | None => (Undefined, fr)
  | Some l =>
      let fr1 := advance (info_length info)
                   (with_this (set_labels (this fr) l) fr) in
      if nop_or_jmp (info_mnemonic info) then
        match get_le32 (section_pointer fr1) with
        | Some next_int => pass1_jump_table (table_fuel fr1) false next_int fr1
        | None => (Undefined, fr1)
        end
      else (Finished, fr1)
  end.

Fixpoint pass1 (fuel : nat) (end_offset : Z) (fr : Frame) : Status * Frame :=
  match fuel with
  | O => (OutOfFuel, fr)
  | S fuel' =>
      match UnasmDisassembleNoFormat ZYDIS_MACHINE_MODE_LEGACY_32
              (runtime_address fr) (section_pointer fr) 96 with
      | Some instruction =>
          if offset fr <=? end_offset then
            match pass1_body instruction fr with
            | (Finished, fr') => pass1 fuel' end_offset fr'
            | stopped => stopped
            end
          else (Finished, fr)
      | None => (Finished, fr)
      end
  end.

(** *** Pass 2: the text *)

Definition COLON_LF : string := ":" +:+ LF.

(** [if (m_labels.find(a) != m_labels.end()) { m_dissassembly +=
    m_labels[a]; m_dissassembly += ":\n"; }] *)
Definition emit_label (a : Z) (func : Function) : Function :=
  if bool_decide (is_Some (labels func !! a)) then
    let sub := map_subscript (m_labels func) a in
    set_dissassembly (set_labels func sub.2)
      ((m_dissassembly func +:+ sub.1) +:+ COLON_LF)
  else func.

(** [if (m_labels.find(a) != m_labels.end()) { m_dissassembly += "    .int ";
    m_dissassembly += m_labels[a]; m_dissassembly += "\n"; }] *)
Definition emit_int (a : Z) (func : Function) : Function :=
  if bool_decide (is_Some (labels func !! a)) then
    let sub := map_subscript (m_labels func) a in
    set_dissassembly (set_labels func sub.2)
      (((m_dissassembly func +:+ "    .int ") +:+ sub.1) +:+ LF)
  else func.

Fixpoint pass2_jump_table (fuel : nat) (in_jump_table : bool) (next_int : Z)
    (fr : Frame) : Status * Frame :=
  match fuel with
  | O => (OutOfFuel, fr)
  | S fuel' =>
      if in_function (this fr) next_int then
        let f1 :=
          if in_jump_table then this fr
          else emit_label (runtime_address fr) (this fr) in
        let f2 := emit_int next_int f1 in
        let fr' := advance 4 (with_this f2 fr) in
        match get_le32 (section_pointer fr') with
        | Some next_int' => pass2_jump_table fuel' true next_int' fr'
        | None => (Undefined, fr')
        end
      else (Finished, fr)
  end.

(** The body of the outer [while] of pass 2. *)
Definition pass2_body (instruction : ZydisDisassembledInstruction)
    (fr : Frame) : Status * Frame :=
  let info := insn_info instruction in
  let f1 := emit_label (runtime_address fr) (this fr) in
  let f2 :=
    set_dissassembly f1
      (((m_dissassembly f1 +:+ "    ") +:+ insn_text instruction) +:+ LF) in
  let fr1 := advance (info_length info) (with_this f2 fr) in
  if nop_or_jmp (info_mnemonic info) then
    match get_le32 (section_pointer fr1) with
    | Some next_int => pass2_jump_table (table_fuel fr1) false next_int fr1
    | None => (Undefined, fr1)
    end
  else (Finished, fr1).

Fixpoint pass2 (fuel : nat) (end_offset : Z) (fr : Frame) : Status * Frame :=
  match fuel with
  | O => (OutOfFuel, fr)
  | S fuel' =>
      match UnasmDisassembleCustom ZYDIS_MACHINE_MODE_LEGACY_32
              (runtime_address fr) (section_pointer fr) 96 (this fr) with
      | Some instruction =>
          if offset fr <=? end_offset then
            match pass2_body instruction fr with
            | (Finished, fr') => pass2 fuel' end_offset fr'
            | stopped => stopped
            end
          else (Finished, fr)
      | None => (Finished, fr)
      end
  end.

(** *** [Function::disassemble] *)

(** The static [in_jump_table] of the function is written and never read
    (the loops declare a local of the same name), so it is left out. *)
Definition disassemble (fuel : nat) (func : Function) : Status * Function :=
  let exe := m_executable func in
  if Executable.section_size exe (m_section func) =? 0 then (Finished, func)
  else
    let offset0 :=
      wrap64 (m_startAddress func
              - Executable.section_address exe (m_section func)) in
    let end_offset :=
      wrap64 (m_endAddress func
              - Executable.section_address exe (m_section func)) in
    match pass1 fuel end_offset
            {| this := func; offset := offset0;
               runtime_address := m_startAddress func |} with
    | (Finished, fr1) =>
        let r := pass2 fuel end_offset
                   {| this := this fr1; offset := offset0;
                      runtime_address := m_startAddress func |} in
        (r.1, this r.2)
    | (stopped, fr1) => (stopped, this fr1)
    end.

(** *** The five hooks as one family *)

Inductive OperandContext : Type :=
  | AddressAbsolute
  | AddressRelative
  | Immediate
  | Displacement
  | FarPointer.

Definition hook (k : OperandContext) (func : Function) : ZydisFormatterFunc :=
  match k with
  | AddressAbsolute => UnasmFormatterPrintAddressAbsolute func
  | AddressRelative => UnasmFormatterPrintAddressRelative func
  | Immediate => UnasmFormatterPrintIMM func
  | Displacement => UnasmFormatterPrintDISP func
  | FarPointer => UnasmFormatterFormatOperandPTR func
  end.

(** The address that each hook resolves. *)
Definition hook_address (k : OperandContext) (context : ZydisFormatterContext)
    : option Z :=
  match k with
  | AddressAbsolute | AddressRelative =>
      ZydisCalcAbsoluteAddress (ctx_instruction context)
        (ctx_operand context) (ctx_runtime_address context)
  | Immediate => Some (imm_value_u (ctx_operand context))
  | Displacement => Some (wrap64 (mem_disp_value (ctx_operand context)))
  | FarPointer => Some (ptr_offset (ctx_operand context))
  end.

Definition default_renderer (k : OperandContext) : ZydisFormatterFunc :=
  match k with
  | AddressAbsolute => default_print_address_absolute
  | AddressRelative => default_print_address_relative
  | Immediate => default_print_immediate
  | Displacement => default_print_displacement
  | FarPointer => default_format_operand_ptr
  end.

(** What a hook writes in front of a name. *)
Definition punctuation (k : OperandContext) : string :=
  match k with
  | Displacement => "+"
  | _ => EmptyString
  end.

(** The prefix of the name that a hook makes up for an address of the image
    that has no symbol. *)
Definition image_prefix (k : OperandContext) : string :=
  match k with
  | FarPointer => "unk_"
  | _ => "off_"
  end.

(** The four kinds of the specification's address resolver and its order:
    the first kind that applies wins. *)
Inductive Resolution : Type :=
  | Local
  | SectionSymbol
  | ImageSymbol
  | Unresolved.

Definition resolve (func : Function) (address : Z) : Resolution :=
  if bool_decide (is_Some (labels func !! address)) then Local
  else if bool_decide (section_address func ≤ address ≤ section_end func)
  then SectionSymbol
  else if bool_decide (Executable.base_address (executable func) ≤ address
                       ≤ Executable.end_address (executable func))
  then ImageSymbol
  else Unresolved.

(** The symbol found for [address] has a name and lies at [address]. *)
Definition exact_symbol (func : Function) (address : Z) : Prop :=
  Executable.name (Executable.get_symbol (executable func) address)
    ≠ EmptyString
  ∧ Executable.value (Executable.get_symbol (executable func) address)
    = address.

#[global] Instance exact_symbol_dec (func : Function) (address : Z)
    : Decision (exact_symbol func address).
Proof. unfold exact_symbol. apply _. Defined.

#[global] Instance OperandContext_eq_dec : EqDecision OperandContext.
Proof. solve_decision. Defined.

(** *** The text of pass 2, line by line *)

(** The members that [disassemble] does not write. *)
Definition same_layout (f g : Function) : Prop :=
  m_executable f = m_executable g ∧ m_section f = m_section g
  ∧ m_startAddress f = m_startAddress g ∧ m_endAddress f = m_endAddress g.

(** [grown f f']: [f'] is [f] with more labels, each new one at an address
    of the function and with the name made of that address. *)
Definition grown (f f' : Function) : Prop :=
  same_layout f f'
  ∧ m_dissassembly f' = m_dissassembly f
  ∧ labels f ⊆ labels f'
  ∧ ∀ a s, labels f' !! a = Some s →
      labels f !! a = Some s
      ∨ (labels f !! a = None ∧ s = label_name a
         ∧ m_startAddress f ≤ a ≤ m_endAddress f).

(** The frame for the function [f] with the text [d] at the cursor [o],
    [r]. *)
Definition frame_of (f : Function) (d : string) (o r : Z) : Frame :=
  {| this := set_dissassembly f d; offset := o; runtime_address := r |}.

(** The line [<label>:] of an address that has a label. *)
Definition label_line (m : gmap Z string) (a : Z) : string :=
  match m !! a with
  | Some s => s +:+ COLON_LF
  | None => EmptyString
  end.

(** The line [    .int <label>] of a table slot whose value has a label. *)
Definition int_line (m : gmap Z string) (a : Z) : string :=
  match m !! a with
  | Some s => "    .int " +:+ s +:+ LF
  | None => EmptyString
  end.

Definition concat_text (l : list string) : string :=
  foldr String.append EmptyString l.

(** A line that pass 2 writes while it follows a jump table. *)
Definition table_line (m : gmap Z string) (t : string) : Prop :=
  ∃ a s, m !! a = Some s
         ∧ (t = s +:+ COLON_LF ∨ t = "    .int " +:+ s +:+ LF).

(** The lines that one turn of pass 2 writes for [instruction]: the label of
    its address if it has one, the indented instruction, and the lines of
    the table that follows it. *)
Definition instruction_block (m : gmap Z string)
    (instruction : ZydisDisassembledInstruction) (block : string) : Prop :=
  ∃ table : list string,
    Forall (table_line m) table
    ∧ block = label_line m (insn_runtime_address instruction)
              +:+ "    " +:+ insn_text instruction +:+ LF
              +:+ concat_text table.

(** [turns end_offset fr instructions fr']: from [fr] the outer loop of
    pass 2 makes one full turn for each of [instructions], in this order,
    and reaches [fr']. *)
Inductive turns (end_offset : Z)
    : Frame → list ZydisDisassembledInstruction → Frame → Prop :=
  | turns_nil fr : turns end_offset fr [] fr
  | turns_cons fr instruction fr1 instructions fr' :
      UnasmDisassembleCustom ZYDIS_MACHINE_MODE_LEGACY_32
        (runtime_address fr) (section_pointer fr) 96 (this fr)
      = Some instruction →
      offset fr ≤ end_offset →
      pass2_body instruction fr = (Finished, fr1) →
      turns end_offset fr1 instructions fr' →
      turns end_offset fr (instruction :: instructions) fr'.

(** [label_turns end_offset fr instructions fr']: from [fr] the outer loop
    of pass 1 makes one full turn for each of [instructions], in this order,
    and reaches [fr']. *)
Inductive label_turns (end_offset : Z)
    : Frame → list ZydisDisassembledInstruction → Frame → Prop :=
  | label_turns_nil fr : label_turns end_offset fr [] fr
  | label_turns_cons fr instruction fr1 instructions fr' :
      UnasmDisassembleNoFormat ZYDIS_MACHINE_MODE_LEGACY_32
        (runtime_address fr) (section_pointer fr) 96
      = Some instruction →
      offset fr ≤ end_offset →
      pass1_body instruction fr = (Finished, fr1) →
      label_turns end_offset fr1 instructions fr' →
      label_turns end_offset fr (instruction :: instructions) fr'.

(** Two frames at the same place of the same function: the members that
    [disassemble] does not write and the two cursors agree; the labels and
    the text may differ. *)
Definition aligned (fr1 fr2 : Frame) : Prop :=
  same_layout (this fr1) (this fr2)
  ∧ offset fr1 = offset fr2
  ∧ runtime_address fr1 = runtime_address fr2.

(** The distance of the runtime address from the offset, as an unsigned
    64-bit value. *)
Definition skew (fr : Frame) : Z := wrap64 (runtime_address fr - offset fr).

(** [table_at fr ws]: the 32-bit words at the cursor are [ws], each of them
    an address of the function, and the word after them is not one. *)
Fixpoint table_at (fr : Frame) (ws : list Z) : Prop :=
  match ws with
  | [] => ∃ w, get_le32 (section_pointer fr) = Some w
               ∧ in_function (this fr) w = false
  | w :: ws' => get_le32 (section_pointer fr) = Some w
                ∧ in_function (this fr) w = true
                ∧ table_at (advance 4 fr) ws'
  end.

(** [table_to_end fr ws]: the 32-bit words at the cursor are [ws], each of
    them an address of the function, and after them the section data have
    fewer than four bytes left. *)
Fixpoint table_to_end (fr : Frame) (ws : list Z) : Prop :=
  match ws with
  | [] => get_le32 (section_pointer fr) = None
  | w :: ws' => get_le32 (section_pointer fr) = Some w
                ∧ in_function (this fr) w = true
                ∧ table_to_end (advance 4 fr) ws'
  end.

(** *** What the loops need to end *)

(** A decoded instruction has a length of at least one byte and lies within
    the buffer that the decoder was given. *)
Definition decoder_bounded : Prop :=
  ∀ mode width buffer len info operands,
    ZydisDecoderDecode mode width buffer len = Some (info, operands) →
    1 ≤ info_length info ≤ Z.of_nat (length buffer).

(** The bytes of the function's section. *)
Definition section_bytes (func : Function) : list Z :=
  Executable.section_data (m_executable func) (m_section func).

End Unassemblize.

(** ** A small instance

    A decoder and a formatter for four x86 instructions, and an image with
    one code section: enough to run the two passes on concrete bytes. *)
Module Sample.

Definition sign_extend8 (b : Z) : Z :=
  wrap64 (if b <? 128 then b else b - 256).

Definition insn (len : Z) (m : ZydisMnemonic) (rel : bool)
    : ZydisDecodedInstruction :=
  {| info_length := len; info_mnemonic := m; info_raw_imm_is_relative := rel |}.

Definition imm_operand (v : Z) : ZydisDecodedOperand :=
  {| imm_value_u := v; mem_disp_value := 0; ptr_offset := 0 |}.

Definition disp_operand (v : Z) : ZydisDecodedOperand :=
  {| imm_value_u := 0; mem_disp_value := v; ptr_offset := 0 |}.

Definition ptr_operand (v : Z) : ZydisDecodedOperand :=
  {| imm_value_u := 0; mem_disp_value := 0; ptr_offset := v |}.

(** [90] nop, [C3] ret, [EB cb] jmp rel8, [FF E0] jmp eax. *)
Definition decode (mode : ZydisMachineMode) (width : ZydisStackWidth)
    (buffer : list Z) (length : Z)
    : option (ZydisDecodedInstruction * list ZydisDecodedOperand) :=
  match buffer with
  | [] => None
  | opcode :: rest =>
      if opcode =? 0x90 then Some (insn 1 ZYDIS_MNEMONIC_NOP false, [])
      else if opcode =? 0xC3
      then Some (insn 1 (ZYDIS_MNEMONIC_OTHER 0) false, [])
      else if opcode =? 0xEB then
        match rest with
        | cb :: _ =>
            Some (insn 2 ZYDIS_MNEMONIC_JMP true,
                  [imm_operand (sign_extend8 cb)])
        | [] => None
        end
      else if opcode =? 0xFF then
        match rest with
        | modrm :: _ =>
            if modrm =? 0xE0 then Some (insn 2 ZYDIS_MNEMONIC_JMP false, [])
            else None
        | [] => None
        end
      else None
  end.

(** The target of a relative branch in a 32-bit mode. *)
Definition calc_absolute_address (info : ZydisDecodedInstruction)
    (operand : ZydisDecodedOperand) (runtime_address : Z) : option Z :=
  if info_raw_imm_is_relative info
  then Some (wrap32 (runtime_address + info_length info + imm_value_u operand))
  else None.

Definition print_address : ZydisFormatterFunc := λ context buffer,
  a ← calc_absolute_address (ctx_instruction context) (ctx_operand context)
         (ctx_runtime_address context);
  Some (buffer +:+ "0x" +:+ hex a).

Definition print_immediate : ZydisFormatterFunc := λ context buffer,
  Some (buffer +:+ "0x" +:+ hex (imm_value_u (ctx_operand context))).

Definition print_displacement : ZydisFormatterFunc := λ context buffer,
  Some (buffer +:+ "+0x" +:+ hex (wrap64 (mem_disp_value (ctx_operand context)))).

Definition format_operand_ptr : ZydisFormatterFunc := λ context buffer,
  Some (buffer +:+ "0x" +:+ hex (ptr_offset (ctx_operand context))).

Definition format_instruction (formatter : ZydisFormatter)
    (info : ZydisDecodedInstruction) (operands : list ZydisDecodedOperand)
    (runtime_address : Z) : option string :=
  match info_mnemonic info with
  | ZYDIS_MNEMONIC_NOP => Some "nop"
  | ZYDIS_MNEMONIC_JMP =>
      if info_raw_imm_is_relative info then
        FUNC_PRINT_ADDRESS_ABS formatter
          {| ctx_instruction := info;
             ctx_operand := hd zero_operand operands;
             ctx_runtime_address := runtime_address |} "jmp "
      else Some "jmp eax"
  | ZYDIS_MNEMONIC_OTHER _ => Some "ret"
  end.

(** The [text] member of an instruction has 96 bytes, one of which is for
    the terminating zero. *)
Definition has_room (s : string) : bool :=
  Z.of_nat (String.length s) <? 96.

Definition zydis : Zydis :=
  {| buffer_has_room := has_room;
     ZydisDecoderDecode := decode;
     ZydisCalcAbsoluteAddress := calc_absolute_address;
     ZydisFormatterFormatInstruction := format_instruction;
     default_print_address_absolute := print_address;
     default_print_address_relative := print_address;
     default_print_immediate := print_immediate;
     default_print_displacement := print_displacement;
     default_format_operand_ptr := format_operand_ptr |}.

Definition no_symbol : Executable.Symbol :=
  {| Executable.name := EmptyString; Executable.value := 0 |}.

(** An image at [0x1000 .. 0x3000] whose section [.text] starts at [0x1000]
    and holds [data]. *)
Definition image (data : list Z) (symbols : Z → Executable.Symbol)
    : Executable.t :=
  {| Executable.section_size := λ s,
       if bool_decide (s = ".text") then Z.of_nat (length data) else 0;
     Executable.section_address := λ _, 0x1000;
     Executable.section_end := λ _, 0x1000 + Z.of_nat (length data);
     Executable.section_data := λ _, data;
     Executable.get_symbol := symbols;
     Executable.base_address := 0x1000;
     Executable.end_address := 0x3000 |}.

Definition function (exe : Executable.t) (first last : Z)
    (l : gmap Z string) : Function :=
  {| m_executable := exe; m_section := ".text";
     m_startAddress := first; m_endAddress := last;
     m_labels := l; m_dissassembly := EmptyString |}.

(** The symbols of the image: the function [start] at [0x1000] and the data
    object [table] at [0x2000]; an address is answered with the symbol at or
    below it, an address past [table] with no symbol. *)
Definition symbols (a : Z) : Executable.Symbol :=
  if bool_decide (0x1000 ≤ a < 0x2000)
  then {| Executable.name := "start"; Executable.value := 0x1000 |}
  else if bool_decide (0x2000 ≤ a < 0x2100)
  then {| Executable.name := "table"; Executable.value := 0x2000 |}
  else no_symbol.

(** [jmp 0x1008], six [nop], [ret]. *)
Definition branch_body : list Z :=
  [0xEB; 0x06; 0x90; 0x90; 0x90; 0x90; 0x90; 0x90; 0xC3; 0; 0; 0; 0; 0].

(** [nop], [jmp 0x1000]. *)
Definition loop_body : list Z := [0x90; 0xEB; 0xFD; 0; 0; 0; 0; 0].

(** Three [ret], [jmp eax], the table [0x1000], [0x1001], [0x1002], the word
    [0x2000]. *)
Definition table_body : list Z :=
  [0xC3; 0xC3; 0xC3; 0xFF; 0xE0;
   0x00; 0x10; 0; 0; 0x01; 0x10; 0; 0; 0x02; 0x10; 0; 0;
   0x00; 0x20; 0; 0; 0; 0; 0; 0].

(** Three [ret], [jmp eax], a table whose first two slots hold the same
    address [0x1000], the slot [0x1001], the word [0x2000]. *)
Definition shared_slot_body : list Z :=
  [0xC3; 0xC3; 0xC3; 0xFF; 0xE0;
   0x00; 0x10; 0; 0; 0x00; 0x10; 0; 0; 0x01; 0x10; 0; 0;
   0x00; 0x20; 0; 0; 0; 0; 0; 0].


(** The function of [loop_body] with the label that pass 1 gives to its
    first address, where the image has the symbol [start]. *)
Definition looping : Function :=
  function (image loop_body symbols) 0x1000 0x1002
    {[ 0x1000 := "label_1000" ]}.

(** The [jmp] at [0x1001] of [loop_body]. *)
Definition back_branch : ZydisFormatterContext :=
  {| ctx_instruction := insn 2 ZYDIS_MNEMONIC_JMP true;
     ctx_operand := imm_operand (sign_extend8 0xFD);
     ctx_runtime_address := 0x1001 |}.

(** The function of [table_body], before and after pass 1. *)
Definition dispatch_start : Function :=
  function (image table_body symbols) 0x1000 0x1010 ∅.

Definition dispatch : Function :=
  function (image table_body symbols) 0x1000 0x1010
    (<[0x1002 := "label_1002"]>
       (<[0x1001 := "label_1001"]>
          (<[0x1000 := "label_1000"]> {[ 0x1005 := "label_1005" ]}))).

(** An operand with the displacement [x], and one with the far pointer
    [x]. *)
Definition displacement (x : Z) : ZydisFormatterContext :=
  {| ctx_instruction := insn 7 ZYDIS_MNEMONIC_JMP false;
     ctx_operand := disp_operand x;
     ctx_runtime_address := 0x1000 |}.

Definition far_pointer (x : Z) : ZydisFormatterContext :=
  {| ctx_instruction := insn 7 ZYDIS_MNEMONIC_JMP false;
     ctx_operand := ptr_operand x;
     ctx_runtime_address := 0x1000 |}.

(** The frame of [disassemble] at the offset [o] of the section. *)
Definition at_offset (func : Function) (o : Z) : Frame :=
  {| this := func; offset := o; runtime_address := 0x1000 + o |}.

Definition line (s : string) : string := s +:+ LF.

(** The function of [shared_slot_body], of [short_body] and of
    [branch_body], and a function in an empty section. *)
Definition shared_slot : Function :=
  function (image shared_slot_body symbols) 0x1000 0x1010 ∅.


Definition branch : Function :=
  function (image branch_body symbols) 0x1000 0x1008 ∅.

Definition nowhere : Function :=
  function (image [] symbols) 0x1000 0x1010 ∅.

(** The function of [loop_body] before pass 1; the first two [ret] of
    [table_body] as a function of their own; and a function whose end lies
    before its start. *)
Definition loop_start : Function :=
  function (image loop_body symbols) 0x1000 0x1002 ∅.

Definition two_rets : Function :=
  function (image table_body symbols) 0x1000 0x1001 ∅.

Definition inverted : Function :=
  function (image table_body symbols) 0x1005 0x1000 ∅.

(** [jmp eax] and the table [0x1000], [0x1001], with which the section
    data end. *)
Definition open_table_body : list Z :=
  [0xFF; 0xE0; 0x00; 0x10; 0; 0; 0x01; 0x10; 0; 0].

Definition open_table : Function :=
  function (image open_table_body symbols) 0x1000 0x1010 ∅.

(** [table_body] with a [jmp] to [0x1084], outside the function, in the
    place of [jmp eax]; the function of that body before and after
    pass 1. *)
Definition relative_table_body : list Z :=
  [0xC3; 0xC3; 0xC3; 0xEB; 0x7F;
   0x00; 0x10; 0; 0; 0x01; 0x10; 0; 0; 0x02; 0x10; 0; 0;
   0x00; 0x20; 0; 0; 0; 0; 0; 0].

Definition relative_dispatch_start : Function :=
  function (image relative_table_body symbols) 0x1000 0x1010 ∅.

Definition relative_dispatch : Function :=
  function (image relative_table_body symbols) 0x1000 0x1010
    (<[0x1002 := "label_1002"]>
       (<[0x1001 := "label_1001"]>
          (<[0x1000 := "label_1000"]> {[ 0x1005 := "label_1005" ]}))).





(** An operand with the immediate [x]. *)
Definition immediate (x : Z) : ZydisFormatterContext :=
  {| ctx_instruction := insn 5 (ZYDIS_MNEMONIC_OTHER 0) false;
     ctx_operand := imm_operand x;
     ctx_runtime_address := 0x1000 |}.

Definition decoded (r len : Z) (m : ZydisMnemonic) (text : string)
    : ZydisDisassembledInstruction :=
  {| insn_runtime_address := r; insn_info := insn len m false;
     insn_operands := []; insn_text := text |}.

End Sample.

(** * Properties *)

(** ** Little-endian words *)

(** A bitwise or of a multiple of [2 ^ n] and a value below [2 ^ n] is their
    sum. *)
Lemma lor_high_low (h l n : Z) :
  0 ≤ n → 0 ≤ l < 2 ^ n → Z.lor (h * 2 ^ n) l = h * 2 ^ n + l.
Proof.
  intros Hn Hl. rewrite <- Z.shiftl_mul_pow2 by done.
  assert (Z.land (Z.shiftl h n) l = 0) as Hland.
  { apply Z.bits_inj'. intros i Hi.
    rewrite Z.land_spec, Z.bits_0.
    destruct (Z.lt_ge_cases i n) as [Hlt|Hge].
    - by rewrite Z.shiftl_spec_low.
    - rewrite <- (Z.mod_small l (2 ^ n)) by done.
      rewrite Z.mod_pow2_bits_high by lia. apply andb_false_r. }
  pose proof (Z.add_lor_land (Z.shiftl h n) l) as Hadd.
  rewrite Hland, Z.add_0_r in Hadd. exact Hadd.
Qed.

(** X1.  [get_le32] reads four bytes as a little-endian word: the first
    byte is the least significant one, and the value is that of an unsigned
    32-bit integer also when the top bit of the last byte is set, where the
    shift by 24 leaves the range of [int]. *)
Theorem get_le32_little_endian (d0 d1 d2 d3 : Z) (rest : list Z) :
  0 ≤ d0 < 256 → 0 ≤ d1 < 256 → 0 ≤ d2 < 256 → 0 ≤ d3 < 256 →
  get_le32 (d0 :: d1 :: d2 :: d3 :: rest)
  = Some (d0 + 256 * d1 + 65536 * d2 + 16777216 * d3)
  ∧ 0 ≤ d0 + 256 * d1 + 65536 * d2 + 16777216 * d3 < 2 ^ 32.
Proof.
  intros H0 H1 H2 H3.
  assert (0 ≤ d0 + 256 * d1 + 65536 * d2 + 16777216 * d3 < 2 ^ 32) as Hr by lia.
  split; [|exact Hr]. unfold get_le32. f_equal.
  rewrite !Z.shiftl_mul_pow2 by lia.
  rewrite (lor_high_low d3 (d2 * 2 ^ 16) 24) by lia.
  replace (d3 * 2 ^ 24 + d2 * 2 ^ 16) with ((d3 * 2 ^ 8 + d2) * 2 ^ 16) by lia.
  rewrite (lor_high_low _ (d1 * 2 ^ 8) 16) by lia.
  replace ((d3 * 2 ^ 8 + d2) * 2 ^ 16 + d1 * 2 ^ 8)
    with (((d3 * 2 ^ 8 + d2) * 2 ^ 8 + d1) * 2 ^ 8) by lia.
  rewrite (lor_high_low _ d0 8) by lia.
  unfold wrap32. rewrite Z.mod_small; lia.
Qed.

Lemma get_le32_little_endian_witness :
  get_le32 [0x78; 0x56; 0x34; 0x92; 0xFF] = Some 0x92345678.
Proof.
  apply (proj1 (get_le32_little_endian 0x78 0x56 0x34 0x92 [0xFF]
                  ltac:(lia) ltac:(lia) ltac:(lia) ltac:(lia))).
Defined.

(** ** Text *)

Lemma append_cons (c : ascii) (s t : string) :
  String c s +:+ t = String c (s +:+ t).
Proof. reflexivity. Qed.

Lemma append_nil_r (s : string) : s +:+ EmptyString = s.
Proof.
  induction s as [|c s IH]; [done|]. by rewrite append_cons, IH.
Qed.

Lemma append_assoc (a b c : string) : (a +:+ b) +:+ c = a +:+ (b +:+ c).
Proof.
  induction a as [|x a IH]; [done|]. by rewrite !append_cons, IH.
Qed.

(** *** Hexadecimal numbers *)

Lemma hex_digit_value_digit (d : Z) :
  0 ≤ d < 16 → hex_digit_value (hex_digit d) = d.
Proof.
  intros Hd.
  assert (d = 0 ∨ d = 1 ∨ d = 2 ∨ d = 3 ∨ d = 4 ∨ d = 5 ∨ d = 6 ∨ d = 7
          ∨ d = 8 ∨ d = 9 ∨ d = 10 ∨ d = 11 ∨ d = 12 ∨ d = 13 ∨ d = 14
          ∨ d = 15) as Hcases by lia.
  repeat (destruct Hcases as [-> | Hcases]; [reflexivity|]).
  by subst.
Qed.

Lemma hex_digits_value (fuel : nat) (n : Z) (acc : string) :
  0 ≤ n < 16 ^ Z.of_nat fuel →
  ∃ k, 0 ≤ k ∧ ∀ v, hex_value_from v (hex_digits fuel n acc)
                    = hex_value_from (v * 16 ^ k + n) acc.
Proof.
  revert n acc. induction fuel as [|fuel IH]; intros n acc Hn.
  { exists 0. split; [done|]. intros v. simpl in *.
    f_equal. lia. }
  assert (0 ≤ n mod 16 < 16) as Hd by (apply Z.mod_pos_bound; lia).
  assert (n = 16 * (n / 16) + n mod 16) as Hdiv by (apply Z.div_mod; lia).
  cbn [hex_digits]. destruct (Z.eqb_spec (n / 16) 0) as [Hz|Hnz].
  - exists 1. split; [lia|]. intros v. cbn [hex_value_from].
    rewrite hex_digit_value_digit by done. f_equal. lia.
  - destruct (IH (n / 16) (String (hex_digit (n mod 16)) acc))
      as (k & Hk & Hrun).
    { split; [apply Z.div_pos; lia|].
      apply Z.div_lt_upper_bound; [lia|].
      rewrite Nat2Z.inj_succ, Z.pow_succ_r in Hn by lia. lia. }
    exists (k + 1). split; [lia|]. intros v. rewrite Hrun.
    cbn [hex_value_from]. rewrite hex_digit_value_digit by done.
    f_equal. rewrite Z.pow_add_r by lia. lia.
Qed.

(** Reading back what [hex] wrote gives the number. *)
Lemma hex_value_hex (n : Z) : hex_value_from 0 (hex n) = wrap64 n.
Proof.
  unfold hex.
  destruct (hex_digits_value 16 (wrap64 n) EmptyString) as (k & _ & Hrun).
  { unfold wrap64. change (16 ^ Z.of_nat 16) with (2 ^ 64).
    apply Z.mod_pos_bound. lia. }
  rewrite Hrun. simpl. lia.
Qed.

(** Label names of different 64-bit addresses differ. *)
Lemma label_name_inj (a b : Z) :
  label_name a = label_name b → wrap64 a = wrap64 b.
Proof.
  unfold label_name. rewrite !append_cons. intros [= Heq].
  change (EmptyString +:+ ?x) with x in Heq.
  by rewrite <- (hex_value_hex a), <- (hex_value_hex b), Heq.
Qed.

Section Format.

Context `{!Zydis}.

Lemma format_s (buffer s : string) :
  ZyanStringAppendFormat buffer "%s" [ArgStr s] = ZyanStringAppend buffer s.
Proof.
  unfold ZyanStringAppendFormat. simpl. rewrite append_nil_r. reflexivity.
Qed.

Lemma format_plus_s (buffer s : string) :
  ZyanStringAppendFormat buffer "+%s" [ArgStr s]
  = ZyanStringAppend buffer ("+" +:+ s).
Proof.
  unfold ZyanStringAppendFormat. simpl. rewrite append_nil_r. reflexivity.
Qed.

Lemma format_sub (buffer : string) (a : Z) :
  ZyanStringAppendFormat buffer "sub_%x" [ArgU64 a]
  = ZyanStringAppend buffer ("sub_" +:+ hex (wrap32 a)).
Proof.
  unfold ZyanStringAppendFormat. simpl. rewrite append_nil_r. reflexivity.
Qed.

Lemma format_off (buffer : string) (a : Z) :
  ZyanStringAppendFormat buffer "off_%x" [ArgU64 a]
  = ZyanStringAppend buffer ("off_" +:+ hex (wrap32 a)).
Proof.
  unfold ZyanStringAppendFormat. simpl. rewrite append_nil_r. reflexivity.
Qed.

Lemma format_unk (buffer : string) (a : Z) :
  ZyanStringAppendFormat buffer "unk_%x" [ArgU64 a]
  = ZyanStringAppend buffer ("unk_" +:+ hex (wrap32 a)).
Proof.
  unfold ZyanStringAppendFormat. simpl. rewrite append_nil_r. reflexivity.
Qed.

Lemma format_plus_sub (buffer : string) (a : Z) :
  ZyanStringAppendFormat buffer "+sub_%x" [ArgU64 a]
  = ZyanStringAppend buffer ("+" +:+ "sub_" +:+ hex (wrap32 a)).
Proof.
  unfold ZyanStringAppendFormat. simpl. rewrite append_nil_r. reflexivity.
Qed.

Lemma format_plus_off (buffer : string) (a : Z) :
  ZyanStringAppendFormat buffer "+off_%x" [ArgU64 a]
  = ZyanStringAppend buffer ("+" +:+ "off_" +:+ hex (wrap32 a)).
Proof.
  unfold ZyanStringAppendFormat. simpl. rewrite append_nil_r. reflexivity.
Qed.

Lemma format_symbol_offset (buffer s : string) (diff : Z) :
  ZyanStringAppendFormat buffer ("+%s+0x%" +:+ PRIx64 +:+ "")
    [ArgStr s; ArgU64 diff]
  = ZyanStringAppend buffer ("+" +:+ s +:+ "+0x" +:+ hex diff).
Proof.
  unfold ZyanStringAppendFormat. simpl. rewrite append_nil_r. reflexivity.
Qed.

(** The format of the branch of the function's own section has no
    conversion after its last [%]. *)
Lemma format_symbol_offset_section (buffer s : string) (diff : Z) :
  ZyanStringAppendFormat buffer "+%s+0x%" [ArgStr s; ArgU64 diff] = None.
Proof. reflexivity. Qed.

(** What is appended is what the string then ends with. *)
Lemma ZyanStringAppend_Some (buffer t r : string) :
  ZyanStringAppend buffer t = Some r → r = buffer +:+ t.
Proof.
  unfold ZyanStringAppend. destruct (buffer_has_room _); [|done].
  by intros [= <-].
Qed.

End Format.

Create Rewrite HintDb format.

#[local] Hint Rewrite @format_s @format_plus_s @format_sub @format_off
  @format_unk @format_plus_sub @format_plus_off @format_symbol_offset
  @format_symbol_offset_section : format.

(** ** The label table *)

Lemma insert_label_present (m : gmap Z string) (a : Z) :
  is_Some (m !! a) → insert_label a m = m.
Proof. intros [s Hs]. unfold insert_label. by rewrite Hs. Qed.

Lemma insert_label_lookup (m : gmap Z string) (a : Z) :
  is_Some (insert_label a m !! a).
Proof.
  unfold insert_label. destruct (m !! a) as [s|] eqn:E.
  - rewrite E. eauto.
  - rewrite lookup_insert_eq. eauto.
Qed.

Lemma insert_label_subseteq (m : gmap Z string) (a : Z) :
  m ⊆ insert_label a m.
Proof.
  unfold insert_label. destruct (m !! a) eqn:E; [done|].
  by apply insert_subseteq.
Qed.

(** C9.  Inserting a label is idempotent: at an address that has a label the
    insertion leaves the table as it is, inserting twice is inserting once,
    and the entries of the table have pairwise different addresses. *)
Theorem insert_label_idempotent (m : gmap Z string) (address : Z) :
  (is_Some (m !! address) → insert_label address m = m)
  ∧ insert_label address (insert_label address m) = insert_label address m
  ∧ NoDup (map_to_list (insert_label address (insert_label address m))).*1.
Proof.
  split; [apply insert_label_present|]. split.
  - apply insert_label_present, insert_label_lookup.
  - apply NoDup_fst_map_to_list.
Qed.

(** ** The address resolution of the hooks *)

Section Resolver.

Context `{!Zydis}.

Lemma exact_symbol_test (func : Function) (a : Z) :
  exact_symbol func a →
  bool_decide (Executable.name (Executable.get_symbol (executable func) a)
               ≠ EmptyString)
  && (Executable.value (Executable.get_symbol (executable func) a) =? a)
  = true.
Proof.
  intros [Hn Hv]. rewrite bool_decide_eq_true_2 by done.
  simpl. by apply Z.eqb_eq.
Qed.

Lemma no_symbol_test (func : Function) (a : Z) :
  Executable.name (Executable.get_symbol (executable func) a) = EmptyString →
  bool_decide (Executable.name (Executable.get_symbol (executable func) a)
               ≠ EmptyString) = false.
Proof. intros Hn. by rewrite bool_decide_eq_false_2; [|rewrite Hn; auto]. Qed.

Lemma not_exact_symbol_test (func : Function) (a : Z) :
  ¬ exact_symbol func a →
  bool_decide (Executable.name (Executable.get_symbol (executable func) a)
               ≠ EmptyString)
  && (Executable.value (Executable.get_symbol (executable func) a) =? a)
  = false.
Proof.
  intros Hex. apply not_true_is_false. intros Ht.
  apply andb_true_iff in Ht as [Hn Hv]. apply Hex.
  split; [by apply bool_decide_eq_true_1 in Hn | by apply Z.eqb_eq].
Qed.

(** Opens the hook of the operand context [k], whose address is given by
    [Ha : hook_address k context = Some address]. *)
Ltac open_hook k Ha :=
  destruct k; simpl in Ha;
  unfold hook, default_renderer, UnasmFormatterPrintAddressAbsolute,
    UnasmFormatterPrintAddressRelative, UnasmFormatterPrintIMM,
    UnasmFormatterPrintDISP, UnasmFormatterFormatOperandPTR;
  try (rewrite Ha; simpl); try (injection Ha as Ha; rewrite Ha).

(** Closes a branch that ends in one [ZyanStringAppendFormat]. *)
Ltac close_format := cbv zeta; simpl; autorewrite with format; reflexivity.

Lemma range_test_true (lo hi a : Z) :
  lo ≤ a ≤ hi → (lo <=? a) && (a <=? hi) = true.
Proof. intros ?. apply andb_true_iff. split; apply Z.leb_le; lia. Qed.

Lemma range_test_false (lo hi a : Z) :
  ¬ (lo ≤ a ≤ hi) → (lo <=? a) && (a <=? hi) = false.
Proof.
  intros ?. apply andb_false_iff.
  destruct (Z.leb_spec lo a); destruct (Z.leb_spec a hi); auto; lia.
Qed.

(** C1.  Whatever the operand context, a hook resolves its address in the
    fixed order: the label of the function first, then the function's own
    section, then the image, then the default rendering of the formatter.
    An address that has a label is rendered as that label (after a [+] in a
    displacement), whatever symbol the image has there.  For every address
    the kind that [resolve] finds in this order fixes what the hook does: a
    label is appended as it is; in the function's own section and in the
    image a symbol that lies at the address is appended by its name, and
    without such a symbol a made-up name is, [sub_] or [off_] ([unk_] for a
    far pointer) and the address, except that a displacement for which the
    image answers with a named symbol elsewhere fails in the function's own
    section and is appended as that name and the offset from it in the
    image; everywhere else the formatter's own callback is called. *)
Theorem resolution_order (k : OperandContext) (func : Function)
    (context : ZydisFormatterContext) (buffer : string) (address : Z) :
  hook_address k context = Some address →
  let symbol := Executable.get_symbol (executable func) address in
  (∀ label, labels func !! address = Some label →
     hook k func context buffer
     = ZyanStringAppend buffer (punctuation k +:+ label))
  ∧ match resolve func address with
    | Local =>
        ∃ label, labels func !! address = Some label
                 ∧ hook k func context buffer
                   = ZyanStringAppend buffer (punctuation k +:+ label)
    | SectionSymbol =>
        labels func !! address = None
        ∧ section_address func ≤ address ≤ section_end func
        ∧ hook k func context buffer
          = if bool_decide (exact_symbol func address)
            then ZyanStringAppend buffer
                   (punctuation k +:+ Executable.name symbol)
            else if bool_decide (k = Displacement
                                 ∧ Executable.name symbol ≠ EmptyString)
            then None
            else ZyanStringAppend buffer
                   (punctuation k +:+ "sub_" +:+ hex (wrap32 address))
    | ImageSymbol =>
        labels func !! address = None
        ∧ ¬ (section_address func ≤ address ≤ section_end func)
        ∧ Executable.base_address (executable func) ≤ address
          ≤ Executable.end_address (executable func)
        ∧ hook k func context buffer
          = if bool_decide (exact_symbol func address)
            then ZyanStringAppend buffer
                   (punctuation k +:+ Executable.name symbol)
            else if bool_decide (k = Displacement
                                 ∧ Executable.name symbol ≠ EmptyString)
            then ZyanStringAppend buffer
                   ("+" +:+ Executable.name symbol +:+ "+0x"
                    +:+ hex (wrap64 (address - Executable.value symbol)))
            else ZyanStringAppend buffer
                   (punctuation k +:+ image_prefix k
                    +:+ hex (wrap32 address))
    | Unresolved =>
        labels func !! address = None
        ∧ ¬ (section_address func ≤ address ≤ section_end func)
        ∧ ¬ (Executable.base_address (executable func) ≤ address
             ≤ Executable.end_address (executable func))
        ∧ hook k func context buffer = default_renderer k context buffer
    end.
Proof.
  intros Ha symbol. subst symbol.
  assert (∀ label, labels func !! address = Some label →
            hook k func context buffer
            = ZyanStringAppend buffer (punctuation k +:+ label)) as Hlabel.
  { intros label Hl. open_hook k Ha; rewrite Hl; close_format. }
  split; [exact Hlabel|].
  unfold resolve. case_bool_decide as Hl.
  { destruct Hl as [label Hl]. exists label. split; [done|]. by apply Hlabel. }
  assert (labels func !! address = None) as Hnone.
  { destruct (labels func !! address); [exfalso; eauto | done]. }
  clear Hl Hlabel.
  (* the ways a symbol lookup can end *)
  assert (∀ X Y : option string,
            (if bool_decide
                  (Executable.name
                     (Executable.get_symbol (executable func) address)
                   ≠ EmptyString)
                && (Executable.value
                      (Executable.get_symbol (executable func) address)
                    =? address)
             then X else Y)
            = if bool_decide (exact_symbol func address) then X else Y)
    as Hexact.
  { intros X Y. destruct (decide (exact_symbol func address)) as [Hex|Hex].
    - rewrite (exact_symbol_test _ _ Hex).
      by rewrite (bool_decide_eq_true_2 (exact_symbol _ _)).
    - rewrite (not_exact_symbol_test _ _ Hex).
      by rewrite (bool_decide_eq_false_2 (exact_symbol _ _)). }
  assert (∀ X Y Z : option string,
            (if bool_decide
                  (Executable.name
                     (Executable.get_symbol (executable func) address)
                   ≠ EmptyString)
             then if Executable.value
                       (Executable.get_symbol (executable func) address)
                     =? address
                  then X else Y
             else Z)
            = if bool_decide (exact_symbol func address) then X
              else if bool_decide
                        (Displacement = Displacement
                         ∧ Executable.name
                             (Executable.get_symbol (executable func) address)
                           ≠ EmptyString)
              then Y else Z) as Hdisp.
  { intros X Y Z. unfold exact_symbol.
    destruct (decide (Executable.name
                        (Executable.get_symbol (executable func) address)
                      ≠ EmptyString)) as [Hn|Hn].
    - rewrite (bool_decide_eq_true_2 (_ ≠ _)) by done.
      destruct (Z.eqb_spec
                  (Executable.value
                     (Executable.get_symbol (executable func) address))
                  address) as [Hv|Hv].
      + by rewrite (bool_decide_eq_true_2 (_ ≠ _ ∧ _ = _)).
      + rewrite (bool_decide_eq_false_2 (_ ≠ _ ∧ _ = _))
          by (intros [_ ?]; done).
        by rewrite (bool_decide_eq_true_2 (_ = _ ∧ _ ≠ _)).
    - rewrite (bool_decide_eq_false_2 (_ ≠ _)) by done.
      rewrite (bool_decide_eq_false_2 (_ ≠ _ ∧ _ = _))
        by (intros [? _]; done).
      by rewrite (bool_decide_eq_false_2 (_ = _ ∧ _ ≠ _))
        by (intros [_ ?]; done). }
  destruct (decide (section_address func ≤ address ≤ section_end func))
    as [Hs|Hs];
    [rewrite (bool_decide_eq_true_2 _ Hs)
    |rewrite (bool_decide_eq_false_2 _ Hs)].
  { cbv beta iota. split; [done|]. split; [done|].
    apply range_test_true in Hs.
    open_hook k Ha; rewrite Hnone, Hs; cbv zeta;
      rewrite ?Hexact, ?Hdisp;
      rewrite ?(bool_decide_eq_false_2 (_ = Displacement ∧ _))
        by (intros [? _]; done);
      repeat case_bool_decide; close_format. }
  destruct (decide (Executable.base_address (executable func) ≤ address
                    ≤ Executable.end_address (executable func))) as [Hi|Hi];
    [rewrite (bool_decide_eq_true_2 _ Hi)
    |rewrite (bool_decide_eq_false_2 _ Hi)].
  { cbv beta iota. split; [done|]. split; [done|]. split; [done|].
    apply range_test_false in Hs. apply range_test_true in Hi.
    open_hook k Ha; rewrite Hnone, Hs, Hi; cbv zeta;
      rewrite ?Hexact, ?Hdisp;
      rewrite ?(bool_decide_eq_false_2 (_ = Displacement ∧ _))
        by (intros [? _]; done);
      repeat case_bool_decide; close_format. }
  cbv beta iota. split; [done|]. split; [done|]. split; [done|].
  apply range_test_false in Hs. apply range_test_false in Hi.
  open_hook k Ha; rewrite Hnone, Hs, Hi; reflexivity.
Qed.

(** C4 (as amended).  A displacement whose address [x] has no label and
    lies in the image outside the function's own section, and for which the
    image returns a named symbol [s] below [x], is rendered as the name of
    [s] and the offset [x - s.value] in hexadecimal; the unsigned difference
    that the hook takes does not wrap around. *)
Theorem displacement_symbol_offset (func : Function)
    (context : ZydisFormatterContext) (buffer : string) :
  let x := wrap64 (mem_disp_value (ctx_operand context)) in
  let s := Executable.get_symbol (executable func) x in
  labels func !! x = None →
  ¬ (section_address func ≤ x ≤ section_end func) →
  Executable.base_address (executable func) ≤ x
    ≤ Executable.end_address (executable func) →
  Executable.name s ≠ EmptyString →
  0 ≤ Executable.value s < x →
  UnasmFormatterPrintDISP func context buffer
  = ZyanStringAppend buffer
      ("+" +:+ Executable.name s +:+ "+0x" +:+ hex (x - Executable.value s))
  ∧ wrap64 (x - Executable.value s) = x - Executable.value s
  ∧ 0 ≤ x - Executable.value s.
Proof.
  intros x s Hl Hs Hi Hn Hv.
  assert (x < 2 ^ 64) as Hx by (apply Z.mod_pos_bound; lia).
  assert (wrap64 (x - Executable.value s) = x - Executable.value s) as Hd.
  { unfold wrap64. apply Z.mod_small. lia. }
  split; [|split; [done | lia]].
  unfold UnasmFormatterPrintDISP. fold x. cbv zeta. rewrite Hl.
  rewrite (range_test_false _ _ _ Hs), (range_test_true _ _ _ Hi).
  fold s. rewrite bool_decide_eq_true_2 by done.
  destruct (Z.eqb_spec (Executable.value s) x) as [He|_]; [lia|].
  rewrite Hd. by autorewrite with format.
Qed.

(** X2.  A displacement into the function's own section that has no label
    and for which the image returns a named symbol at another address is
    not rendered: the format of that branch ends in a [%] without a
    conversion, and the hook fails. *)
Lemma displacement_symbol_offset_section (func : Function)
    (context : ZydisFormatterContext) (buffer : string) :
  let x := wrap64 (mem_disp_value (ctx_operand context)) in
  let s := Executable.get_symbol (executable func) x in
  labels func !! x = None →
  section_address func ≤ x ≤ section_end func →
  Executable.name s ≠ EmptyString →
  Executable.value s ≠ x →
  UnasmFormatterPrintDISP func context buffer = None.
Proof.
  intros x s Hl Hs Hn Hv.
  unfold UnasmFormatterPrintDISP. fold x. cbv zeta. rewrite Hl.
  rewrite (range_test_true _ _ _ Hs).
  fold s. rewrite bool_decide_eq_true_2 by done.
  destruct (Z.eqb_spec (Executable.value s) x) as [He|_]; [done|].
  by autorewrite with format.
Qed.

(** C5 (as amended).  A far pointer whose 32-bit offset has no label, lies in
    the image outside the function's own section and has no symbol of its
    own there is rendered as [unk_] and the offset in hexadecimal. *)
Theorem far_pointer_image_fallback (func : Function)
    (context : ZydisFormatterContext) (buffer : string) :
  let address := ptr_offset (ctx_operand context) in
  0 ≤ address < 2 ^ 32 →
  labels func !! address = None →
  ¬ (section_address func ≤ address ≤ section_end func) →
  Executable.base_address (executable func) ≤ address
    ≤ Executable.end_address (executable func) →
  ¬ exact_symbol func address →
  UnasmFormatterFormatOperandPTR func context buffer
  = ZyanStringAppend buffer ("unk_" +:+ hex address).
Proof.
  intros address Hr Hl Hs Hi Hex.
  unfold UnasmFormatterFormatOperandPTR. fold address. cbv zeta. rewrite Hl.
  rewrite (range_test_false _ _ _ Hs), (range_test_true _ _ _ Hi).
  assert (wrap32 address = address) as Hw.
  { unfold wrap32. apply Z.mod_small. lia. }
  destruct (bool_decide _ && _) eqn:Ht.
  - exfalso. apply Hex. apply andb_true_iff in Ht as [Hn Hv].
    split; [by apply bool_decide_eq_true_1 in Hn | by apply Z.eqb_eq].
  - autorewrite with format. by rewrite Hw.
Qed.

(** X3.  The address, immediate and far-pointer hooks use a symbol only
    when it lies exactly at the address.  For an address without a label
    and without such a symbol, also when the image answers with a named
    symbol that lies before the address, they print a made-up name:
    [sub_] and the address in the function's own section, [off_] (for a far
    pointer [unk_]) and the address elsewhere in the image. *)
Theorem made_up_name_without_exact_symbol (k : OperandContext)
    (func : Function) (context : ZydisFormatterContext) (buffer : string)
    (address : Z) :
  k ≠ Displacement →
  hook_address k context = Some address →
  labels func !! address = None →
  ¬ exact_symbol func address →
  (section_address func ≤ address ≤ section_end func →
   hook k func context buffer
   = ZyanStringAppend buffer ("sub_" +:+ hex (wrap32 address)))
  ∧ (¬ (section_address func ≤ address ≤ section_end func) →
     Executable.base_address (executable func) ≤ address
       ≤ Executable.end_address (executable func) →
     hook k func context buffer
     = ZyanStringAppend buffer (image_prefix k +:+ hex (wrap32 address))).
Proof.
  intros Hk Ha Hl Hex. pose proof (not_exact_symbol_test _ _ Hex) as Ht.
  split.
  - intros Hs%range_test_true.
    open_hook k Ha; try done; rewrite Hl, Hs; cbv zeta;
      rewrite Ht; close_format.
  - intros Hs%range_test_false Hi%range_test_true.
    open_hook k Ha; try done; rewrite Hl, Hs, Hi; cbv zeta;
      rewrite Ht; close_format.
Qed.

End Resolver.

(** ** Pass 1 *)

Section Pass1.

Context `{!Zydis}.

Lemma same_layout_refl (f : Function) : same_layout f f.
Proof. by repeat split. Qed.

Lemma same_layout_sym (f g : Function) : same_layout f g → same_layout g f.
Proof. intros (? & ? & ? & ?). by repeat split. Qed.

Lemma same_layout_trans (f g h : Function) :
  same_layout f g → same_layout g h → same_layout f h.
Proof.
  intros (? & ? & ? & ?) (? & ? & ? & ?). repeat split; congruence.
Qed.

Lemma in_function_layout (f g : Function) (a : Z) :
  same_layout f g → in_function f a = in_function g a.
Proof. intros (_ & _ & Hs & He). unfold in_function. by rewrite Hs, He. Qed.

Lemma in_function_range (f : Function) (a : Z) :
  in_function f a = true ↔ m_startAddress f ≤ a ≤ m_endAddress f.
Proof. unfold in_function. rewrite andb_true_iff, !Z.leb_le. tauto. Qed.

Lemma grown_refl (f : Function) : grown f f.
Proof.
  split; [apply same_layout_refl|]. split; [done|]. split; [done|]. auto.
Qed.

Lemma grown_trans (f g h : Function) : grown f g → grown g h → grown f h.
Proof.
  intros (Hl1 & Hd1 & Hs1 & Hn1) (Hl2 & Hd2 & Hs2 & Hn2).
  split; [by eapply same_layout_trans|]. split; [congruence|].
  split; [by etrans|].
  intros a s Hh. destruct (Hn2 a s Hh) as [Hg | (Hg & -> & Hr)].
  - by apply Hn1.
  - right. split; [|split; [done|]].
    + destruct (labels f !! a) as [t|] eqn:E; [|done].
      eapply lookup_weaken in E; [|exact Hs1]. congruence.
    + destruct Hl1 as (_ & _ & -> & ->). done.
Qed.

Lemma grown_insert_label (f : Function) (a : Z) :
  in_function f a = true →
  grown f (set_labels f (insert_label a (labels f))).
Proof.
  intros Hr%in_function_range.
  split; [by repeat split|]. split; [done|].
  split; [apply insert_label_subseteq|].
  intros b s. simpl. unfold insert_label.
  destruct (labels f !! a) eqn:E; [auto|].
  destruct (decide (a = b)) as [<-|Hne].
  - rewrite lookup_insert_eq. intros [= <-]. auto.
  - rewrite lookup_insert_ne by done. auto.
Qed.

Lemma pass1_jump_table_grown (fuel : nat) (in_jump_table : bool)
    (next_int : Z) (fr : Frame) :
  grown (this fr) (this (pass1_jump_table fuel in_jump_table next_int fr).2).
Proof.
  revert in_jump_table next_int fr.
  induction fuel as [|fuel IH]; intros b n fr; simpl; [apply grown_refl|].
  destruct (in_function (this fr) n) eqn:Hn; [|apply grown_refl].
  set (l1 := if b then labels (this fr) else _).
  assert (grown (this fr) (set_labels (this fr) l1)) as H1.
  { subst l1. destruct b; [|destruct (in_function _ (runtime_address fr)) eqn:Hr].
    - split; [by repeat split|]. split; [done|]. split; [done|]. auto.
    - by apply grown_insert_label.
    - split; [by repeat split|]. split; [done|]. split; [done|]. auto. }
  assert (grown (this fr) (set_labels (this fr) (insert_label n l1))) as H2.
  { eapply grown_trans; [exact H1|].
    apply (grown_insert_label (set_labels (this fr) l1) n). exact Hn. }
  set (fr' := advance 4 _).
  destruct (get_le32 (section_pointer fr')) as [n'|]; [|exact H2].
  eapply grown_trans; [exact H2|]. apply (IH true n' fr').
Qed.

Lemma pass1_body_grown (instruction : ZydisDisassembledInstruction)
    (fr : Frame) :
  grown (this fr) (this (pass1_body instruction fr).2).
Proof.
  unfold pass1_body.
  set (relative := if info_raw_imm_is_relative _ then _ else _).
  assert (∀ l, relative = Some l → grown (this fr) (set_labels (this fr) l))
    as Hrel.
  { subst relative. intros l.
    assert (grown (this fr) (set_labels (this fr) (labels (this fr)))) as Hid.
    { split; [by repeat split|]. split; [done|]. split; [done|]. auto. }
    destruct (info_raw_imm_is_relative _); [|by intros [= <-]].
    destruct (ZydisCalcAbsoluteAddress _ _ _) as [a|]; [|done].
    destruct (in_function (this fr) a) eqn:Ha; intros [= <-]; [|done].
    by apply grown_insert_label. }
  destruct relative as [l|]; [|apply grown_refl].
  specialize (Hrel l eq_refl).
  set (fr1 := advance _ _).
  destruct (nop_or_jmp _); [|exact Hrel].
  destruct (get_le32 (section_pointer fr1)) as [n|]; [|exact Hrel].
  eapply grown_trans; [exact Hrel|].
  apply (pass1_jump_table_grown _ false n fr1).
Qed.

Lemma pass1_grown (fuel : nat) (end_offset : Z) (fr : Frame) :
  grown (this fr) (this (pass1 fuel end_offset fr).2).
Proof.
  revert fr. induction fuel as [|fuel IH]; intros fr; simpl;
    [apply grown_refl|].
  destruct (UnasmDisassembleNoFormat _ _ _ _) as [instruction|];
    [|apply grown_refl].
  destruct (offset fr <=? end_offset); [|apply grown_refl].
  pose proof (pass1_body_grown instruction fr) as Hb.
  destruct (pass1_body instruction fr) as [[] fr1]; simpl in Hb; try exact Hb.
  eapply grown_trans; [exact Hb | apply IH].
Qed.

(** C3.  Whatever pass 1 adds to the label table, from the target of a
    relative branch, from the anchor of a jump table or from the value of a
    table slot, lies within the address range of the function. *)
Theorem pass1_labels_in_function (fuel : nat) (end_offset : Z) (fr : Frame)
    (a : Z) :
  is_Some (labels (this (pass1 fuel end_offset fr).2) !! a) →
  is_Some (labels (this fr) !! a)
  ∨ m_startAddress (this fr) ≤ a ≤ m_endAddress (this fr).
Proof.
  intros [s Hs].
  destruct (pass1_grown fuel end_offset fr) as (_ & _ & _ & Hn).
  destruct (Hn a s Hs) as [Hold | (_ & _ & Hnew)]; eauto.
Qed.

End Pass1.

(** ** Pass 2 *)

Section Pass2.

Context `{!Zydis}.

Lemma frame_of_eq (fr : Frame) :
  fr = frame_of (this fr) (m_dissassembly (this fr)) (offset fr)
         (runtime_address fr).
Proof. by destruct fr as [[] ? ?]. Qed.

Lemma concat_text_app (l1 l2 : list string) :
  concat_text (l1 ++ l2) = concat_text l1 +:+ concat_text l2.
Proof.
  induction l1 as [|x l1 IH]; [done|].
  simpl. unfold concat_text in *. simpl. by rewrite IH, append_assoc.
Qed.

(** The label line of an address, as the list of the table lines it
    contributes. *)
Lemma label_line_table (m : gmap Z string) (a : Z) :
  ∃ t, Forall (table_line m) t ∧ label_line m a = concat_text t.
Proof.
  unfold label_line. destruct (m !! a) as [s|] eqn:E.
  - exists [s +:+ COLON_LF]. split.
    + constructor; [|constructor]. exists a, s. auto.
    + unfold concat_text. simpl. by rewrite append_nil_r.
  - by exists [].
Qed.

Lemma int_line_table (m : gmap Z string) (a : Z) :
  ∃ t, Forall (table_line m) t ∧ int_line m a = concat_text t.
Proof.
  unfold int_line. destruct (m !! a) as [s|] eqn:E.
  - exists ["    .int " +:+ s +:+ LF]. split.
    + constructor; [|constructor]. exists a, s. auto.
    + unfold concat_text. simpl. by rewrite append_nil_r.
  - by exists [].
Qed.

Lemma emit_label_text (a : Z) (f : Function) (d : string) :
  emit_label a (set_dissassembly f d)
  = set_dissassembly f (d +:+ label_line (labels f) a).
Proof.
  unfold emit_label, label_line, map_subscript. simpl.
  change (labels (set_dissassembly f d)) with (labels f).
  unfold labels. destruct (m_labels f !! a) as [s|] eqn:E.
  - rewrite bool_decide_eq_true_2 by eauto. simpl.
    unfold set_dissassembly, set_labels. simpl. by rewrite append_assoc.
  - rewrite bool_decide_eq_false_2 by (intros [? ?]; done).
    by rewrite append_nil_r.
Qed.

Lemma emit_int_text (a : Z) (f : Function) (d : string) :
  emit_int a (set_dissassembly f d)
  = set_dissassembly f (d +:+ int_line (labels f) a).
Proof.
  unfold emit_int, int_line, map_subscript. simpl.
  change (labels (set_dissassembly f d)) with (labels f).
  unfold labels. destruct (m_labels f !! a) as [s|] eqn:E.
  - rewrite bool_decide_eq_true_2 by eauto. simpl.
    unfold set_dissassembly, set_labels. simpl. by rewrite !append_assoc.
  - rewrite bool_decide_eq_false_2 by (intros [? ?]; done).
    by rewrite append_nil_r.
Qed.

(** The inner loop of pass 2 appends table lines, the same ones whatever
    text is already there, and touches nothing else of the function. *)
Lemma pass2_jump_table_appends (fuel : nat) (in_jump_table : bool)
    (next_int : Z) (f : Function) (o r : Z) :
  ∃ table s o' r',
    Forall (table_line (labels f)) table
    ∧ ∀ d, pass2_jump_table fuel in_jump_table next_int (frame_of f d o r)
           = (s, frame_of f (d +:+ concat_text table) o' r').
Proof.
  revert in_jump_table next_int o r.
  induction fuel as [|fuel IH]; intros b n o r.
  { exists [], OutOfFuel, o, r. split; [done|]. intros d. simpl.
    by rewrite append_nil_r. }
  simpl.
  change (in_function (set_dissassembly f ?d) n) with (in_function f n).
  destruct (in_function f n) eqn:Hn.
  2:{ exists [], Finished, o, r. split; [done|]. intros d.
      by rewrite append_nil_r. }
  destruct (label_line_table (labels f) r) as (t1 & Ht1 & Hl1).
  destruct (int_line_table (labels f) n) as (t2 & Ht2 & Hl2).
  set (pre := if b then [] else t1).
  assert (Forall (table_line (labels f)) pre) as Hpre
    by (subst pre; destruct b; auto).
  assert (∀ d, emit_int n (if b then set_dissassembly f d
                           else emit_label r (set_dissassembly f d))
               = set_dissassembly f (d +:+ concat_text (pre ++ t2))) as Hemit.
  { intros d. subst pre. rewrite concat_text_app, <- Hl2.
    destruct b.
    - rewrite emit_int_text. unfold concat_text at 1. simpl. done.
    - rewrite emit_label_text, emit_int_text, <- Hl1.
      by rewrite append_assoc. }
  set (o1 := wrap64 (o + 4)). set (r1 := wrap64 (r + 4)).
  assert (∀ d, advance 4 (with_this (set_dissassembly f d) (frame_of f d o r))
               = frame_of f d o1 r1) as Hadv by done.
  destruct (get_le32 (section_pointer (frame_of f EmptyString o1 r1)))
    as [n'|] eqn:Hw.
  - destruct (IH true n' o1 r1) as (t3 & s & o' & r' & Ht3 & Hrun).
    exists ((pre ++ t2) ++ t3), s, o', r'. split.
    { apply Forall_app. split; [apply Forall_app|]; auto. }
    intros d. simpl. rewrite Hemit.
    change (advance 4 (with_this ?g (frame_of f d o r)))
      with (frame_of g (m_dissassembly g) o1 r1).
    simpl.
    change (section_pointer (frame_of ?g ?x o1 r1))
      with (section_pointer (frame_of f EmptyString o1 r1)).
    rewrite Hw.
    change (frame_of (set_dissassembly f ?x) ?y o1 r1)
      with (frame_of f y o1 r1).
    rewrite Hrun. by rewrite (concat_text_app (pre ++ t2) t3), append_assoc.
  - exists (pre ++ t2), Undefined, o1, r1. split.
    { apply Forall_app. auto. }
    intros d. simpl. rewrite Hemit.
    change (advance 4 (with_this ?g (frame_of f d o r)))
      with (frame_of g (m_dissassembly g) o1 r1).
    simpl.
    change (section_pointer (frame_of ?g ?x o1 r1))
      with (section_pointer (frame_of f EmptyString o1 r1)).
    by rewrite Hw.
Qed.

(** One turn of pass 2 appends the block of its instruction. *)
Lemma pass2_body_appends (instruction : ZydisDisassembledInstruction)
    (f : Function) (o r : Z) :
  ∃ table s o' r',
    Forall (table_line (labels f)) table
    ∧ ∀ d, pass2_body instruction (frame_of f d o r)
           = (s, frame_of f
                   (d +:+ label_line (labels f) r +:+ "    "
                    +:+ insn_text instruction +:+ LF +:+ concat_text table)
                   o' r').
Proof.
  unfold pass2_body.
  set (len := info_length (insn_info instruction)).
  set (o1 := wrap64 (o + len)). set (r1 := wrap64 (r + len)).
  assert (∀ d, advance len
                 (with_this
                    (set_dissassembly (emit_label r (set_dissassembly f d))
                       (((m_dissassembly (emit_label r (set_dissassembly f d))
                          +:+ "    ") +:+ insn_text instruction) +:+ LF))
                    (frame_of f d o r))
               = frame_of f (d +:+ label_line (labels f) r +:+ "    "
                             +:+ insn_text instruction +:+ LF) o1 r1) as Hadv.
  { intros d. rewrite emit_label_text. unfold advance, with_this, frame_of.
    simpl. by rewrite !append_assoc. }
  destruct (nop_or_jmp (info_mnemonic (insn_info instruction))).
  2:{ exists [], Finished, o1, r1. split; [done|]. intros d. cbv zeta.
      change (runtime_address (frame_of f d o r)) with r.
      change (this (frame_of f d o r)) with (set_dissassembly f d).
      rewrite Hadv. unfold concat_text. simpl. by rewrite append_nil_r. }
  destruct (get_le32 (section_pointer (frame_of f EmptyString o1 r1)))
    as [n|] eqn:Hw.
  - destruct (pass2_jump_table_appends
                (table_fuel (frame_of f EmptyString o1 r1)) false n f o1 r1)
      as (table & s & o' & r' & Ht & Hrun).
    exists table, s, o', r'. split; [done|]. intros d. cbv zeta.
    change (runtime_address (frame_of f d o r)) with r.
    change (this (frame_of f d o r)) with (set_dissassembly f d).
    rewrite Hadv.
    change (section_pointer (frame_of f ?x o1 r1))
      with (section_pointer (frame_of f EmptyString o1 r1)).
    rewrite Hw.
    change (table_fuel (frame_of f ?x o1 r1))
      with (table_fuel (frame_of f EmptyString o1 r1)).
    rewrite Hrun. by rewrite !append_assoc.
  - exists [], Undefined, o1, r1. split; [done|]. intros d. cbv zeta.
    change (runtime_address (frame_of f d o r)) with r.
    change (this (frame_of f d o r)) with (set_dissassembly f d).
    rewrite Hadv.
    change (section_pointer (frame_of f ?x o1 r1))
      with (section_pointer (frame_of f EmptyString o1 r1)).
    rewrite Hw. unfold concat_text. simpl. by rewrite append_nil_r.
Qed.

(** The decoder and the formatter hooks do not read the text. *)
Lemma UnasmDisassembleCustom_text (mode : ZydisMachineMode) (r : Z)
    (buffer : list Z) (len : Z) (f : Function) (d : string) :
  UnasmDisassembleCustom mode r buffer len (set_dissassembly f d)
  = UnasmDisassembleCustom mode r buffer len f.
Proof. reflexivity. Qed.

(** Pass 2 appends a text that does not depend on the text already there,
    and leaves the rest of the function as it is. *)
Lemma pass2_appends (fuel : nat) (end_offset : Z) (f : Function) (o r : Z) :
  ∃ T s o' r',
    ∀ d, pass2 fuel end_offset (frame_of f d o r)
         = (s, frame_of f (d +:+ T) o' r').
Proof.
  revert o r. induction fuel as [|fuel IH]; intros o r.
  { exists EmptyString, OutOfFuel, o, r. intros d. simpl.
    by rewrite append_nil_r. }
  simpl.
  change (section_pointer (frame_of f ?x o r))
    with (section_pointer (frame_of f EmptyString o r)).
  destruct (UnasmDisassembleCustom ZYDIS_MACHINE_MODE_LEGACY_32 r
              (section_pointer (frame_of f EmptyString o r)) 96 f)
    as [instruction|] eqn:Hd.
  2:{ exists EmptyString, Finished, o, r. intros d.
      rewrite UnasmDisassembleCustom_text, Hd. by rewrite append_nil_r. }
  destruct (o <=? end_offset) eqn:Ho.
  2:{ exists EmptyString, Finished, o, r. intros d.
      rewrite UnasmDisassembleCustom_text, Hd. by rewrite append_nil_r. }
  destruct (pass2_body_appends instruction f o r)
    as (table & s1 & o1 & r1 & _ & Hbody).
  destruct (IH o1 r1) as (T & s & o' & r' & Hrun).
  destruct s1.
  - eexists _, s, o', r'. intros d.
    rewrite UnasmDisassembleCustom_text, Hd, Hbody, Hrun.
    by rewrite !append_assoc.
  - eexists _, Undefined, o1, r1. intros d.
    by rewrite UnasmDisassembleCustom_text, Hd, Hbody.
  - eexists _, OutOfFuel, o1, r1. intros d.
    by rewrite UnasmDisassembleCustom_text, Hd, Hbody.
Qed.

(** C10.  Pass 2 never modifies the label table: after it the table is the
    one it started with, which pass 1 produced, and the text is the text it
    started with followed by what the pass wrote. *)
Theorem pass2_keeps_labels (fuel : nat) (end_offset : Z) (fr : Frame) :
  labels (this (pass2 fuel end_offset fr).2) = labels (this fr)
  ∧ same_layout (this fr) (this (pass2 fuel end_offset fr).2)
  ∧ ∃ T, m_dissassembly (this (pass2 fuel end_offset fr).2)
         = m_dissassembly (this fr) +:+ T.
Proof.
  destruct (pass2_appends fuel end_offset (this fr) (offset fr)
              (runtime_address fr)) as (T & s & o' & r' & Hrun).
  specialize (Hrun (m_dissassembly (this fr))).
  rewrite <- frame_of_eq in Hrun. rewrite Hrun. simpl.
  split; [done|]. split; [by repeat split|]. by exists T.
Qed.

End Pass2.

(** ** The whole run *)

Section Disassemble.

Context `{!Zydis}.

Lemma set_labels_id (f : Function) : set_labels f (labels f) = f.
Proof. by destruct f. Qed.

Lemma with_this_id (fr : Frame) : with_this (this fr) fr = fr.
Proof. by destruct fr. Qed.

Lemma section_pointer_layout (fr : Frame) (g : Function) :
  same_layout (this fr) g → section_pointer (with_this g fr) = section_pointer fr.
Proof.
  intros (He & Hs & _ & _). unfold section_pointer. simpl. by rewrite He, Hs.
Qed.

Lemma table_fuel_layout (fr : Frame) (g : Function) :
  same_layout (this fr) g → table_fuel (with_this g fr) = table_fuel fr.
Proof.
  intros (He & Hs & _ & _). unfold table_fuel. simpl. by rewrite He, Hs.
Qed.

Lemma insert_label_saturated (m m' : gmap Z string) (a : Z) :
  insert_label a m ⊆ m' → insert_label a m' = m'.
Proof.
  intros Hsub. apply insert_label_present.
  destruct (insert_label_lookup m a) as [s Hs].
  exists s. by eapply lookup_weaken.
Qed.

(** On a label table that has all the labels that the loop makes, the inner
    loop of pass 1 takes the same way and changes nothing. *)
Lemma pass1_jump_table_saturated (fuel : nat) (in_jump_table : bool)
    (next_int : Z) (fr : Frame) (g : Function) :
  same_layout (this fr) g →
  labels (this (pass1_jump_table fuel in_jump_table next_int fr).2)
    ⊆ labels g →
  pass1_jump_table fuel in_jump_table next_int (with_this g fr)
  = ((pass1_jump_table fuel in_jump_table next_int fr).1,
     with_this g (pass1_jump_table fuel in_jump_table next_int fr).2).
Proof.
  revert in_jump_table next_int fr.
  induction fuel as [|fuel IH]; intros b n fr Hlay Hsub; [done|].
  simpl in *.
  change (in_function (this (with_this g fr)) n) with (in_function g n).
  rewrite <- (in_function_layout _ _ n Hlay).
  destruct (in_function (this fr) n) eqn:Hn; [|done].
  set (l1 := if b then labels (this fr) else _) in *.
  set (fr' := advance 4 (with_this (set_labels (this fr) (insert_label n l1)) fr))
    in *.
  assert (insert_label n l1 ⊆ labels g) as Hl2.
  { destruct (get_le32 (section_pointer fr')) as [n'|].
    - etrans; [|exact Hsub].
      destruct (pass1_jump_table_grown fuel true n' fr') as (_ & _ & Hg & _).
      exact Hg.
    - exact Hsub. }
  assert (l1 ⊆ labels g) as Hl1.
  { etrans; [apply insert_label_subseteq | exact Hl2]. }
  assert ((if b then labels g
           else if in_function g (runtime_address fr)
                then insert_label (runtime_address fr) (labels g)
                else labels g) = labels g) as Hg1.
  { destruct b; [done|].
    rewrite <- (in_function_layout _ _ (runtime_address fr) Hlay).
    subst l1. simpl in Hl1.
    destruct (in_function (this fr) (runtime_address fr)); [|done].
    by eapply insert_label_saturated. }
  change (labels (this (with_this g fr))) with (labels g).
  change (runtime_address (with_this g fr)) with (runtime_address fr).
  change (this (with_this g fr)) with g.
  rewrite Hg1, (insert_label_saturated _ _ _ Hl2), set_labels_id.
  change (advance 4 (with_this g (with_this g fr))) with (with_this g fr').
  assert (same_layout (this fr') g) as Hlay' by exact Hlay.
  rewrite (section_pointer_layout fr' g Hlay').
  destruct (get_le32 (section_pointer fr')) as [n'|]; [|done].
  by apply IH.
Qed.

Lemma pass1_body_saturated (instruction : ZydisDisassembledInstruction)
    (fr : Frame) (g : Function) :
  same_layout (this fr) g →
  labels (this (pass1_body instruction fr).2) ⊆ labels g →
  pass1_body instruction (with_this g fr)
  = ((pass1_body instruction fr).1,
     with_this g (pass1_body instruction fr).2).
Proof.
  intros Hlay Hsub. unfold pass1_body in *.
  change (labels (this (with_this g fr))) with (labels g).
  change (runtime_address (with_this g fr)) with (runtime_address fr).
  change (this (with_this g fr)) with g.
  set (info := insn_info instruction) in *.
  destruct (info_raw_imm_is_relative info).
  - destruct (ZydisCalcAbsoluteAddress _ _ _) as [a|]; [|done].
    rewrite <- (in_function_layout _ _ a Hlay).
    destruct (in_function (this fr) a) eqn:Ha.
    + set (fr1 := advance (info_length info)
                    (with_this (set_labels (this fr)
                                  (insert_label a (labels (this fr)))) fr)) in *.
      assert (insert_label a (labels (this fr)) ⊆ labels g) as Hl.
      { destruct (nop_or_jmp _); [|exact Hsub].
        destruct (get_le32 (section_pointer fr1)) as [n|]; [|exact Hsub].
        etrans; [|exact Hsub].
        destruct (pass1_jump_table_grown (table_fuel fr1) false n fr1)
          as (_ & _ & Hg & _). exact Hg. }
      rewrite (insert_label_saturated _ _ _ Hl), set_labels_id.
      change (advance (info_length info) (with_this g (with_this g fr)))
        with (with_this g fr1).
      assert (same_layout (this fr1) g) as Hlay1 by exact Hlay.
      rewrite (section_pointer_layout fr1 g Hlay1),
        (table_fuel_layout fr1 g Hlay1).
      destruct (nop_or_jmp _); [|done].
      destruct (get_le32 (section_pointer fr1)) as [n|]; [|done].
      by apply pass1_jump_table_saturated.
    + set (fr1 := advance (info_length info)
                    (with_this (set_labels (this fr) (labels (this fr))) fr))
        in *.
      rewrite set_labels_id.
      change (advance (info_length info) (with_this g (with_this g fr)))
        with (with_this g fr1).
      assert (same_layout (this fr1) g) as Hlay1 by exact Hlay.
      rewrite (section_pointer_layout fr1 g Hlay1),
        (table_fuel_layout fr1 g Hlay1).
      destruct (nop_or_jmp _); [|done].
      destruct (get_le32 (section_pointer fr1)) as [n|]; [|done].
      by apply pass1_jump_table_saturated.
  - set (fr1 := advance (info_length info)
                  (with_this (set_labels (this fr) (labels (this fr))) fr))
      in *.
    rewrite set_labels_id.
    change (advance (info_length info) (with_this g (with_this g fr)))
      with (with_this g fr1).
    assert (same_layout (this fr1) g) as Hlay1 by exact Hlay.
    rewrite (section_pointer_layout fr1 g Hlay1),
      (table_fuel_layout fr1 g Hlay1).
    destruct (nop_or_jmp _); [|done].
    destruct (get_le32 (section_pointer fr1)) as [n|]; [|done].
    by apply pass1_jump_table_saturated.
Qed.

Lemma pass1_saturated (fuel : nat) (end_offset : Z) (fr : Frame)
    (g : Function) :
  same_layout (this fr) g →
  labels (this (pass1 fuel end_offset fr).2) ⊆ labels g →
  pass1 fuel end_offset (with_this g fr)
  = ((pass1 fuel end_offset fr).1, with_this g (pass1 fuel end_offset fr).2).
Proof.
  revert fr. induction fuel as [|fuel IH]; intros fr Hlay Hsub; [done|].
  simpl in *.
  rewrite (section_pointer_layout fr g Hlay).
  destruct (UnasmDisassembleNoFormat _ _ _ _) as [instruction|]; [|done].
  destruct (offset fr <=? end_offset); [|done].
  pose proof (pass1_body_grown instruction fr) as (Hlay1 & _ & _ & _).
  pose proof (pass1_body_saturated instruction fr g Hlay) as Hbody.
  destruct (pass1_body instruction fr) as [s1 fr1] eqn:Hb.
  simpl in Hlay1, Hbody.
  assert (labels (this fr1) ⊆ labels g) as Hl1.
  { destruct s1; try exact Hsub.
    etrans; [|exact Hsub].
    destruct (pass1_grown fuel end_offset fr1) as (_ & _ & Hg & _).
    exact Hg. }
  rewrite (Hbody Hl1).
  destruct s1; try done.
  apply IH; [|done].
  eapply same_layout_trans; [|exact Hlay]. by apply same_layout_sym.
Qed.

(** C7.  For a section of size zero [disassemble] returns at once, whatever
    the fuel, and leaves the function as it is: no text, no label. *)
Theorem zero_size_section_no_op (fuel : nat) (func : Function) :
  Executable.section_size (m_executable func) (m_section func) = 0 →
  disassemble fuel func = (Finished, func)
  ∧ m_dissassembly (disassemble fuel func).2 = m_dissassembly func
  ∧ m_labels (disassemble fuel func).2 = m_labels func.
Proof.
  intros Hz. unfold disassemble. rewrite Hz. simpl. done.
Qed.

(** C8 (as amended).  A second run on the same function object appends to
    the text the very bytes that the first run appended, ends as the first
    run ended and leaves the label table as the first run left it. *)
Theorem disassemble_twice (fuel : nat) (func : Function) :
  ∃ T,
    m_dissassembly (disassemble fuel func).2 = m_dissassembly func +:+ T
    ∧ m_dissassembly (disassemble fuel (disassemble fuel func).2).2
      = (m_dissassembly func +:+ T) +:+ T
    ∧ m_labels (disassemble fuel (disassemble fuel func).2).2
      = m_labels (disassemble fuel func).2
    ∧ (disassemble fuel (disassemble fuel func).2).1
      = (disassemble fuel func).1.
Proof.
  destruct (Executable.section_size (m_executable func) (m_section func) =? 0)
    eqn:Hz.
  { assert (disassemble fuel func = (Finished, func)) as ->.
    { unfold disassemble. by rewrite Hz. }
    simpl.
    assert (disassemble fuel func = (Finished, func)) as ->.
    { unfold disassemble. by rewrite Hz. }
    exists EmptyString. simpl. by rewrite !append_nil_r. }
  set (o0 := wrap64 (m_startAddress func
                     - Executable.section_address (m_executable func)
                         (m_section func))).
  set (eo := wrap64 (m_endAddress func
                     - Executable.section_address (m_executable func)
                         (m_section func))).
  set (fr0 := {| this := func; offset := o0;
                 runtime_address := m_startAddress func |}).
  (* a run on a function with the layout of [func] *)
  assert (∀ g, same_layout func g →
            disassemble fuel g
            = match pass1 fuel eo (with_this g fr0) with
              | (Finished, fr) =>
                  let r := pass2 fuel eo
                             {| this := this fr; offset := o0;
                                runtime_address := m_startAddress func |} in
                  (r.1, this r.2)
              | (stopped, fr) => (stopped, this fr)
              end) as Hagain.
  { intros g (He & Hs & Hb & Hn). unfold disassemble.
    rewrite <- He, <- Hs, <- Hb, <- Hn, Hz. done. }
  pose proof (pass1_grown fuel eo fr0) as Hg.
  pose proof (pass1_saturated fuel eo fr0) as Hsat.
  rewrite (Hagain func (same_layout_refl func)).
  change (with_this func fr0) with fr0.
  destruct (pass1 fuel eo fr0) as [s1 fr1] eqn:H1.
  simpl in Hg, Hsat.
  destruct Hg as (Hlay & Htext & _ & _).
  destruct (pass2_appends fuel eo (this fr1) o0 (m_startAddress func))
    as (T & s2 & o' & r' & Hrun).
  destruct s1.
  - (* pass 1 finished: pass 2 ran *)
    pose proof (Hrun (m_dissassembly (this fr1))) as Hrun1.
    assert ({| this := this fr1; offset := o0;
               runtime_address := m_startAddress func |}
            = frame_of (this fr1) (m_dissassembly (this fr1)) o0
                (m_startAddress func)) as Hfr.
    { unfold frame_of. by destruct (this fr1). }
    cbv zeta. rewrite Hfr, Hrun1. simpl.
    set (g := set_dissassembly (this fr1) (m_dissassembly (this fr1) +:+ T)).
    assert (same_layout func g) as Hlayg.
    { destruct Hlay as (? & ? & ? & ?). by repeat split. }
    rewrite (Hagain g Hlayg).
    rewrite (Hsat g Hlayg) by done. simpl.
    change {| this := g; offset := o0;
              runtime_address := m_startAddress func |}
      with (frame_of (this fr1) (m_dissassembly (this fr1) +:+ T) o0
              (m_startAddress func)).
    rewrite Hrun. simpl. exists T. by rewrite Htext.
  - (* pass 1 stopped on an undefined read *)
    simpl. exists EmptyString.
    rewrite (Hagain (this fr1) Hlay).
    rewrite (Hsat (this fr1) Hlay) by done. simpl.
    by rewrite Htext, !append_nil_r.
  - simpl. exists EmptyString.
    rewrite (Hagain (this fr1) Hlay).
    rewrite (Hsat (this fr1) Hlay) by done. simpl.
    by rewrite Htext, !append_nil_r.
Qed.

End Disassemble.

(** ** The text that pass 2 leaves when the decoder fails *)

Section Truncation.

Context `{!Zydis}.

Lemma UnasmDisassembleCustom_address (mode : ZydisMachineMode) (r : Z)
    (buffer : list Z) (len : Z) (f : Function)
    (instruction : ZydisDisassembledInstruction) :
  UnasmDisassembleCustom mode r buffer len f = Some instruction →
  insn_runtime_address instruction = r.
Proof.
  unfold UnasmDisassembleCustom.
  destruct (stack_width_of mode) as [w|]; [|done]. simpl.
  destruct (ZydisDecoderDecode mode w buffer len) as [decoded|]; [|done].
  simpl. destruct (ZydisFormatterFormatInstruction _ _ _ _); [|done].
  simpl. by intros [= <-].
Qed.

(** One full turn of pass 2 keeps the labels and appends the block of its
    instruction. *)
Lemma pass2_body_block (instruction : ZydisDisassembledInstruction)
    (fr fr1 : Frame) :
  insn_runtime_address instruction = runtime_address fr →
  pass2_body instruction fr = (Finished, fr1) →
  labels (this fr1) = labels (this fr)
  ∧ ∃ block, instruction_block (labels (this fr)) instruction block
             ∧ m_dissassembly (this fr1)
               = m_dissassembly (this fr) +:+ block.
Proof.
  intros Hr Hb.
  destruct (pass2_body_appends instruction (this fr) (offset fr)
              (runtime_address fr)) as (table & s & o' & r' & Ht & Hrun).
  specialize (Hrun (m_dissassembly (this fr))).
  rewrite <- frame_of_eq, Hb in Hrun. injection Hrun as _ ->.
  simpl. split; [done|].
  eexists. split; [|reflexivity].
  exists table. split; [done|]. by rewrite Hr.
Qed.





End Truncation.

(** ** A jump table after a [jmp] *)

Section JumpTable.

Context `{!Zydis}.

Lemma lookup_insert_label (m : gmap Z string) (a b : Z) :
  insert_label a m !! b
  = match m !! b with
    | Some s => Some s
    | None => if decide (a = b) then Some (label_name a) else None
    end.
Proof.
  unfold insert_label. destruct (m !! a) as [s|] eqn:Ea.
  - destruct (m !! b) as [s'|] eqn:Eb; [done|].
    destruct (decide (a = b)) as [->|]; [congruence | done].
  - destruct (decide (a = b)) as [->|Hne].
    + by rewrite lookup_insert_eq, Ea.
    + rewrite lookup_insert_ne by done. by destruct (m !! b).
Qed.

(** A label for an address that the table scan labels anyway makes no
    difference to the table the scan leaves. *)
Lemma insert_label_absorbed (m : gmap Z string) (t a b c d : Z) :
  t ∈ [a; b; c; d] →
  insert_label d (insert_label c (insert_label b
    (insert_label a (insert_label t m))))
  = insert_label d (insert_label c (insert_label b (insert_label a m))).
Proof.
  intros Ht. apply map_eq. intros x. rewrite !lookup_insert_label.
  destruct (m !! x) as [s|]; [done|].
  repeat rewrite elem_of_cons in Ht. rewrite elem_of_nil in Ht.
  destruct Ht as [-> | [-> | [-> | [-> | []]]]];
    repeat case_decide; subst; congruence.
Qed.

Lemma insert_label_fresh (m : gmap Z string) (a : Z) :
  m !! a = None → insert_label a m = <[a := label_name a]> m.
Proof. intros Hm. unfold insert_label. by rewrite Hm. Qed.

Lemma get_le32_length (data : list Z) (n : nat) (w : Z) :
  get_le32 (drop n data) = Some w → (4 ≤ length data)%nat.
Proof.
  intros Hw. assert (4 ≤ length (drop n data))%nat as Hl.
  { destruct (drop n data) as [|? [|? [|? [|? ?]]]]; simpl in *;
      try discriminate; lia. }
  rewrite length_drop in Hl. lia.
Qed.

Lemma UnasmDisassembleNoFormat_legacy_32 (r : Z) (buffer : list Z) (len : Z) :
  UnasmDisassembleNoFormat ZYDIS_MACHINE_MODE_LEGACY_32 r buffer len
  = (λ decoded,
       {| insn_runtime_address := r; insn_info := decoded.1;
          insn_operands := decoded.2; insn_text := EmptyString |})
    <$> ZydisDecoderDecode ZYDIS_MACHINE_MODE_LEGACY_32 ZYDIS_STACK_WIDTH_32
          buffer len.
Proof.
  unfold UnasmDisassembleNoFormat. simpl.
  by destruct (ZydisDecoderDecode _ _ _ _).
Qed.

Lemma UnasmDisassembleCustom_decoded (r : Z) (buffer : list Z) (len : Z)
    (f : Function) (instruction : ZydisDisassembledInstruction) :
  UnasmDisassembleCustom ZYDIS_MACHINE_MODE_LEGACY_32 r buffer len f
  = Some instruction →
  ∃ operands,
    ZydisDecoderDecode ZYDIS_MACHINE_MODE_LEGACY_32 ZYDIS_STACK_WIDTH_32
      buffer len = Some (insn_info instruction, operands).
Proof.
  unfold UnasmDisassembleCustom. simpl.
  destruct (ZydisDecoderDecode _ _ _ _) as [[info operands]|]; [|done].
  simpl. destruct (ZydisFormatterFormatInstruction _ _ _ _); [|done].
  simpl. intros [= <-]. by exists operands.
Qed.

Lemma UnasmDisassembleCustom_fails (r : Z) (buffer : list Z) (len : Z)
    (f : Function) :
  ZydisDecoderDecode ZYDIS_MACHINE_MODE_LEGACY_32 ZYDIS_STACK_WIDTH_32
    buffer len = None →
  UnasmDisassembleCustom ZYDIS_MACHINE_MODE_LEGACY_32 r buffer len f = None.
Proof. intros Hd. unfold UnasmDisassembleCustom. simpl. by rewrite Hd. Qed.

Lemma pass1_unfold (fuel : nat) (end_offset : Z) (fr : Frame) :
  pass1 (S fuel) end_offset fr
  = match UnasmDisassembleNoFormat ZYDIS_MACHINE_MODE_LEGACY_32
            (runtime_address fr) (section_pointer fr) 96 with
    | Some instruction =>
        if offset fr <=? end_offset then
          match pass1_body instruction fr with
          | (Finished, fr') => pass1 fuel end_offset fr'
          | stopped => stopped
          end
        else (Finished, fr)
    | None => (Finished, fr)
    end.
Proof. reflexivity. Qed.

Lemma pass2_unfold (fuel : nat) (end_offset : Z) (fr : Frame) :
  pass2 (S fuel) end_offset fr
  = match UnasmDisassembleCustom ZYDIS_MACHINE_MODE_LEGACY_32
            (runtime_address fr) (section_pointer fr) 96 (this fr) with
    | Some instruction =>
        if offset fr <=? end_offset then
          match pass2_body instruction fr with
          | (Finished, fr') => pass2 fuel end_offset fr'
          | stopped => stopped
          end
        else (Finished, fr)
    | None => (Finished, fr)
    end.
Proof. reflexivity. Qed.

Lemma pass1_jump_table_in (fuel : nat) (b : bool) (n n' : Z) (fr : Frame) :
  in_function (this fr) n = true →
  get_le32 (section_pointer (advance 4 fr)) = Some n' →
  pass1_jump_table (S fuel) b n fr
  = pass1_jump_table fuel true n'
      (advance 4
         (with_this
            (set_labels (this fr)
               (insert_label n
                  (if b then labels (this fr)
                   else if in_function (this fr) (runtime_address fr)
                        then insert_label (runtime_address fr)
                               (labels (this fr))
                        else labels (this fr)))) fr)).
Proof.
  intros Hin Hw. simpl. rewrite Hin.
  match goal with
  | |- context [get_le32 (section_pointer ?x)] =>
      change (section_pointer x) with (section_pointer (advance 4 fr))
  end.
  by rewrite Hw.
Qed.

Lemma pass1_jump_table_out (fuel : nat) (b : bool) (n : Z) (fr : Frame) :
  in_function (this fr) n = false →
  pass1_jump_table (S fuel) b n fr = (Finished, fr).
Proof. intros Hin. simpl. by rewrite Hin. Qed.

Lemma pass2_jump_table_in (fuel : nat) (b : bool) (n n' : Z) (fr : Frame) :
  in_function (this fr) n = true →
  get_le32 (section_pointer (advance 4 fr)) = Some n' →
  pass2_jump_table (S fuel) b n fr
  = pass2_jump_table fuel true n'
      (advance 4
         (with_this
            (emit_int n
               (if b then this fr
                else emit_label (runtime_address fr) (this fr))) fr)).
Proof.
  intros Hin Hw. simpl. rewrite Hin.
  assert (∀ g, same_layout (this fr) g →
            section_pointer (advance 4 (with_this g fr))
            = section_pointer (advance 4 fr)) as Hsp.
  { intros g (He & Hs & _ & _). unfold section_pointer. simpl.
    by rewrite He, Hs. }
  rewrite Hsp, Hw; [done|].
  assert (∀ a g, same_layout (this fr) g → same_layout (this fr) (emit_int a g))
    as Hint.
  { intros a g Hg. unfold emit_int. by destruct (bool_decide _). }
  apply Hint. destruct b; [by repeat split|].
  unfold emit_label. destruct (bool_decide _); by repeat split.
Qed.

Lemma pass2_jump_table_out (fuel : nat) (b : bool) (n : Z) (fr : Frame) :
  in_function (this fr) n = false →
  pass2_jump_table (S fuel) b n fr = (Finished, fr).
Proof. intros Hin. simpl. by rewrite Hin. Qed.

(** C2 (as amended).  The loop is at a [jmp] within the range; its relative
    target, if it has one, is computed and lies outside the function, or has
    a label already, or is one of the four addresses that follow; after the
    [jmp] come four words, of which the first three are addresses of the
    function, different from one another and from the anchor, the address
    after the [jmp], and the fourth is not; the anchor is an address of the
    function; none of the four addresses has a label; and the loop ends at
    the fourth word, whose bytes are not decoded or lie past the end.  Then
    pass 1, from the [jmp], adds exactly four labels, for the anchor and for
    the three words, and stops following the table at the fourth word.
    Pass 2, from the [jmp] and on the table that pass 1 left, either does
    not get the [jmp] decoded and formatted and ends there with nothing
    written, or writes the line of the [jmp], the label of the anchor and
    exactly three [.int] lines, and ends at the fourth word. *)
Theorem jump_table_scenario (fuel : nat) (end_offset : Z) (fr : Frame)
    (info : ZydisDecodedInstruction) (operands : list ZydisDecodedOperand)
    (w1 w2 w3 w4 : Z) :
  let after := advance (info_length info) fr in
  let anchor := runtime_address after in
  let stop := advance 4 (advance 4 (advance 4 after)) in
  let table :=
    <[w3 := label_name w3]>
      (<[w2 := label_name w2]>
         (<[w1 := label_name w1]>
            (<[anchor := label_name anchor]> (labels (this fr))))) in
  ZydisDecoderDecode ZYDIS_MACHINE_MODE_LEGACY_32 ZYDIS_STACK_WIDTH_32
    (section_pointer fr) 96 = Some (info, operands) →
  offset fr ≤ end_offset →
  info_mnemonic info = ZYDIS_MNEMONIC_JMP →
  info_raw_imm_is_relative info = false
  ∨ (∃ target,
       ZydisCalcAbsoluteAddress info (hd zero_operand operands)
         (runtime_address fr) = Some target
       ∧ (in_function (this fr) target = false
          ∨ is_Some (labels (this fr) !! target)
          ∨ target ∈ [anchor; w1; w2; w3])) →
  get_le32 (section_pointer after) = Some w1 →
  get_le32 (section_pointer (advance 4 after)) = Some w2 →
  get_le32 (section_pointer (advance 4 (advance 4 after))) = Some w3 →
  get_le32 (section_pointer stop) = Some w4 →
  in_function (this fr) w1 = true →
  in_function (this fr) w2 = true →
  in_function (this fr) w3 = true →
  in_function (this fr) w4 = false →
  in_function (this fr) anchor = true →
  NoDup [anchor; w1; w2; w3] →
  (∀ a, a ∈ [anchor; w1; w2; w3] → labels (this fr) !! a = None) →
  ZydisDecoderDecode ZYDIS_MACHINE_MODE_LEGACY_32 ZYDIS_STACK_WIDTH_32
    (section_pointer stop) 96 = None
  ∨ end_offset < offset stop →
  pass1 (S (S fuel)) end_offset fr
  = (Finished, with_this (set_labels (this fr) table) stop)
  ∧ size table = S (S (S (S (size (labels (this fr))))))
  ∧ (∀ instruction,
       UnasmDisassembleCustom ZYDIS_MACHINE_MODE_LEGACY_32 (runtime_address fr)
         (section_pointer fr) 96 (set_labels (this fr) table)
       = Some instruction →
       pass2 (S (S fuel)) end_offset (with_this (set_labels (this fr) table) fr)
       = (Finished,
          with_this
            (set_dissassembly (set_labels (this fr) table)
               (m_dissassembly (this fr)
                +:+ label_line table (runtime_address fr)
                +:+ "    " +:+ insn_text instruction +:+ LF
                +:+ label_name anchor +:+ COLON_LF
                +:+ "    .int " +:+ label_name w1 +:+ LF
                +:+ "    .int " +:+ label_name w2 +:+ LF
                +:+ "    .int " +:+ label_name w3 +:+ LF))
            stop))
  ∧ (UnasmDisassembleCustom ZYDIS_MACHINE_MODE_LEGACY_32 (runtime_address fr)
       (section_pointer fr) 96 (set_labels (this fr) table)
     = None →
     pass2 (S (S fuel)) end_offset (with_this (set_labels (this fr) table) fr)
     = (Finished, with_this (set_labels (this fr) table) fr)).
Proof.
  intros after anchor stop table Hd Ho Hjmp Hrel Hw1 Hw2 Hw3 Hw4
    Hi1 Hi2 Hi3 Hi4 Hia Hnd Hfresh Hstop.
  (* the four addresses are new and different *)
  apply NoDup_cons in Hnd as [Ha Hnd]. apply NoDup_cons in Hnd as [H1 Hnd].
  apply NoDup_cons in Hnd as [H2 _].
  repeat rewrite not_elem_of_cons in Ha.
  repeat rewrite not_elem_of_cons in H1.
  repeat rewrite not_elem_of_cons in H2.
  destruct Ha as (Na1 & Na2 & Na3 & _), H1 as (N12 & N13 & _), H2 as (N23 & _).
  assert (labels (this fr) !! anchor = None) as Fa.
  { apply Hfresh. apply list_elem_of_here. }
  assert (labels (this fr) !! w1 = None) as F1.
  { apply Hfresh. do 1 apply list_elem_of_further. apply list_elem_of_here. }
  assert (labels (this fr) !! w2 = None) as F2.
  { apply Hfresh. do 2 apply list_elem_of_further. apply list_elem_of_here. }
  assert (labels (this fr) !! w3 = None) as F3.
  { apply Hfresh. do 3 apply list_elem_of_further. apply list_elem_of_here. }
  clear Hfresh.
  (* the fuel of the inner loop *)
  assert (∃ m, table_fuel after = S (S (S (S m)))) as [m Hfuel].
  { unfold table_fuel. apply get_le32_length in Hw4.
    destruct (length _) as [|[|[|[|k]]]]; try lia. by exists (S k). }
  (* the label table after the four insertions *)
  assert (insert_label w3
            (insert_label w2
               (insert_label w1 (insert_label anchor (labels (this fr)))))
          = table) as Htable.
  { subst table.
    rewrite (insert_label_fresh (labels (this fr)) anchor Fa).
    rewrite (insert_label_fresh _ w1)
      by (by rewrite lookup_insert_ne).
    rewrite (insert_label_fresh _ w2)
      by (by rewrite !lookup_insert_ne).
    rewrite (insert_label_fresh _ w3)
      by (by rewrite !lookup_insert_ne).
    done. }
  assert (table !! anchor = Some (label_name anchor)) as Ta.
  { subst table. rewrite !lookup_insert_ne by done. apply lookup_insert_eq. }
  assert (table !! w1 = Some (label_name w1)) as T1.
  { subst table. rewrite !lookup_insert_ne by done. apply lookup_insert_eq. }
  assert (table !! w2 = Some (label_name w2)) as T2.
  { subst table. rewrite !lookup_insert_ne by done. apply lookup_insert_eq. }
  assert (table !! w3 = Some (label_name w3)) as T3.
  { subst table. apply lookup_insert_eq. }
  (* the inner loop of pass 1, on the labels [l] that the turn has when it
     comes to the table *)
  assert (∀ l,
            insert_label w3
              (insert_label w2 (insert_label w1 (insert_label anchor l)))
            = table →
            pass1_jump_table (table_fuel after) false w1
              (advance (info_length info)
                 (with_this (set_labels (this fr) l) fr))
            = (Finished, with_this (set_labels (this fr) table) stop))
    as Hscan1.
  { intros l Hl. rewrite Hfuel.
    set (after_l := advance (info_length info) _).
    rewrite (pass1_jump_table_in _ false w1 w2 after_l Hi1 Hw2).
    change (in_function (this after_l) (runtime_address after_l))
      with (in_function (this fr) anchor). rewrite Hia.
    erewrite (pass1_jump_table_in _ true w2 w3); [|exact Hi2|exact Hw3].
    erewrite (pass1_jump_table_in _ true w3 w4); [|exact Hi3|exact Hw4].
    erewrite (pass1_jump_table_out _ true w4); [|exact Hi4].
    rewrite <- Hl. reflexivity. }
  (* the labels after the branch target of the [jmp] *)
  assert (∃ l,
            (if info_raw_imm_is_relative info then
               match ZydisCalcAbsoluteAddress info (hd zero_operand operands)
                       (runtime_address fr) with
               | Some address =>
                   if in_function (this fr) address
                   then Some (insert_label address (labels (this fr)))
                   else Some (labels (this fr))
               | None => None
               end
             else Some (labels (this fr))) = Some l
            ∧ insert_label w3
                (insert_label w2 (insert_label w1 (insert_label anchor l)))
              = table) as (l & Hl & Hchain).
  { destruct Hrel as [-> | (target & -> & Htarget)]; [by eexists|].
    destruct (info_raw_imm_is_relative info); [|by eexists].
    destruct Htarget as [-> | [Hsome | Hfour]]; [by eexists | |].
    - rewrite (insert_label_present _ _ Hsome).
      destruct (in_function (this fr) target); by eexists.
    - assert (in_function (this fr) target = true) as ->.
      { repeat rewrite elem_of_cons in Hfour. rewrite elem_of_nil in Hfour.
        destruct Hfour as [-> | [-> | [-> | [-> | []]]]]; done. }
      eexists. split; [done|].
      by rewrite (insert_label_absorbed _ _ _ _ _ _ Hfour). }
  split; [|split; [|split]].
  - (* pass 1 *)
    rewrite pass1_unfold, UnasmDisassembleNoFormat_legacy_32, Hd.
    cbn [fmap option_fmap option_map]. apply Z.leb_le in Ho. rewrite Ho.
    unfold pass1_body. cbn [insn_info insn_operands fst snd].
    rewrite Hl, Hjmp. cbn [nop_or_jmp].
    change (section_pointer
              (advance (info_length info)
                 (with_this (set_labels (this fr) l) fr)))
      with (section_pointer after).
    change (table_fuel
              (advance (info_length info)
                 (with_this (set_labels (this fr) l) fr)))
      with (table_fuel after).
    rewrite Hw1, (Hscan1 l Hchain).
    rewrite pass1_unfold, UnasmDisassembleNoFormat_legacy_32.
    change (section_pointer (with_this (set_labels (this fr) table) stop))
      with (section_pointer stop).
    change (offset (with_this (set_labels (this fr) table) stop))
      with (offset stop).
    destruct Hstop as [Hnone | Hbeyond].
    + by rewrite Hnone.
    + destruct (ZydisDecoderDecode _ _ (section_pointer stop) _); [|done].
      cbn [fmap option_fmap option_map].
      by rewrite (proj2 (Z.leb_gt _ _) Hbeyond).
  - (* four new labels *)
    subst table.
    rewrite !map_size_insert_None; [done|..];
      by rewrite ?lookup_insert_ne.
  - (* pass 2 *)
    intros instruction Hc.
    destruct (UnasmDisassembleCustom_decoded _ _ _ _ _ Hc) as (ops & Hd').
    rewrite Hd in Hd'. injection Hd' as Hinfo _.
    set (g := set_labels (this fr) table) in *.
    set (d1 := m_dissassembly (this fr) +:+ label_line table (runtime_address fr)
               +:+ "    " +:+ insn_text instruction +:+ LF).
    (* the inner loop of pass 2 *)
    assert (pass2_jump_table (table_fuel after) false w1
              (frame_of g d1 (offset after) anchor)
            = (Finished,
               frame_of g
                 (d1 +:+ label_name anchor +:+ COLON_LF
                  +:+ "    .int " +:+ label_name w1 +:+ LF
                  +:+ "    .int " +:+ label_name w2 +:+ LF
                  +:+ "    .int " +:+ label_name w3 +:+ LF)
                 (offset stop) (runtime_address stop))) as Hscan2.
    { rewrite Hfuel.
      erewrite (pass2_jump_table_in _ false w1 w2); [|exact Hi1|exact Hw2].
      cbn [this frame_of runtime_address].
      rewrite emit_label_text, emit_int_text.
      erewrite (pass2_jump_table_in _ true w2 w3); [|exact Hi2|exact Hw3].
      cbn [this advance with_this]. rewrite emit_int_text.
      erewrite (pass2_jump_table_in _ true w3 w4); [|exact Hi3|exact Hw4].
      cbn [this advance with_this]. rewrite emit_int_text.
      erewrite (pass2_jump_table_out _ true w4); [|exact Hi4].
      unfold label_line, int_line.
      change (labels g) with table. rewrite Ta, T1, T2, T3.
      unfold frame_of, advance, with_this. cbn [this offset runtime_address].
      rewrite !append_assoc. reflexivity. }
    rewrite pass2_unfold.
    change (section_pointer (with_this g fr)) with (section_pointer fr).
    change (this (with_this g fr)) with g.
    change (runtime_address (with_this g fr)) with (runtime_address fr).
    rewrite Hc.
    change (offset (with_this g fr)) with (offset fr).
    apply Z.leb_le in Ho. rewrite Ho.
    unfold pass2_body. rewrite <- Hinfo, Hjmp. cbn [nop_or_jmp].
    assert (with_this g fr
            = frame_of g (m_dissassembly (this fr)) (offset fr)
                (runtime_address fr)) as Hfr.
    { unfold frame_of, with_this. f_equal. }
    rewrite Hfr. cbn [this frame_of runtime_address].
    rewrite emit_label_text. cbn [m_dissassembly set_dissassembly].
    change (labels g) with table.
    assert (∀ x, advance (info_length info)
                   (with_this x
                      (frame_of g (m_dissassembly (this fr)) (offset fr)
                         (runtime_address fr)))
                 = frame_of x (m_dissassembly x) (offset after) anchor) as Hadv.
    { intros x. unfold advance, with_this, frame_of. simpl. f_equal.
      by destruct x. }
    rewrite Hadv. cbn [m_dissassembly].
    match goal with
    | |- context [frame_of ?x ?d (offset after) anchor] =>
        change (frame_of x d (offset after) anchor)
          with (frame_of g d (offset after) anchor);
        replace d with d1 by (subst d1; by rewrite !append_assoc)
    end.
    change (section_pointer (frame_of g d1 (offset after) anchor))
      with (section_pointer after).
    change (table_fuel (frame_of g d1 (offset after) anchor))
      with (table_fuel after).
    rewrite Hw1, Hscan2, pass2_unfold.
    cbn [this frame_of runtime_address offset].
    change (section_pointer (frame_of g ?d (offset stop) (runtime_address stop)))
      with (section_pointer stop).
    assert (∀ x, (Finished : Status,
                  frame_of g (d1 +:+ x) (offset stop) (runtime_address stop))
                 = (Finished,
                    with_this
                      (set_dissassembly g
                         (m_dissassembly (this fr)
                          +:+ label_line table (runtime_address fr)
                          +:+ "    " +:+ insn_text instruction +:+ LF +:+ x))
                      stop)) as Hend.
    { intros x. subst d1. unfold with_this, frame_of.
      by rewrite !append_assoc. }
    destruct Hstop as [Hnone | Hbeyond].
    + rewrite (UnasmDisassembleCustom_fails _ _ _ _ Hnone). apply Hend.
    + rewrite (proj2 (Z.leb_gt _ _) Hbeyond).
      destruct (UnasmDisassembleCustom _ (runtime_address stop) _ _ _);
        apply Hend.
  - (* pass 2, when the [jmp] is not printed *)
    intros Hc. rewrite pass2_unfold.
    change (section_pointer (with_this ?g fr)) with (section_pointer fr).
    change (this (with_this ?g fr)) with g.
    change (runtime_address (with_this ?g fr)) with (runtime_address fr).
    by rewrite Hc.
Qed.

End JumpTable.

(** ** Termination

    Under the contract of the decoder, and for section data that fit into
    the address space, the cursor moves forward in every turn of every loop,
    so that fuel of the length of the section data is enough. *)

Section Termination.

Context `{!Zydis}.

Lemma get_le32_room (fr : Frame) (n : Z) :
  0 ≤ offset fr →
  get_le32 (section_pointer fr) = Some n →
  offset fr + 4 ≤ Z.of_nat (length (section_bytes (this fr))).
Proof.
  intros Ho Hw. unfold section_pointer in Hw. fold (section_bytes (this fr)) in Hw.
  assert (4 ≤ length (drop (Z.to_nat (offset fr)) (section_bytes (this fr))))%nat
    as Hl.
  { destruct (drop _ _) as [|? [|? [|? [|? ?]]]]; simpl in *;
      try discriminate; lia. }
  rewrite length_drop in Hl. lia.
Qed.

Lemma wrap64_small (z : Z) : 0 ≤ z < 2 ^ 64 → wrap64 z = z.
Proof. intros Hz. unfold wrap64. by apply Z.mod_small. Qed.

(** The inner loop of pass 1 moves the cursor forward, stays within the
    section data and does not use up its fuel. *)
Lemma pass1_jump_table_cursor (fuel : nat) (b : bool) (n : Z) (fr : Frame) :
  Z.of_nat (length (section_bytes (this fr))) < 2 ^ 64 →
  0 ≤ offset fr →
  get_le32 (section_pointer fr) = Some n →
  Z.of_nat (length (section_bytes (this fr))) < offset fr + 4 * Z.of_nat fuel →
  (pass1_jump_table fuel b n fr).1 ≠ OutOfFuel
  ∧ offset fr ≤ offset (pass1_jump_table fuel b n fr).2
    ≤ Z.of_nat (length (section_bytes (this fr))).
Proof.
  revert b n fr. induction fuel as [|fuel IH]; intros b n fr Hsize Ho Hw Hfuel.
  { pose proof (get_le32_room fr n Ho Hw). lia. }
  pose proof (get_le32_room fr n Ho Hw) as Hroom.
  simpl. destruct (in_function (this fr) n); [|simpl; split; [done | lia]].
  set (fr' := advance 4 _).
  assert (offset fr' = offset fr + 4) as Ho'.
  { subst fr'. simpl. apply wrap64_small. lia. }
  assert (section_bytes (this fr') = section_bytes (this fr)) as Hb by done.
  destruct (get_le32 (section_pointer fr')) as [n'|] eqn:Hw'.
  - destruct (IH true n' fr') as (Hs & Hlo & Hhi).
    + by rewrite Hb.
    + lia.
    + done.
    + rewrite Hb, Ho'. lia.
    + split; [done|]. rewrite Hb in Hhi. lia.
  - cbn [fst snd]. split; [done|]. rewrite Ho'. lia.
Qed.

Lemma pass2_jump_table_layout (fuel : nat) (b : bool) (n : Z) (fr : Frame) :
  same_layout (this fr) (this (pass2_jump_table fuel b n fr).2).
Proof.
  destruct (pass2_jump_table_appends fuel b n (this fr) (offset fr)
              (runtime_address fr)) as (t & s & o' & r' & _ & Hrun).
  specialize (Hrun (m_dissassembly (this fr))).
  rewrite <- frame_of_eq in Hrun. rewrite Hrun. by repeat split.
Qed.

Lemma pass2_jump_table_cursor (fuel : nat) (b : bool) (n : Z) (fr : Frame) :
  Z.of_nat (length (section_bytes (this fr))) < 2 ^ 64 →
  0 ≤ offset fr →
  get_le32 (section_pointer fr) = Some n →
  Z.of_nat (length (section_bytes (this fr))) < offset fr + 4 * Z.of_nat fuel →
  (pass2_jump_table fuel b n fr).1 ≠ OutOfFuel
  ∧ offset fr ≤ offset (pass2_jump_table fuel b n fr).2
    ≤ Z.of_nat (length (section_bytes (this fr))).
Proof.
  revert b n fr. induction fuel as [|fuel IH]; intros b n fr Hsize Ho Hw Hfuel.
  { pose proof (get_le32_room fr n Ho Hw). lia. }
  pose proof (get_le32_room fr n Ho Hw) as Hroom.
  simpl. destruct (in_function (this fr) n); [|simpl; split; [done | lia]].
  set (fr' := advance 4 _).
  assert (offset fr' = offset fr + 4) as Ho'.
  { subst fr'. simpl. apply wrap64_small. lia. }
  assert (section_bytes (this fr') = section_bytes (this fr)) as Hb.
  { subst fr'. unfold section_bytes. simpl.
    assert (∀ a g, same_layout (this fr) g →
              same_layout (this fr) (emit_int a g)) as Hint.
    { intros a g Hg. unfold emit_int. by destruct (bool_decide _). }
    destruct (Hint n (if b then this fr
                      else emit_label (runtime_address fr) (this fr)))
      as (He & Hs & _ & _).
    { destruct b; [by repeat split|].
      unfold emit_label. destruct (bool_decide _); by repeat split. }
    by rewrite <- He, <- Hs. }
  destruct (get_le32 (section_pointer fr')) as [n'|] eqn:Hw'.
  - destruct (IH true n' fr') as (Hs & Hlo & Hhi).
    + by rewrite Hb.
    + lia.
    + done.
    + rewrite Hb, Ho'. lia.
    + split; [done|]. rewrite Hb in Hhi. lia.
  - cbn [fst snd]. split; [done|]. rewrite Ho'. lia.
Qed.

Lemma section_bytes_layout (f g : Function) :
  same_layout f g → section_bytes g = section_bytes f.
Proof. intros (He & Hs & _ & _). unfold section_bytes. by rewrite He, Hs. Qed.

Lemma decoded_room (fr : Frame) (info : ZydisDecodedInstruction)
    (operands : list ZydisDecodedOperand) :
  decoder_bounded →
  0 ≤ offset fr →
  ZydisDecoderDecode ZYDIS_MACHINE_MODE_LEGACY_32 ZYDIS_STACK_WIDTH_32
    (section_pointer fr) 96 = Some (info, operands) →
  1 ≤ info_length info
  ∧ offset fr + info_length info ≤ Z.of_nat (length (section_bytes (this fr))).
Proof.
  intros Hdec Ho Hd. apply Hdec in Hd. unfold section_pointer in Hd.
  fold (section_bytes (this fr)) in Hd. rewrite length_drop in Hd. lia.
Qed.

(** A turn of pass 1 does not use up the fuel of its inner loop, and a full
    turn moves the cursor forward within the section data. *)
Lemma pass1_body_cursor (instruction : ZydisDisassembledInstruction)
    (fr : Frame) :
  decoder_bounded →
  Z.of_nat (length (section_bytes (this fr))) < 2 ^ 64 →
  0 ≤ offset fr →
  UnasmDisassembleNoFormat ZYDIS_MACHINE_MODE_LEGACY_32 (runtime_address fr)
    (section_pointer fr) 96 = Some instruction →
  (pass1_body instruction fr).1 ≠ OutOfFuel
  ∧ ((pass1_body instruction fr).1 = Finished →
     offset fr < offset (pass1_body instruction fr).2
       ≤ Z.of_nat (length (section_bytes (this fr)))).
Proof.
  intros Hdec Hsize Ho Hd.
  rewrite UnasmDisassembleNoFormat_legacy_32 in Hd.
  destruct (ZydisDecoderDecode _ _ _ _) as [[info operands]|] eqn:Hd';
    [|done].
  injection Hd as <-.
  destruct (decoded_room fr info operands Hdec Ho Hd') as (Hlen & Hroom).
  unfold pass1_body. cbn [insn_info insn_operands fst snd].
  set (relative := if info_raw_imm_is_relative info then _ else _).
  destruct relative as [l|]; [|by split].
  set (fr1 := advance (info_length info) _).
  assert (offset fr1 = offset fr + info_length info) as Ho1.
  { subst fr1. simpl. apply wrap64_small. lia. }
  assert (section_bytes (this fr1) = section_bytes (this fr)) as Hb by done.
  destruct (nop_or_jmp _).
  - destruct (get_le32 (section_pointer fr1)) as [n|] eqn:Hw; [|by split].
    destruct (pass1_jump_table_cursor (table_fuel fr1) false n fr1)
      as (Hs & Hlo & Hhi).
    + by rewrite Hb.
    + lia.
    + done.
    + unfold table_fuel. fold (section_bytes (this fr1)). lia.
    + split; [done|]. intros _. rewrite Hb in Hhi. lia.
  - split; [done|]. intros _. cbn [fst snd]. rewrite Ho1. lia.
Qed.

Lemma pass2_body_cursor (instruction : ZydisDisassembledInstruction)
    (fr : Frame) :
  decoder_bounded →
  Z.of_nat (length (section_bytes (this fr))) < 2 ^ 64 →
  0 ≤ offset fr →
  UnasmDisassembleCustom ZYDIS_MACHINE_MODE_LEGACY_32 (runtime_address fr)
    (section_pointer fr) 96 (this fr) = Some instruction →
  (pass2_body instruction fr).1 ≠ OutOfFuel
  ∧ ((pass2_body instruction fr).1 = Finished →
     offset fr < offset (pass2_body instruction fr).2
       ≤ Z.of_nat (length (section_bytes (this fr)))).
Proof.
  intros Hdec Hsize Ho Hd.
  destruct (UnasmDisassembleCustom_decoded _ _ _ _ _ Hd) as (operands & Hd').
  destruct (decoded_room fr _ operands Hdec Ho Hd') as (Hlen & Hroom).
  unfold pass2_body.
  set (fr1 := advance (info_length (insn_info instruction)) _).
  assert (offset fr1 = offset fr + info_length (insn_info instruction)) as Ho1.
  { subst fr1. simpl. apply wrap64_small. lia. }
  assert (section_bytes (this fr1) = section_bytes (this fr)) as Hb.
  { subst fr1. cbn [this advance with_this]. rewrite (frame_of_eq fr).
    cbn [this frame_of runtime_address]. by rewrite emit_label_text. }
  destruct (nop_or_jmp _).
  - destruct (get_le32 (section_pointer fr1)) as [n|] eqn:Hw; [|by split].
    destruct (pass2_jump_table_cursor (table_fuel fr1) false n fr1)
      as (Hs & Hlo & Hhi).
    + by rewrite Hb.
    + lia.
    + done.
    + unfold table_fuel. fold (section_bytes (this fr1)). lia.
    + split; [done|]. intros _. rewrite Hb in Hhi. lia.
  - split; [done|]. intros _. cbn [fst snd]. rewrite Ho1. lia.
Qed.

Lemma pass1_terminates (fuel : nat) (end_offset : Z) (fr : Frame) :
  decoder_bounded →
  Z.of_nat (length (section_bytes (this fr))) < 2 ^ 64 →
  0 ≤ offset fr →
  (0 < fuel)%nat →
  Z.of_nat (length (section_bytes (this fr))) - offset fr < Z.of_nat fuel →
  (pass1 fuel end_offset fr).1 ≠ OutOfFuel.
Proof.
  intros Hdec. revert fr.
  induction fuel as [|fuel IH]; intros fr Hsize Ho Hpos Hfuel; [lia|].
  rewrite pass1_unfold.
  destruct (UnasmDisassembleNoFormat _ _ _ _) as [instruction|] eqn:Hd;
    [|done].
  destruct (offset fr <=? end_offset); [|done].
  destruct (pass1_body_cursor instruction fr Hdec Hsize Ho Hd) as (Hs & Hc).
  pose proof (pass1_body_grown instruction fr) as (Hlay & _).
  apply section_bytes_layout in Hlay.
  destruct (pass1_body instruction fr) as [[] fr1]; cbn [fst snd] in *;
    try done.
  specialize (Hc eq_refl).
  apply IH; rewrite ?Hlay; lia.
Qed.

Lemma pass2_body_layout (instruction : ZydisDisassembledInstruction)
    (fr : Frame) :
  same_layout (this fr) (this (pass2_body instruction fr).2).
Proof.
  destruct (pass2_body_appends instruction (this fr) (offset fr)
              (runtime_address fr)) as (t & s & o' & r' & _ & Hrun).
  specialize (Hrun (m_dissassembly (this fr))).
  rewrite <- frame_of_eq in Hrun. rewrite Hrun. by repeat split.
Qed.

Lemma pass2_terminates (fuel : nat) (end_offset : Z) (fr : Frame) :
  decoder_bounded →
  Z.of_nat (length (section_bytes (this fr))) < 2 ^ 64 →
  0 ≤ offset fr →
  (0 < fuel)%nat →
  Z.of_nat (length (section_bytes (this fr))) - offset fr < Z.of_nat fuel →
  (pass2 fuel end_offset fr).1 ≠ OutOfFuel.
Proof.
  intros Hdec. revert fr.
  induction fuel as [|fuel IH]; intros fr Hsize Ho Hpos Hfuel; [lia|].
  rewrite pass2_unfold.
  destruct (UnasmDisassembleCustom _ _ _ _ _) as [instruction|] eqn:Hd;
    [|done].
  destruct (offset fr <=? end_offset); [|done].
  destruct (pass2_body_cursor instruction fr Hdec Hsize Ho Hd) as (Hs & Hc).
  pose proof (pass2_body_layout instruction fr) as Hlay.
  apply section_bytes_layout in Hlay.
  destruct (pass2_body instruction fr) as [[] fr1]; cbn [fst snd] in *;
    try done.
  specialize (Hc eq_refl).
  apply IH; rewrite ?Hlay; lia.
Qed.

(** With fuel of the length of the section data [disassemble] comes to its
    end. *)
Lemma disassemble_enough_fuel (func : Function) :
  decoder_bounded →
  Z.of_nat (length (section_bytes func)) < 2 ^ 64 →
  (disassemble (S (length (section_bytes func))) func).1 ≠ OutOfFuel.
Proof.
  intros Hdec Hsize. unfold disassemble.
  destruct (_ =? 0); [done|]. cbv zeta.
  set (o0 := wrap64 (m_startAddress func - _)).
  set (eo := wrap64 (m_endAddress func - _)).
  assert (0 ≤ o0) as Ho0 by (apply Z.mod_pos_bound; lia).
  set (fr0 := {| this := func; offset := o0;
                 runtime_address := m_startAddress func |}).
  pose proof (pass1_terminates (S (length (section_bytes func))) eo fr0 Hdec
                Hsize Ho0 ltac:(lia) ltac:(simpl; lia)) as H1.
  pose proof (pass1_grown (S (length (section_bytes func))) eo fr0) as (Hlay & _).
  apply section_bytes_layout in Hlay. change (this fr0) with func in Hlay.
  destruct (pass1 _ eo fr0) as [[] fr1]; cbn [fst snd] in *; try done.
  cbv zeta. cbn [fst snd].
  apply pass2_terminates; cbn [this offset]; rewrite ?Hlay; try done; lia.
Qed.

(** A loop that has come to its end takes the same way with more fuel. *)
Lemma pass1_more_fuel (fuel k : nat) (end_offset : Z) (fr : Frame) :
  (pass1 fuel end_offset fr).1 ≠ OutOfFuel →
  pass1 (fuel + k) end_offset fr = pass1 fuel end_offset fr.
Proof.
  revert fr. induction fuel as [|fuel IH]; intros fr Hs; [done|].
  change (S fuel + k)%nat with (S (fuel + k)).
  rewrite !pass1_unfold in *.
  destruct (UnasmDisassembleNoFormat _ _ _ _) as [instruction|]; [|done].
  destruct (offset fr <=? end_offset); [|done].
  destruct (pass1_body instruction fr) as [[] fr1]; try done.
  by apply IH.
Qed.

Lemma pass2_more_fuel (fuel k : nat) (end_offset : Z) (fr : Frame) :
  (pass2 fuel end_offset fr).1 ≠ OutOfFuel →
  pass2 (fuel + k) end_offset fr = pass2 fuel end_offset fr.
Proof.
  revert fr. induction fuel as [|fuel IH]; intros fr Hs; [done|].
  change (S fuel + k)%nat with (S (fuel + k)).
  rewrite !pass2_unfold in *.
  destruct (UnasmDisassembleCustom _ _ _ _ _) as [instruction|]; [|done].
  destruct (offset fr <=? end_offset); [|done].
  destruct (pass2_body instruction fr) as [[] fr1]; try done.
  by apply IH.
Qed.

Lemma disassemble_more_fuel (fuel k : nat) (func : Function) :
  (disassemble fuel func).1 ≠ OutOfFuel →
  disassemble (fuel + k) func = disassemble fuel func.
Proof.
  unfold disassemble. destruct (_ =? 0); [done|]. cbv zeta.
  set (o0 := wrap64 (m_startAddress func - _)).
  set (eo := wrap64 (m_endAddress func - _)).
  set (fr0 := {| this := func; offset := o0;
                 runtime_address := m_startAddress func |}).
  pose proof (pass1_more_fuel fuel k eo fr0) as H1.
  destruct (pass1 fuel eo fr0) as [s1 fr1]. cbn [fst snd] in *.
  destruct s1; cbn [fst]; intros Hs; [| |done].
  - rewrite H1 by done. by rewrite pass2_more_fuel.
  - by rewrite H1.
Qed.

(** X4.  The loops of [disassemble] terminate: when the decoder takes at
    least one byte for an instruction and stays within its buffer, fuel
    above the length of the section data is never used up, and the outcome
    is the same for every such fuel. *)
Theorem disassemble_terminates (func : Function) (fuel : nat) :
  decoder_bounded →
  Z.of_nat (length (section_bytes func)) < 2 ^ 64 →
  (length (section_bytes func) < fuel)%nat →
  (disassemble fuel func).1 ≠ OutOfFuel
  ∧ disassemble fuel func
    = disassemble (S (length (section_bytes func))) func.
Proof.
  intros Hdec Hsize Hfuel.
  pose proof (disassemble_enough_fuel func Hdec Hsize) as Hend.
  replace fuel
    with (S (length (section_bytes func))
          + (fuel - S (length (section_bytes func))))%nat by lia.
  rewrite disassemble_more_fuel by done. done.
Qed.

End Termination.

(** ** What a run changes *)

Section Effect.

Context `{!Zydis}.

Lemma set_dissassembly_id (f : Function) :
  set_dissassembly f (m_dissassembly f) = f.
Proof. by destruct f. Qed.

(** What a run changes: pass 1 makes labels, pass 2 appends text. *)
Lemma disassemble_effect (fuel : nat) (func : Function) :
  ∃ f1 T, grown func f1
          ∧ (disassemble fuel func).2
            = set_dissassembly f1 (m_dissassembly func +:+ T).
Proof.
  unfold disassemble.
  destruct (_ =? 0).
  { exists func, EmptyString. split; [apply grown_refl|].
    by rewrite append_nil_r, set_dissassembly_id. }
  cbv zeta.
  set (o0 := wrap64 (m_startAddress func - _)).
  set (eo := wrap64 (m_endAddress func - _)).
  set (fr0 := {| this := func; offset := o0;
                 runtime_address := m_startAddress func |}).
  pose proof (pass1_grown fuel eo fr0) as Hg.
  change (this fr0) with func in Hg.
  destruct (pass1 fuel eo fr0) as [s1 fr1]. cbn [fst snd] in *.
  assert (this fr1 = set_dissassembly (this fr1)
                       (m_dissassembly func +:+ EmptyString)) as Hsame.
  { destruct Hg as (_ & <- & _). by rewrite append_nil_r, set_dissassembly_id. }
  destruct s1; [|by exists (this fr1), EmptyString..].
  destruct (pass2_appends fuel eo (this fr1) o0 (m_startAddress func))
    as (T & s2 & o' & r' & Hrun).
  specialize (Hrun (m_dissassembly (this fr1))).
  assert ({| this := this fr1; offset := o0;
             runtime_address := m_startAddress func |}
          = frame_of (this fr1) (m_dissassembly (this fr1)) o0
              (m_startAddress func)) as Hfr.
  { unfold frame_of. by rewrite set_dissassembly_id. }
  rewrite Hfr, Hrun. cbn [fst snd this frame_of].
  exists (this fr1), T. split; [done|].
  by destruct Hg as (_ & -> & _).
Qed.

(** X5.  A run never removes or renames a label, and every label it adds
    lies within the function and has the name made of its address,
    [label_] and the address in hexadecimal. *)
Theorem disassemble_labels (fuel : nat) (func : Function) :
  labels func ⊆ labels (disassemble fuel func).2
  ∧ ∀ a s, labels (disassemble fuel func).2 !! a = Some s →
      labels func !! a = Some s
      ∨ (labels func !! a = None ∧ s = label_name a
         ∧ m_startAddress func ≤ a ≤ m_endAddress func).
Proof.
  destruct (disassemble_effect fuel func) as (f1 & T & Hg & ->).
  destruct Hg as (_ & _ & Hsub & Hnew). by split.
Qed.

(** X6.  On a function that starts without labels, the labels of two
    different addresses have different names. *)
Theorem disassemble_label_names_distinct (fuel : nat) (func : Function)
    (a b : Z) (sa sb : string) :
  labels func = ∅ →
  0 ≤ m_startAddress func → m_endAddress func < 2 ^ 64 →
  labels (disassemble fuel func).2 !! a = Some sa →
  labels (disassemble fuel func).2 !! b = Some sb →
  a ≠ b → sa ≠ sb.
Proof.
  intros Hempty Hlo Hhi Ha Hb Hne Heq.
  destruct (disassemble_effect fuel func) as (f1 & T & Hg & Hrun).
  rewrite Hrun in Ha, Hb.
  destruct Hg as (_ & _ & _ & Hnew).
  destruct (Hnew a sa Ha) as [Hold | (_ & -> & Hra)];
    [by rewrite Hempty in Hold|].
  destruct (Hnew b sb Hb) as [Hold | (_ & -> & Hrb)];
    [by rewrite Hempty in Hold|].
  apply label_name_inj in Heq. unfold wrap64 in Heq.
  rewrite !Z.mod_small in Heq by lia. done.
Qed.

End Effect.

(** ** The two passes side by side *)

Section Agree.

Context `{!Zydis}.

Lemma emit_label_layout (a : Z) (f : Function) : same_layout f (emit_label a f).
Proof. unfold emit_label. destruct (bool_decide _); by repeat split. Qed.

Lemma emit_int_layout (a : Z) (f : Function) : same_layout f (emit_int a f).
Proof. unfold emit_int. destruct (bool_decide _); by repeat split. Qed.

Lemma section_pointer_aligned (fr1 fr2 : Frame) :
  aligned fr1 fr2 → section_pointer fr1 = section_pointer fr2.
Proof.
  intros ((He & Hs & _ & _) & Ho & _). unfold section_pointer.
  by rewrite He, Hs, Ho.
Qed.

Lemma table_fuel_aligned (fr1 fr2 : Frame) :
  aligned fr1 fr2 → table_fuel fr1 = table_fuel fr2.
Proof.
  intros ((He & Hs & _ & _) & _ & _). unfold table_fuel. by rewrite He, Hs.
Qed.

Lemma advance_aligned (n : Z) (fr1 fr2 : Frame) (f1 f2 : Function) :
  aligned fr1 fr2 → same_layout (this fr1) f1 → same_layout (this fr2) f2 →
  aligned (advance n (with_this f1 fr1)) (advance n (with_this f2 fr2)).
Proof.
  intros (Hl & Ho & Hr) H1 H2. split; [|split]; simpl.
  - eapply same_layout_trans; [apply same_layout_sym, H1|].
    eapply same_layout_trans; [exact Hl | exact H2].
  - by rewrite Ho.
  - by rewrite Hr.
Qed.

(** The inner loops of the two passes take the same way. *)
Lemma jump_tables_aligned (fuel : nat) (b1 b2 : bool) (n : Z)
    (fr1 fr2 : Frame) :
  aligned fr1 fr2 →
  (pass1_jump_table fuel b1 n fr1).1 = (pass2_jump_table fuel b2 n fr2).1
  ∧ aligned (pass1_jump_table fuel b1 n fr1).2
            (pass2_jump_table fuel b2 n fr2).2.
Proof.
  revert b1 b2 n fr1 fr2.
  induction fuel as [|fuel IH]; intros b1 b2 n fr1 fr2 Ha; [done|].
  cbn [pass1_jump_table pass2_jump_table].
  rewrite <- (in_function_layout _ _ n (proj1 Ha)).
  destruct (in_function (this fr1) n); [|done].
  set (fr1' := advance 4 (with_this (set_labels _ _) fr1)).
  set (fr2' := advance 4 (with_this (emit_int _ _) fr2)).
  assert (aligned fr1' fr2') as Ha'.
  { apply advance_aligned; [done|by repeat split|].
    eapply same_layout_trans; [|apply emit_int_layout].
    destruct b2; [apply same_layout_refl | apply emit_label_layout]. }
  rewrite <- (section_pointer_aligned _ _ Ha').
  destruct (get_le32 (section_pointer fr1')) as [n'|]; [|done].
  by apply IH.
Qed.

Lemma bodies_aligned (i1 i2 : ZydisDisassembledInstruction)
    (fr1 fr2 : Frame) :
  aligned fr1 fr2 →
  insn_info i1 = insn_info i2 →
  (pass1_body i1 fr1).1 = Finished →
  (pass2_body i2 fr2).1 = Finished
  ∧ aligned (pass1_body i1 fr1).2 (pass2_body i2 fr2).2.
Proof.
  intros Ha Hi. unfold pass1_body, pass2_body. rewrite <- Hi.
  set (relative := if info_raw_imm_is_relative _ then _ else _).
  destruct relative as [l|]; [|done].
  set (fr1' := advance _ (with_this (set_labels _ _) fr1)).
  set (fr2' := advance _ (with_this (set_dissassembly _ _) fr2)).
  assert (aligned fr1' fr2') as Ha'.
  { apply advance_aligned; [done|by repeat split|].
    eapply same_layout_trans; [apply emit_label_layout|]. by repeat split. }
  rewrite <- (section_pointer_aligned _ _ Ha'),
    <- (table_fuel_aligned _ _ Ha').
  destruct (nop_or_jmp _); [|done].
  destruct (get_le32 (section_pointer fr1')) as [n|]; [|done].
  destruct (jump_tables_aligned (table_fuel fr1') false false n fr1' fr2' Ha')
    as (Hs & Hal).
  intros H1. split; [by rewrite <- Hs | done].
Qed.

(** [UnasmDisassembleCustom] decodes as [UnasmDisassembleNoFormat] does; it
    fails where that one fails, or where the formatter fails. *)
Lemma UnasmDisassembleCustom_NoFormat (mode : ZydisMachineMode) (r : Z)
    (buffer : list Z) (len : Z) (func : Function) :
  match UnasmDisassembleCustom mode r buffer len func with
  | Some instruction =>
      UnasmDisassembleNoFormat mode r buffer len
      = Some {| insn_runtime_address := r;
                insn_info := insn_info instruction;
                insn_operands := insn_operands instruction;
                insn_text := EmptyString |}
      ∧ insn_runtime_address instruction = r
  | None =>
      UnasmDisassembleNoFormat mode r buffer len = None
      ∨ ∃ decoded,
          UnasmDisassembleNoFormat mode r buffer len = Some decoded
          ∧ ZydisFormatterFormatInstruction
              {| FUNC_PRINT_ADDRESS_ABS :=
                   UnasmFormatterPrintAddressAbsolute func;
                 FUNC_PRINT_IMM := UnasmFormatterPrintIMM func;
                 FUNC_PRINT_ADDRESS_REL :=
                   UnasmFormatterPrintAddressRelative func;
                 FUNC_PRINT_DISP := UnasmFormatterPrintDISP func;
                 FUNC_FORMAT_OPERAND_PTR :=
                   UnasmFormatterFormatOperandPTR func |}
              (insn_info decoded) (insn_operands decoded) r = None
  end.
Proof.
  unfold UnasmDisassembleCustom, UnasmDisassembleNoFormat.
  destruct (stack_width_of mode) as [w|]; [|by left]. cbn [mbind option_bind].
  destruct (ZydisDecoderDecode mode w buffer len) as [decoded|]; [|by left].
  cbn [mbind option_bind].
  destruct (ZydisFormatterFormatInstruction _ _ _ _) as [text|] eqn:Hf.
  - done.
  - right. eexists. split; [done|]. exact Hf.
Qed.

(** X7.  [UnasmDisassembleCustom] is [UnasmDisassembleNoFormat] followed
    by the formatter with the five hooks: it fails where the decoding fails
    or the formatter fails, and otherwise returns the instruction that
    [UnasmDisassembleNoFormat] returns, with its text. *)
Theorem UnasmDisassembleCustom_formats_decoded (mode : ZydisMachineMode)
    (r : Z) (buffer : list Z) (len : Z) (func : Function) :
  UnasmDisassembleCustom mode r buffer len func
  = decoded ← UnasmDisassembleNoFormat mode r buffer len;
    text ← ZydisFormatterFormatInstruction
             {| FUNC_PRINT_ADDRESS_ABS :=
                  UnasmFormatterPrintAddressAbsolute func;
                FUNC_PRINT_IMM := UnasmFormatterPrintIMM func;
                FUNC_PRINT_ADDRESS_REL :=
                  UnasmFormatterPrintAddressRelative func;
                FUNC_PRINT_DISP := UnasmFormatterPrintDISP func;
                FUNC_FORMAT_OPERAND_PTR :=
                  UnasmFormatterFormatOperandPTR func |}
             (insn_info decoded) (insn_operands decoded) r;
    Some {| insn_runtime_address := insn_runtime_address decoded;
            insn_info := insn_info decoded;
            insn_operands := insn_operands decoded;
            insn_text := text |}.
Proof.
  unfold UnasmDisassembleCustom, UnasmDisassembleNoFormat.
  destruct (stack_width_of mode) as [w|]; [|done]. cbn [mbind option_bind].
  by destruct (ZydisDecoderDecode mode w buffer len) as [decoded|].
Qed.

(** X8.  The two passes walk the same way through the function: from the
    same cursor, when pass 1 comes to its end then so does pass 2, and at
    the same cursor, unless pass 2 stopped before at an instruction that
    was decoded, lies within the range, and that the formatter failed to
    print. *)
Theorem passes_agree (fuel : nat) (end_offset : Z) (fr1 fr2 : Frame) :
  aligned fr1 fr2 →
  (pass1 fuel end_offset fr1).1 = Finished →
  (pass2 fuel end_offset fr2).1 = Finished
  ∧ (aligned (pass1 fuel end_offset fr1).2 (pass2 fuel end_offset fr2).2
     ∨ (let stop := (pass2 fuel end_offset fr2).2 in
        is_Some (UnasmDisassembleNoFormat ZYDIS_MACHINE_MODE_LEGACY_32
                   (runtime_address stop) (section_pointer stop) 96)
        ∧ offset stop ≤ end_offset
        ∧ UnasmDisassembleCustom ZYDIS_MACHINE_MODE_LEGACY_32
            (runtime_address stop) (section_pointer stop) 96 (this stop)
          = None)).
Proof.
  revert fr1 fr2. induction fuel as [|fuel IH]; intros fr1 fr2 Ha; [done|].
  rewrite pass1_unfold, pass2_unfold.
  pose proof (UnasmDisassembleCustom_NoFormat ZYDIS_MACHINE_MODE_LEGACY_32
                (runtime_address fr2) (section_pointer fr2) 96 (this fr2))
    as Hrel.
  rewrite (section_pointer_aligned _ _ Ha), (proj2 (proj2 Ha)),
    (proj1 (proj2 Ha)).
  destruct (UnasmDisassembleCustom _ _ _ _ _) as [i2|] eqn:Hc.
  - destruct Hrel as (-> & _).
    destruct (offset fr2 <=? end_offset); [|by intros; split; [|left]].
    pose proof (bodies_aligned
                  {| insn_runtime_address := runtime_address fr2;
                     insn_info := insn_info i2;
                     insn_operands := insn_operands i2;
                     insn_text := EmptyString |} i2 fr1 fr2 Ha eq_refl)
      as Hbody.
    destruct (pass1_body _ fr1) as [s1 fr1b].
    destruct (pass2_body i2 fr2) as [s2 fr2b].
    cbn [fst snd] in Hbody.
    destruct s1; [|done..].
    destruct (Hbody eq_refl) as (-> & Hal).
    by apply IH.
  - destruct Hrel as [Hn | (decoded & Hn & _)]; rewrite Hn;
      [by intros; split; [|left]|].
    destruct (offset fr2 <=? end_offset) eqn:Ho;
      [|by intros; split; [|left]].
    intros _. cbn [fst snd]. split; [done|]. right. cbv zeta.
    split; [by rewrite Hn|]. split; [by apply Z.leb_le | done].
Qed.

End Agree.

(** ** The targets of branches *)

Section Targets.

Context `{!Zydis}.

Lemma label_turns_run (end_offset : Z) (fr fr' : Frame)
    (instructions : list ZydisDisassembledInstruction) (k : nat) :
  label_turns end_offset fr instructions fr' →
  pass1 (length instructions + k) end_offset fr = pass1 k end_offset fr'.
Proof.
  induction 1 as [fr | fr instruction fr1 instructions fr' Hd Ho Hb _ IH];
    [done|].
  cbn [length Nat.add]. rewrite pass1_unfold, Hd.
  apply Z.leb_le in Ho. by rewrite Ho, Hb.
Qed.

(** After its turn for a relative branch into the function, pass 1 has a
    label at the target. *)
Lemma pass1_body_target (instruction : ZydisDisassembledInstruction)
    (fr : Frame) (a : Z) :
  info_raw_imm_is_relative (insn_info instruction) = true →
  ZydisCalcAbsoluteAddress (insn_info instruction)
    (hd zero_operand (insn_operands instruction)) (runtime_address fr)
  = Some a →
  in_function (this fr) a = true →
  is_Some (labels (this (pass1_body instruction fr).2) !! a).
Proof.
  intros Hrel Hcalc Hin. unfold pass1_body. rewrite Hrel, Hcalc, Hin.
  set (fr1 := advance _ _).
  assert (is_Some (labels (this fr1) !! a)) as Hhere
    by apply insert_label_lookup.
  destruct Hhere as [s Hs].
  destruct (nop_or_jmp _); [|by exists s].
  destruct (get_le32 (section_pointer fr1)) as [n|]; [|by exists s].
  destruct (pass1_jump_table_grown (table_fuel fr1) false n fr1)
    as (_ & _ & Hsub & _).
  exists s. by eapply lookup_weaken.
Qed.

(** X9.  Pass 1 labels the target of every relative branch that it comes
    by, when the target lies within the function: after the pass the target
    has a label, the one it had before the pass or else the name made of
    its address, whatever follows the branch. *)
Theorem branch_target_labelled (fuel : nat) (end_offset : Z)
    (start fr : Frame) (before : list ZydisDisassembledInstruction)
    (instruction : ZydisDisassembledInstruction) (a : Z) :
  label_turns end_offset start before fr →
  UnasmDisassembleNoFormat ZYDIS_MACHINE_MODE_LEGACY_32
    (runtime_address fr) (section_pointer fr) 96 = Some instruction →
  offset fr ≤ end_offset →
  info_raw_imm_is_relative (insn_info instruction) = true →
  ZydisCalcAbsoluteAddress (insn_info instruction)
    (hd zero_operand (insn_operands instruction)) (runtime_address fr)
  = Some a →
  m_startAddress (this start) ≤ a ≤ m_endAddress (this start) →
  (length before < fuel)%nat →
  ∃ s, labels (this (pass1 fuel end_offset start).2) !! a = Some s
       ∧ (labels (this start) !! a = Some s ∨ s = label_name a).
Proof.
  intros Hturns Hd Ho Hrel Hcalc Hin Hfuel.
  assert (is_Some (labels (this (pass1 fuel end_offset start).2) !! a))
    as [s Hs]; last first.
  { exists s. split; [done|].
    destruct (pass1_grown fuel end_offset start) as (_ & _ & _ & Hnew).
    destruct (Hnew a s Hs) as [Hold | (_ & -> & _)]; auto. }
  replace fuel with (length before + S (fuel - S (length before)))%nat by lia.
  rewrite (label_turns_run _ _ _ _ _ Hturns).
  assert (same_layout (this start) (this fr)) as Hlay.
  { clear -Hturns. induction Hturns as [|fr i fr1 rest fr' _ _ Hb _ IH];
      [apply same_layout_refl|].
    eapply same_layout_trans; [|exact IH].
    pose proof (pass1_body_grown i fr) as (Hl & _). by rewrite Hb in Hl. }
  rewrite <- (in_function_range (this start)) in Hin.
  rewrite (in_function_layout _ _ a Hlay) in Hin.
  rewrite pass1_unfold, Hd. apply Z.leb_le in Ho. rewrite Ho.
  pose proof (pass1_body_target instruction fr a Hrel Hcalc Hin) as [s Hs].
  destruct (pass1_body instruction fr) as [s1 fr1]. cbn [fst snd] in Hs.
  destruct s1; [|by exists s..].
  destruct (pass1_grown (fuel - S (length before)) end_offset fr1)
    as (_ & _ & Hsub & _).
  exists s. by eapply lookup_weaken.
Qed.

End Targets.

(** ** The end of the range *)

Section Bound.

Context `{!Zydis}.

(** The turns of pass 2 run one after the other, each appending the block
    of its instruction. *)
Lemma turns_run (end_offset : Z) (fr fr' : Frame)
    (instructions : list ZydisDisassembledInstruction) :
  turns end_offset fr instructions fr' →
  (∀ k, pass2 (length instructions + k) end_offset fr
        = pass2 k end_offset fr')
  ∧ labels (this fr') = labels (this fr)
  ∧ ∃ blocks,
      Forall2 (instruction_block (labels (this fr))) instructions blocks
      ∧ m_dissassembly (this fr')
        = m_dissassembly (this fr) +:+ concat_text blocks.
Proof.
  induction 1 as [fr | fr instruction fr1 instructions fr' Hd Ho Hb _ IH].
  { split; [done|]. split; [done|]. exists []. split; [constructor|].
    by rewrite append_nil_r. }
  destruct IH as (Hrun & Hlab & blocks & Hblocks & Htext).
  pose proof (UnasmDisassembleCustom_address _ _ _ _ _ _ Hd) as Hr.
  destruct (pass2_body_block instruction fr fr1 Hr Hb)
    as (Hlab1 & block & Hblock & Htext1).
  split; [|split].
  - intros k. cbn [length Nat.add]. rewrite pass2_unfold, Hd.
    apply Z.leb_le in Ho. by rewrite Ho, Hb.
  - congruence.
  - exists (block :: blocks). rewrite Hlab1 in Hblocks.
    split; [by constructor|].
    rewrite Htext, Htext1. unfold concat_text. simpl.
    by rewrite append_assoc.
Qed.

(** X10.  Pass 2 ends at the first instruction boundary past the end of the
    function.  The bound is inclusive: an instruction that begins at
    [m_endAddress] itself still has its turn, and the text is the blocks of
    all instructions that had theirs. *)
Theorem pass2_stops_past_end (fuel : nat) (end_offset : Z)
    (fr fr' : Frame) (instructions : list ZydisDisassembledInstruction) :
  turns end_offset fr instructions fr' →
  end_offset < offset fr' →
  (length instructions < fuel)%nat →
  pass2 fuel end_offset fr = (Finished, fr')
  ∧ ∃ blocks,
      Forall2 (instruction_block (labels (this fr))) instructions blocks
      ∧ m_dissassembly (this fr')
        = m_dissassembly (this fr) +:+ concat_text blocks.
Proof.
  intros Hturns Hpast Hfuel.
  destruct (turns_run _ _ _ _ Hturns) as (Hrun & _ & Hblocks).
  split; [|exact Hblocks].
  replace fuel
    with (length instructions + S (fuel - S (length instructions)))%nat
    by lia.
  rewrite Hrun, pass2_unfold.
  destruct (UnasmDisassembleCustom _ _ _ _ _); [|done].
  apply Z.leb_gt in Hpast. by rewrite Hpast.
Qed.

(** X11.  Every run of pass 2 that comes to its end is a sequence of full
    turns, ended by an instruction that is not decoded or formatted or by a
    cursor past the end of the function; and the pass has appended one
    block for each instruction that had its turn, and nothing else. *)
Theorem pass2_text_is_blocks (fuel : nat) (end_offset : Z) (fr : Frame) :
  (pass2 fuel end_offset fr).1 = Finished →
  let stop := (pass2 fuel end_offset fr).2 in
  ∃ instructions blocks,
    turns end_offset fr instructions stop
    ∧ (length instructions < fuel)%nat
    ∧ (UnasmDisassembleCustom ZYDIS_MACHINE_MODE_LEGACY_32
         (runtime_address stop) (section_pointer stop) 96 (this stop) = None
       ∨ end_offset < offset stop)
    ∧ Forall2 (instruction_block (labels (this fr))) instructions blocks
    ∧ m_dissassembly (this stop)
      = m_dissassembly (this fr) +:+ concat_text blocks.
Proof.
  cbv zeta.
  assert ((pass2 fuel end_offset fr).1 = Finished →
          ∃ instructions,
            turns end_offset fr instructions (pass2 fuel end_offset fr).2
            ∧ (length instructions < fuel)%nat
            ∧ (UnasmDisassembleCustom ZYDIS_MACHINE_MODE_LEGACY_32
                 (runtime_address (pass2 fuel end_offset fr).2)
                 (section_pointer (pass2 fuel end_offset fr).2) 96
                 (this (pass2 fuel end_offset fr).2) = None
               ∨ end_offset < offset (pass2 fuel end_offset fr).2)) as Hturns.
  { revert fr. induction fuel as [|fuel IH]; intros fr; [done|].
    rewrite pass2_unfold.
    destruct (UnasmDisassembleCustom _ _ _ _ _) as [instruction|] eqn:Hd.
    2:{ intros _. exists []. split; [constructor|]. split; [simpl; lia|].
        by left. }
    destruct (offset fr <=? end_offset) eqn:Ho.
    2:{ intros _. exists []. split; [constructor|]. split; [simpl; lia|].
        right. by apply Z.leb_gt. }
    destruct (pass2_body instruction fr) as [s1 fr1] eqn:Hb.
    destruct s1; [|done..].
    intros Hs. destruct (IH fr1 Hs) as (instructions & Ht & Hlen & Hstop).
    exists (instruction :: instructions).
    split; [|split; [simpl; lia | exact Hstop]].
    eapply turns_cons; eauto. by apply Z.leb_le. }
  intros Hs. destruct (Hturns Hs) as (instructions & Ht & Hlen & Hstop).
  destruct (turns_run _ _ _ _ Ht) as (_ & _ & blocks & Hblocks & Htext).
  by exists instructions, blocks.
Qed.

(** X12.  When the end of the function lies before its start, or when the
    bytes at its start are no instruction, [disassemble] leaves the
    function as it is: no label, no text. *)
Theorem nothing_to_disassemble (fuel : nat) (func : Function) :
  let base := Executable.section_address (m_executable func) (m_section func) in
  let first := {| this := func; offset := wrap64 (m_startAddress func - base);
                  runtime_address := m_startAddress func |} in
  wrap64 (m_endAddress func - base) < wrap64 (m_startAddress func - base)
  ∨ UnasmDisassembleNoFormat ZYDIS_MACHINE_MODE_LEGACY_32
      (runtime_address first) (section_pointer first) 96 = None →
  disassemble (S fuel) func = (Finished, func).
Proof.
  intros base first Hstop. unfold disassemble.
  destruct (_ =? 0); [done|]. cbv zeta. fold base. fold first.
  assert (pass1 (S fuel) (wrap64 (m_endAddress func - base)) first
          = (Finished, first)) as ->.
  { rewrite pass1_unfold. destruct Hstop as [Hlt | ->]; [|done].
    destruct (UnasmDisassembleNoFormat _ _ _ _); [|done].
    apply Z.leb_gt in Hlt. cbn [offset first]. by rewrite Hlt. }
  change {| this := this first; offset := wrap64 (m_startAddress func - base);
            runtime_address := m_startAddress func |} with first.
  assert (pass2 (S fuel) (wrap64 (m_endAddress func - base)) first
          = (Finished, first)) as ->.
  { rewrite pass2_unfold. destruct Hstop as [Hlt | Hnone].
    - destruct (UnasmDisassembleCustom _ _ _ _ _); [|done].
      apply Z.leb_gt in Hlt. cbn [offset first]. by rewrite Hlt.
    - rewrite UnasmDisassembleNoFormat_legacy_32 in Hnone.
      rewrite UnasmDisassembleCustom_fails; [done|].
      by destruct (ZydisDecoderDecode _ _ _ _). }
  done.
Qed.

End Bound.

(** ** Tables of any length *)

Section Tables.

Context `{!Zydis}.

Lemma table_at_layout (fr : Frame) (g : Function) (ws : list Z) :
  same_layout (this fr) g → table_at fr ws → table_at (with_this g fr) ws.
Proof.
  revert fr. induction ws as [|w ws IH]; intros fr Hlay; simpl.
  - intros (w & Hw & Hin). exists w.
    rewrite (section_pointer_layout fr g Hlay).
    by rewrite <- (in_function_layout _ _ w Hlay).
  - intros (Hw & Hin & Hrest).
    rewrite (section_pointer_layout fr g Hlay).
    rewrite <- (in_function_layout _ _ w Hlay).
    split; [done|]. split; [done|].
    apply (IH (advance 4 fr)); done.
Qed.

Lemma advance_advance (a b : Z) (fr : Frame) :
  advance a (advance b fr) = advance (b + a) fr.
Proof.
  unfold advance, wrap64. simpl. f_equal.
  - rewrite Zplus_mod_idemp_l. f_equal. lia.
  - rewrite Zplus_mod_idemp_l. f_equal. lia.
Qed.

(** A table of [k] words needs [4 k] bytes of the section. *)
Lemma table_at_room (fr : Frame) (ws : list Z) :
  Z.of_nat (length (section_bytes (this fr))) < 2 ^ 64 →
  0 ≤ offset fr →
  table_at fr ws →
  offset fr + 4 * Z.of_nat (length ws) + 4
  ≤ Z.of_nat (length (section_bytes (this fr))).
Proof.
  revert fr. induction ws as [|w ws IH]; intros fr Hsize Ho; simpl.
  - intros (w & Hw & _). pose proof (get_le32_room fr w Ho Hw). lia.
  - intros (Hw & _ & Hrest). pose proof (get_le32_room fr w Ho Hw) as Hroom.
    assert (offset (advance 4 fr) = offset fr + 4) as Ho'.
    { simpl. apply wrap64_small. lia. }
    specialize (IH (advance 4 fr) Hsize ltac:(lia) Hrest).
    rewrite Ho' in IH. change (this (advance 4 fr)) with (this fr) in IH. lia.
Qed.

(** The inner loop of pass 1 on a table: a label for the anchor, when the
    loop is entered, and one for each word. *)
Lemma pass1_jump_table_words (fuel : nat) (b : bool) (n : Z) (ws : list Z)
    (fr : Frame) :
  table_at fr (n :: ws) →
  (length (n :: ws) < fuel)%nat →
  pass1_jump_table fuel b n fr
  = (Finished,
     advance (4 * Z.of_nat (length (n :: ws)))
       (with_this
          (set_labels (this fr)
             (foldl (λ m w, insert_label w m)
                (if b then labels (this fr)
                 else if in_function (this fr) (runtime_address fr)
                      then insert_label (runtime_address fr)
                             (labels (this fr))
                      else labels (this fr))
                (n :: ws))) fr)).
Proof.
  revert fuel b n fr. induction ws as [|w ws IH]; intros fuel b n fr Ht Hfuel.
  - destruct fuel as [|[|fuel]]; [simpl in Hfuel; lia..|].
    destruct Ht as (Hn & Hin & w & Hw & Hout).
    rewrite (pass1_jump_table_in _ b n w fr Hin Hw).
    by rewrite pass1_jump_table_out.
  - destruct fuel as [|fuel]; [simpl in Hfuel; lia|].
    destruct Ht as (Hn & Hin & Hrest).
    pose proof Hrest as (Hw & _).
    rewrite (pass1_jump_table_in _ b n w fr Hin Hw).
    set (l2 := insert_label n _).
    rewrite (IH fuel true w).
    + unfold advance, with_this, set_labels, wrap64.
      cbn [this offset runtime_address foldl labels m_labels length
           m_executable m_section m_startAddress m_endAddress m_dissassembly].
      rewrite !Zplus_mod_idemp_l.
      f_equal. f_equal; f_equal; lia.
    + apply (table_at_layout (advance 4 fr) (set_labels (this fr) l2));
        [by repeat split | exact Hrest].
    + simpl in *. lia.
Qed.


(** X13.  The inner loop of pass 1, entered at a table of any number of
    words that are addresses of the function, inserts a label for the
    anchor, the address it is entered at, when that is an address of the
    function, and then a label for each word in turn; it advances by four
    bytes a word and ends at the first word that is no address of the
    function. *)
Theorem jump_table_labels (fr : Frame) (n : Z) (ws : list Z) :
  Z.of_nat (length (section_bytes (this fr))) < 2 ^ 64 →
  0 ≤ offset fr →
  table_at fr (n :: ws) →
  pass1_jump_table (table_fuel fr) false n fr
  = (Finished,
     advance (4 * Z.of_nat (length (n :: ws)))
       (with_this
          (set_labels (this fr)
             (foldl (λ m w, insert_label w m)
                (if in_function (this fr) (runtime_address fr)
                 then insert_label (runtime_address fr) (labels (this fr))
                 else labels (this fr))
                (n :: ws))) fr)).
Proof.
  intros Hsize Ho Ht.
  apply (pass1_jump_table_words (table_fuel fr) false n ws fr Ht).
  pose proof (table_at_room fr (n :: ws) Hsize Ho Ht).
  unfold table_fuel. fold (section_bytes (this fr)). lia.
Qed.

Lemma pass2_jump_table_words (fuel : nat) (b : bool) (n : Z) (ws : list Z)
    (f : Function) (d : string) (o r : Z) :
  table_at (frame_of f d o r) (n :: ws) →
  (length (n :: ws) < fuel)%nat →
  pass2_jump_table fuel b n (frame_of f d o r)
  = (Finished,
     frame_of f
       (d +:+ (if b then EmptyString else label_line (labels f) r)
        +:+ concat_text (int_line (labels f) <$> n :: ws))
       (wrap64 (o + 4 * Z.of_nat (length (n :: ws))))
       (wrap64 (r + 4 * Z.of_nat (length (n :: ws))))).
Proof.
  revert fuel b n d o r.
  induction ws as [|w ws IH]; intros fuel b n d o r Ht Hfuel.
  - destruct fuel as [|[|fuel]]; [simpl in Hfuel; lia..|].
    destruct Ht as (Hn & Hin & w & Hw & Hout).
    rewrite (pass2_jump_table_in _ b n w _ Hin Hw).
    cbn [this frame_of runtime_address].
    assert (emit_int n (if b then set_dissassembly f d
                        else emit_label r (set_dissassembly f d))
            = set_dissassembly f
                (d +:+ (if b then EmptyString else label_line (labels f) r)
                 +:+ concat_text (int_line (labels f) <$> [n]))) as ->.
    { unfold concat_text. simpl. rewrite append_nil_r. destruct b.
      - by rewrite emit_int_text.
      - by rewrite emit_label_text, emit_int_text, append_assoc. }
    rewrite pass2_jump_table_out; [done|exact Hout].
  - destruct fuel as [|fuel]; [simpl in Hfuel; lia|].
    destruct Ht as (Hn & Hin & Hrest).
    pose proof Hrest as (Hw & _).
    rewrite (pass2_jump_table_in _ b n w _ Hin Hw).
    cbn [this frame_of runtime_address].
    assert (emit_int n (if b then set_dissassembly f d
                        else emit_label r (set_dissassembly f d))
            = set_dissassembly f
                (d +:+ (if b then EmptyString else label_line (labels f) r)
                 +:+ int_line (labels f) n)) as ->.
    { destruct b.
      - by rewrite emit_int_text.
      - by rewrite emit_label_text, emit_int_text, append_assoc. }
    change (advance 4 (with_this (set_dissassembly f ?x) (frame_of f d o r)))
      with (frame_of f x (wrap64 (o + 4)) (wrap64 (r + 4))).
    rewrite (IH fuel true w); [| |simpl in *; lia].
    2:{ apply (table_at_layout (advance 4 (frame_of f d o r))
                 (set_dissassembly f
                    (d +:+ (if b then EmptyString
                            else label_line (labels f) r)
                     +:+ int_line (labels f) n)));
          [by repeat split | exact Hrest]. }
    f_equal. unfold frame_of. f_equal.
    + f_equal. unfold concat_text. simpl. by rewrite !append_assoc.
    + unfold wrap64. rewrite Zplus_mod_idemp_l. f_equal.
      cbn [length]. lia.
    + unfold wrap64. rewrite Zplus_mod_idemp_l. f_equal.
      cbn [length]. lia.
Qed.

(** X14.  The inner loop of pass 2 on such a table appends the label line
    of the anchor, when the anchor has a label, and then for each word that
    has a label, in turn, the line [    .int <label>]; it advances as the
    loop of pass 1 does. *)
Theorem jump_table_lines (fr : Frame) (n : Z) (ws : list Z) :
  Z.of_nat (length (section_bytes (this fr))) < 2 ^ 64 →
  0 ≤ offset fr →
  table_at fr (n :: ws) →
  pass2_jump_table (table_fuel fr) false n fr
  = (Finished,
     advance (4 * Z.of_nat (length (n :: ws)))
       (with_this
          (set_dissassembly (this fr)
             (m_dissassembly (this fr)
              +:+ label_line (labels (this fr)) (runtime_address fr)
              +:+ concat_text (int_line (labels (this fr)) <$> n :: ws)))
          fr)).
Proof.
  intros Hsize Ho Ht.
  pose proof (table_at_room fr (n :: ws) Hsize Ho Ht) as Hroom.
  assert (length (n :: ws) < table_fuel fr)%nat as Hfuel.
  { unfold table_fuel. fold (section_bytes (this fr)). lia. }
  rewrite (frame_of_eq fr) in Ht.
  pose proof (pass2_jump_table_words (table_fuel fr) false n ws (this fr)
                (m_dissassembly (this fr)) (offset fr) (runtime_address fr)
                Ht Hfuel) as Hrun.
  rewrite <- frame_of_eq in Hrun. exact Hrun.
Qed.

End Tables.

(** ** A table at the end of the section data *)

Section Overrun.

Context `{!Zydis}.

Lemma table_to_end_layout (fr : Frame) (g : Function) (ws : list Z) :
  same_layout (this fr) g →
  table_to_end fr ws → table_to_end (with_this g fr) ws.
Proof.
  revert fr. induction ws as [|w ws IH]; intros fr Hlay; simpl.
  - by rewrite (section_pointer_layout fr g Hlay).
  - intros (Hw & Hin & Hrest).
    rewrite (section_pointer_layout fr g Hlay).
    rewrite <- (in_function_layout _ _ w Hlay).
    split; [done|]. split; [done|].
    apply (IH (advance 4 fr)); done.
Qed.

Lemma table_to_end_room (fr : Frame) (ws : list Z) :
  Z.of_nat (length (section_bytes (this fr))) < 2 ^ 64 →
  0 ≤ offset fr →
  table_to_end fr ws →
  offset fr + 4 * Z.of_nat (length ws)
  ≤ Z.max (offset fr) (Z.of_nat (length (section_bytes (this fr)))).
Proof.
  revert fr. induction ws as [|w ws IH]; intros fr Hsize Ho; simpl; [lia|].
  intros (Hw & _ & Hrest). pose proof (get_le32_room fr w Ho Hw) as Hroom.
  assert (offset (advance 4 fr) = offset fr + 4) as Ho'.
  { simpl. apply wrap64_small. lia. }
  specialize (IH (advance 4 fr) Hsize ltac:(lia) Hrest).
  rewrite Ho' in IH. change (this (advance 4 fr)) with (this fr) in IH. lia.
Qed.

Lemma pass1_jump_table_overrun (fuel : nat) (b : bool) (n : Z)
    (ws : list Z) (fr : Frame) :
  table_to_end fr (n :: ws) →
  (length (n :: ws) ≤ fuel)%nat →
  (pass1_jump_table fuel b n fr).1 = Undefined.
Proof.
  revert fuel b n fr. induction ws as [|w ws IH]; intros fuel b n fr Ht Hfuel;
    (destruct fuel as [|fuel]; [simpl in Hfuel; lia|]);
    destruct Ht as (Hn & Hin & Hrest).
  - cbn [pass1_jump_table]. rewrite Hin.
    set (fr' := advance 4 _).
    change (section_pointer fr') with (section_pointer (advance 4 fr)).
    simpl in Hrest. by rewrite Hrest.
  - pose proof Hrest as (Hw & _).
    rewrite (pass1_jump_table_in _ b n w fr Hin Hw).
    apply IH; [|simpl in *; lia].
    apply (table_to_end_layout (advance 4 fr)); [by repeat split | exact Hrest].
Qed.

Lemma pass2_jump_table_overrun (fuel : nat) (b : bool) (n : Z)
    (ws : list Z) (fr : Frame) :
  table_to_end fr (n :: ws) →
  (length (n :: ws) ≤ fuel)%nat →
  (pass2_jump_table fuel b n fr).1 = Undefined.
Proof.
  revert fuel b n fr. induction ws as [|w ws IH]; intros fuel b n fr Ht Hfuel;
    (destruct fuel as [|fuel]; [simpl in Hfuel; lia|]);
    destruct Ht as (Hn & Hin & Hrest).
  - cbn [pass2_jump_table]. rewrite Hin.
    set (fr' := advance 4 _).
    assert (section_pointer fr' = section_pointer (advance 4 fr)) as ->.
    { subst fr'. apply (section_pointer_layout (advance 4 fr)).
      eapply same_layout_trans; [|apply emit_int_layout].
      destruct b; [apply same_layout_refl | apply emit_label_layout]. }
    simpl in Hrest. by rewrite Hrest.
  - pose proof Hrest as (Hw & _).
    rewrite (pass2_jump_table_in _ b n w fr Hin Hw).
    apply IH; [|simpl in *; lia].
    apply (table_to_end_layout (advance 4 fr)); [|exact Hrest].
    eapply same_layout_trans; [|apply emit_int_layout].
    destruct b; [apply same_layout_refl | apply emit_label_layout].
Qed.

(** X15.  The inner loops test the words they read, not the cursor: at a
    table of in-range words that lasts to the end of the section data, the
    loop of pass 1 and the loop of pass 2 go on to read a word where fewer
    than four bytes of the data are left. *)
Theorem jump_table_scan_overruns (fr : Frame) (n : Z) (ws : list Z) :
  Z.of_nat (length (section_bytes (this fr))) < 2 ^ 64 →
  0 ≤ offset fr →
  table_to_end fr (n :: ws) →
  (pass1_jump_table (table_fuel fr) false n fr).1 = Undefined
  ∧ (pass2_jump_table (table_fuel fr) false n fr).1 = Undefined.
Proof.
  intros Hsize Ho Ht.
  pose proof (table_to_end_room fr (n :: ws) Hsize Ho Ht) as Hroom.
  pose proof Ht as (Hn & _). pose proof (get_le32_room fr n Ho Hn).
  assert (length (n :: ws) ≤ table_fuel fr)%nat as Hfuel.
  { unfold table_fuel. fold (section_bytes (this fr)). lia. }
  split; [by eapply pass1_jump_table_overrun | by eapply pass2_jump_table_overrun].
Qed.

End Overrun.

(** ** The two cursors *)

Section Lockstep.

Context `{!Zydis}.

Lemma skew_advance (n : Z) (fr : Frame) (f : Function) :
  skew (advance n (with_this f fr)) = skew fr.
Proof.
  unfold skew, advance, wrap64. simpl.
  rewrite <- Zminus_mod. f_equal. lia.
Qed.

Lemma pass1_jump_table_skew (fuel : nat) (b : bool) (n : Z) (fr : Frame) :
  skew (pass1_jump_table fuel b n fr).2 = skew fr.
Proof.
  revert b n fr. induction fuel as [|fuel IH]; intros b n fr; [done|].
  cbn [pass1_jump_table]. destruct (in_function (this fr) n); [|done].
  set (fr' := advance 4 _).
  assert (skew fr' = skew fr) as Hs by apply skew_advance.
  destruct (get_le32 (section_pointer fr')) as [n'|]; [|done].
  by rewrite IH.
Qed.

Lemma pass2_jump_table_skew (fuel : nat) (b : bool) (n : Z) (fr : Frame) :
  skew (pass2_jump_table fuel b n fr).2 = skew fr.
Proof.
  revert b n fr. induction fuel as [|fuel IH]; intros b n fr; [done|].
  cbn [pass2_jump_table]. destruct (in_function (this fr) n); [|done].
  set (fr' := advance 4 _).
  assert (skew fr' = skew fr) as Hs by apply skew_advance.
  destruct (get_le32 (section_pointer fr')) as [n'|]; [|done].
  by rewrite IH.
Qed.

Lemma pass1_body_skew (instruction : ZydisDisassembledInstruction)
    (fr : Frame) :
  skew (pass1_body instruction fr).2 = skew fr.
Proof.
  unfold pass1_body.
  destruct (if info_raw_imm_is_relative _ then _ else _) as [l|]; [|done].
  set (fr1 := advance _ _).
  assert (skew fr1 = skew fr) as Hs by apply skew_advance.
  destruct (nop_or_jmp _); [|done].
  destruct (get_le32 (section_pointer fr1)) as [n|]; [|done].
  by rewrite pass1_jump_table_skew.
Qed.

Lemma pass2_body_skew (instruction : ZydisDisassembledInstruction)
    (fr : Frame) :
  skew (pass2_body instruction fr).2 = skew fr.
Proof.
  unfold pass2_body.
  set (fr1 := advance _ _).
  assert (skew fr1 = skew fr) as Hs by apply skew_advance.
  destruct (nop_or_jmp _); [|done].
  destruct (get_le32 (section_pointer fr1)) as [n|]; [|done].
  by rewrite pass2_jump_table_skew.
Qed.

(** X16.  The two cursors move in lockstep: however a pass ends, the runtime
    address is as far from the offset as it was when the pass began, so that
    the decoder is always told the address of the byte it is given. *)
Theorem cursors_in_lockstep (fuel : nat) (end_offset : Z) (fr : Frame) :
  wrap64 (runtime_address (pass1 fuel end_offset fr).2
          - offset (pass1 fuel end_offset fr).2)
  = wrap64 (runtime_address fr - offset fr)
  ∧ wrap64 (runtime_address (pass2 fuel end_offset fr).2
            - offset (pass2 fuel end_offset fr).2)
    = wrap64 (runtime_address fr - offset fr).
Proof.
  fold (skew fr). split.
  - fold (skew (pass1 fuel end_offset fr).2).
    revert fr. induction fuel as [|fuel IH]; intros fr; [done|].
    rewrite pass1_unfold.
    destruct (UnasmDisassembleNoFormat _ _ _ _) as [instruction|]; [|done].
    destruct (offset fr <=? end_offset); [|done].
    pose proof (pass1_body_skew instruction fr) as Hb.
    destruct (pass1_body instruction fr) as [[] fr1]; cbn [snd] in *;
      try done.
    by rewrite IH.
  - fold (skew (pass2 fuel end_offset fr).2).
    revert fr. induction fuel as [|fuel IH]; intros fr; [done|].
    rewrite pass2_unfold.
    destruct (UnasmDisassembleCustom _ _ _ _ _) as [instruction|]; [|done].
    destruct (offset fr <=? end_offset); [|done].
    pose proof (pass2_body_skew instruction fr) as Hb.
    destruct (pass2_body instruction fr) as [[] fr1]; cbn [snd] in *;
      try done.
    by rewrite IH.
Qed.

End Lockstep.

(** ** The properties on concrete bytes *)

#[local] Existing Instance Sample.zydis.

(** The decoder of the small instance keeps the contract that the loops
    need to end. *)
Lemma sample_decoder_bounded : decoder_bounded.
Proof.
  intros mode width buffer len info operands Hd. simpl in Hd.
  unfold Sample.decode in Hd.
  destruct buffer as [|opcode [|b rest]]; [done|..];
    repeat case_match; simplify_eq; simpl; lia.
Qed.

Lemma disassemble_terminates_witness :
  (disassemble 30 Sample.dispatch_start).1 ≠ OutOfFuel
  ∧ disassemble 30 Sample.dispatch_start
    = disassemble 26 Sample.dispatch_start.
Proof.
  apply (disassemble_terminates Sample.dispatch_start 30);
    [apply sample_decoder_bounded | simpl; lia | simpl; lia].
Defined.

(** *** The label table *)

Lemma insert_label_idempotent_witness :
  insert_label 0x1008 (insert_label 0x1008 ∅)
  = ({[ 0x1008 := "label_1008" ]} : gmap Z string).
Proof.
  rewrite (proj1 (proj2 (insert_label_idempotent ∅ 0x1008))).
  reflexivity.
Defined.

(** *** The hooks *)

(** The [jmp] of [loop_body] goes to the first address of the function,
    which has a label and is also the address of the symbol [start].  The
    address [0x1003] has no label and lies in the section of the function,
    where the image answers with the symbol [start] at [0x1000]: the hooks
    of an immediate and of a far pointer print the made-up name, and the
    hook of a displacement fails. *)
Lemma resolution_order_witness :
  (hook_address AddressAbsolute Sample.back_branch = Some 0x1000
   ∧ exact_symbol Sample.looping 0x1000
   ∧ hook AddressAbsolute Sample.looping Sample.back_branch "jmp "
     = Some "jmp label_1000")
  ∧ (resolve Sample.dispatch 0x1003 = SectionSymbol
     ∧ ¬ exact_symbol Sample.dispatch 0x1003
     ∧ hook Immediate Sample.dispatch (Sample.immediate 0x1003) "push "
       = Some "push sub_1003"
     ∧ hook FarPointer Sample.dispatch (Sample.far_pointer 0x1003) "jmp "
       = Some "jmp sub_1003"
     ∧ hook Displacement Sample.dispatch (Sample.displacement 0x1003)
         "mov eax, "
       = None).
Proof.
  split.
  - assert (hook_address AddressAbsolute Sample.back_branch = Some 0x1000)
      as Ha by reflexivity.
    split; [exact Ha|]. split.
    + split; [discriminate | reflexivity].
    + etrans.
      * apply (proj1 (resolution_order AddressAbsolute Sample.looping
                        Sample.back_branch "jmp " 0x1000 Ha) "label_1000").
        reflexivity.
      * reflexivity.
  - split; [vm_compute; reflexivity|].
    split; [intros [_ Hv]; discriminate Hv|].
    pose proof (proj2 (resolution_order Immediate Sample.dispatch
                         (Sample.immediate 0x1003) "push " 0x1003 eq_refl))
      as (_ & _ & ->).
    pose proof (proj2 (resolution_order FarPointer Sample.dispatch
                         (Sample.far_pointer 0x1003) "jmp " 0x1003 eq_refl))
      as (_ & _ & ->).
    pose proof (proj2 (resolution_order Displacement Sample.dispatch
                         (Sample.displacement 0x1003) "mov eax, " 0x1003
                         eq_refl)) as (_ & _ & ->).
    split; [vm_compute; reflexivity|]. split; vm_compute; reflexivity.
Defined.

(** The displacement [0x1005] is the anchor of the table of [table_body],
    which has a label; the symbol below it is [start] at [0x1000]. *)
Lemma displacement_offset_counterexample :
  let s := Executable.get_symbol (executable Sample.dispatch) 0x1005 in
  Executable.name s = "start"
  ∧ Executable.value s = 0x1000
  ∧ Executable.value s < 0x1005
  ∧ UnasmFormatterPrintDISP Sample.dispatch (Sample.displacement 0x1005) ""
    = Some "+label_1005"
  ∧ UnasmFormatterPrintDISP Sample.dispatch (Sample.displacement 0x1005) ""
    ≠ Some ("+" +:+ Executable.name s +:+ "+0x"
            +:+ hex (0x1005 - Executable.value s)).
Proof.
  cbv zeta. split; [reflexivity|]. split; [reflexivity|].
  split; [reflexivity|]. split; [reflexivity|]. discriminate.
Qed.

(** The displacement [0x2008] lies in the data object [table]. *)
Lemma displacement_symbol_offset_witness :
  UnasmFormatterPrintDISP Sample.dispatch (Sample.displacement 0x2008) ""
  = Some "+table+0x8".
Proof.
  etrans.
  - apply (displacement_symbol_offset Sample.dispatch
             (Sample.displacement 0x2008) "").
    + reflexivity.
    + vm_compute. intros [_ Hle]. by apply Hle.
    + vm_compute. split; discriminate.
    + discriminate.
    + vm_compute. split; [discriminate | reflexivity].
  - reflexivity.
Defined.

(** The far pointer [0x2800] lies in the image, past the section of the
    function, and has no symbol. *)
Lemma far_pointer_counterexample :
  Executable.base_address (executable Sample.dispatch) ≤ 0x2800
    ≤ Executable.end_address (executable Sample.dispatch)
  ∧ ¬ (section_address Sample.dispatch ≤ 0x2800 ≤ section_end Sample.dispatch)
  ∧ Executable.name (Executable.get_symbol (executable Sample.dispatch) 0x2800)
    = EmptyString
  ∧ UnasmFormatterFormatOperandPTR Sample.dispatch (Sample.far_pointer 0x2800) ""
    = Some "unk_2800"
  ∧ UnasmFormatterFormatOperandPTR Sample.dispatch (Sample.far_pointer 0x2800) ""
    ≠ Some ("off_" +:+ hex 0x2800).
Proof.
  split; [vm_compute; split; discriminate|].
  split; [vm_compute; intros [_ Hle]; by apply Hle|].
  split; [reflexivity|]. split; [reflexivity | discriminate].
Qed.

Lemma far_pointer_image_fallback_witness :
  UnasmFormatterFormatOperandPTR Sample.dispatch (Sample.far_pointer 0x2800) ""
  = Some "unk_2800".
Proof.
  etrans.
  - apply (far_pointer_image_fallback Sample.dispatch
             (Sample.far_pointer 0x2800) "").
    + vm_compute. split; [discriminate | reflexivity].
    + reflexivity.
    + vm_compute. intros [_ Hle]. by apply Hle.
    + vm_compute. split; discriminate.
    + intros [Hname _]. by apply Hname.
  - reflexivity.
Defined.

(** *** The passes *)

(** Pass 1 on [table_body] labels the value [0x1001] of a table slot. *)
Lemma pass1_labels_in_function_witness :
  is_Some (labels (this (pass1 10 0x10
                           (Sample.at_offset Sample.dispatch_start 0)).2)
           !! 0x1001)
  ∧ (is_Some (labels Sample.dispatch_start !! 0x1001)
     ∨ m_startAddress Sample.dispatch_start ≤ 0x1001
       ≤ m_endAddress Sample.dispatch_start).
Proof.
  assert (is_Some (labels (this (pass1 10 0x10
                    (Sample.at_offset Sample.dispatch_start 0)).2)
                   !! 0x1001)) as Hs.
  { vm_compute. eauto. }
  split; [exact Hs|].
  exact (pass1_labels_in_function 10 0x10
           (Sample.at_offset Sample.dispatch_start 0) 0x1001 Hs).
Defined.

(** In [shared_slot_body] the function [0x1000 .. 0x1010] ends in a [jmp]
    at [0x1003] that is followed by four words, of which the first three are
    addresses of the function and the fourth is not; two of the three are
    the same address.  Pass 1 makes three labels, and pass 2 writes three
    [.int] lines. *)
Lemma jump_table_counterexample :
  ZydisDecoderDecode ZYDIS_MACHINE_MODE_LEGACY_32 ZYDIS_STACK_WIDTH_32
    (drop 3 Sample.shared_slot_body) 96
  = Some (Sample.insn 2 ZYDIS_MNEMONIC_JMP false, [])
  ∧ get_le32 (drop 5 Sample.shared_slot_body) = Some 0x1000
  ∧ get_le32 (drop 9 Sample.shared_slot_body) = Some 0x1000
  ∧ get_le32 (drop 13 Sample.shared_slot_body) = Some 0x1001
  ∧ get_le32 (drop 17 Sample.shared_slot_body) = Some 0x2000
  ∧ in_function Sample.shared_slot 0x1000 = true
  ∧ in_function Sample.shared_slot 0x1001 = true
  ∧ in_function Sample.shared_slot 0x2000 = false
  ∧ (disassemble 10 Sample.shared_slot).1 = Finished
  ∧ m_labels (disassemble 10 Sample.shared_slot).2
    = <[0x1001 := "label_1001"]>
        (<[0x1000 := "label_1000"]> {[ 0x1005 := "label_1005" ]})
  ∧ size (m_labels (disassemble 10 Sample.shared_slot).2) = 3%nat
  ∧ m_dissassembly (disassemble 10 Sample.shared_slot).2
    = Sample.line "label_1000:" +:+ Sample.line "    ret"
      +:+ Sample.line "label_1001:" +:+ Sample.line "    ret"
      +:+ Sample.line "    ret" +:+ Sample.line "    jmp eax"
      +:+ Sample.line "label_1005:"
      +:+ Sample.line "    .int label_1000"
      +:+ Sample.line "    .int label_1000"
      +:+ Sample.line "    .int label_1001".
Proof. repeat split; vm_compute; reflexivity. Qed.

(** In [table_body] the three slots hold different addresses, and the
    [jmp] has no relative target; in [relative_table_body] the [jmp] goes
    to [0x1084], which is no address of the function. *)
Lemma jump_table_scenario_witness :
  ((pass1 2 0x10 (Sample.at_offset Sample.dispatch_start 3)).1 = Finished
   ∧ offset (pass1 2 0x10 (Sample.at_offset Sample.dispatch_start 3)).2 = 17
   ∧ labels (this (pass1 2 0x10 (Sample.at_offset Sample.dispatch_start 3)).2)
     = labels Sample.dispatch
   ∧ size (labels Sample.dispatch) = 4%nat
   ∧ (pass2 2 0x10 (Sample.at_offset Sample.dispatch 3)).1 = Finished
   ∧ m_dissassembly
       (this (pass2 2 0x10 (Sample.at_offset Sample.dispatch 3)).2)
     = Sample.line "    jmp eax"
       +:+ Sample.line "label_1005:"
       +:+ Sample.line "    .int label_1000"
       +:+ Sample.line "    .int label_1001"
       +:+ Sample.line "    .int label_1002")
  ∧ ((pass1 2 0x10 (Sample.at_offset Sample.relative_dispatch_start 3)).1
     = Finished
     ∧ labels (this (pass1 2 0x10
                       (Sample.at_offset Sample.relative_dispatch_start 3)).2)
       = labels Sample.relative_dispatch
     ∧ size (labels Sample.relative_dispatch) = 4%nat
     ∧ (pass2 2 0x10 (Sample.at_offset Sample.relative_dispatch 3)).1
       = Finished
     ∧ m_dissassembly
         (this (pass2 2 0x10 (Sample.at_offset Sample.relative_dispatch 3)).2)
       = Sample.line "    jmp off_1084"
         +:+ Sample.line "label_1005:"
         +:+ Sample.line "    .int label_1000"
         +:+ Sample.line "    .int label_1001"
         +:+ Sample.line "    .int label_1002").
Proof.
  assert (NoDup [0x1005; 0x1000; 0x1001; 0x1002]) as Hnd.
  { exact (bool_decide_unpack (NoDup [0x1005; 0x1000; 0x1001; 0x1002]) I). }
  split.
  - pose proof (jump_table_scenario 0 0x10
                  (Sample.at_offset Sample.dispatch_start 3)
                  (Sample.insn 2 ZYDIS_MNEMONIC_JMP false) []
                  0x1000 0x1001 0x1002 0x2000) as Hscenario.
    cbv zeta in Hscenario.
    assert (∀ a : Z, a ∈ [0x1005; 0x1000; 0x1001; 0x1002] →
              labels Sample.dispatch_start !! a = None) as Hfresh.
    { intros a _. reflexivity. }
    destruct (Hscenario eq_refl ltac:(simpl; lia) eq_refl (or_introl eq_refl)
                eq_refl eq_refl eq_refl eq_refl eq_refl eq_refl eq_refl
                eq_refl eq_refl Hnd Hfresh (or_intror eq_refl))
      as (Hpass1 & Hsize & Hpass2 & _).
    specialize (Hpass2 (Sample.decoded 0x1003 2 ZYDIS_MNEMONIC_JMP "jmp eax")
                  eq_refl).
    rewrite Hpass1. cbn [fst snd this offset with_this].
    split; [reflexivity|]. split; [reflexivity|].
    split; [vm_compute; reflexivity|]. split; [vm_compute; reflexivity|].
    pose proof (f_equal fst Hpass2) as Hstatus.
    pose proof (f_equal (λ r, m_dissassembly (this r.2)) Hpass2) as Htext.
    split; [exact Hstatus | exact Htext].
  - pose proof (jump_table_scenario 0 0x10
                  (Sample.at_offset Sample.relative_dispatch_start 3)
                  (Sample.insn 2 ZYDIS_MNEMONIC_JMP true)
                  [Sample.imm_operand (Sample.sign_extend8 0x7F)]
                  0x1000 0x1001 0x1002 0x2000) as Hscenario.
    cbv zeta in Hscenario.
    assert (∀ a : Z, a ∈ [0x1005; 0x1000; 0x1001; 0x1002] →
              labels Sample.relative_dispatch_start !! a = None) as Hfresh.
    { intros a _. reflexivity. }
    destruct (Hscenario eq_refl ltac:(simpl; lia) eq_refl
                (or_intror (ex_intro _ 0x1084
                              (conj eq_refl (or_introl eq_refl))))
                eq_refl eq_refl eq_refl eq_refl eq_refl eq_refl eq_refl
                eq_refl eq_refl Hnd Hfresh (or_intror eq_refl))
      as (Hpass1 & Hsize & Hpass2 & _).
    specialize (Hpass2
                  {| insn_runtime_address := 0x1003;
                     insn_info := Sample.insn 2 ZYDIS_MNEMONIC_JMP true;
                     insn_operands :=
                       [Sample.imm_operand (Sample.sign_extend8 0x7F)];
                     insn_text := "jmp off_1084" |}
                  eq_refl).
    rewrite Hpass1. cbn [fst snd this offset with_this].
    split; [reflexivity|].
    split; [vm_compute; reflexivity|]. split; [vm_compute; reflexivity|].
    pose proof (f_equal fst Hpass2) as Hstatus.
    pose proof (f_equal (λ r, m_dissassembly (this r.2)) Hpass2) as Htext.
    split; [exact Hstatus | exact Htext].
Defined.



(** *** The whole run *)

Lemma zero_size_section_no_op_witness :
  disassemble 0 Sample.nowhere = (Finished, Sample.nowhere).
Proof.
  apply (zero_size_section_no_op 0 Sample.nowhere). reflexivity.
Defined.

(** The second run on [branch_body] leaves the text of the first run
    twice. *)
Lemma disassemble_twice_counterexample :
  (disassemble 20 Sample.branch).1 = Finished
  ∧ m_dissassembly (disassemble 20 Sample.branch).2
    = Sample.line "    jmp label_1008" +:+ Sample.line "    nop"
      +:+ Sample.line "    nop" +:+ Sample.line "    nop"
      +:+ Sample.line "    nop" +:+ Sample.line "    nop"
      +:+ Sample.line "    nop" +:+ Sample.line "label_1008:"
      +:+ Sample.line "    ret"
  ∧ m_dissassembly (disassemble 20 (disassemble 20 Sample.branch).2).2
    ≠ m_dissassembly (disassemble 20 Sample.branch).2.
Proof.
  split; [vm_compute; reflexivity|]. split; [vm_compute; reflexivity|].
  vm_compute. discriminate.
Qed.

(** *** Further properties *)

(** The immediate [0x1003] lies in the function [start] of the image, past
    its first address. *)
Lemma made_up_name_without_exact_symbol_witness :
  hook Immediate Sample.dispatch (Sample.immediate 0x1003) "push "
  = Some "push sub_1003".
Proof.
  etrans.
  - apply (proj1 (made_up_name_without_exact_symbol Immediate Sample.dispatch
                    (Sample.immediate 0x1003) "push " 0x1003
                    ltac:(discriminate) eq_refl eq_refl
                    ltac:(intros [_ Hv]; discriminate Hv))).
    vm_compute. split; discriminate.
  - reflexivity.
Defined.

(** The displacement [0x1003] lies in the section of the function, where the
    image answers with the symbol [start] at [0x1000]. *)
Lemma displacement_symbol_offset_section_witness :
  UnasmFormatterPrintDISP Sample.dispatch (Sample.displacement 0x1003) ""
  = None.
Proof.
  apply (displacement_symbol_offset_section Sample.dispatch
           (Sample.displacement 0x1003) "").
  - reflexivity.
  - vm_compute. split; discriminate.
  - discriminate.
  - discriminate.
Defined.

Lemma disassemble_label_names_distinct_witness :
  labels (disassemble 10 Sample.dispatch_start).2 !! 0x1000
  = Some "label_1000"
  ∧ labels (disassemble 10 Sample.dispatch_start).2 !! 0x1005
    = Some "label_1005"
  ∧ "label_1000" ≠ "label_1005".
Proof.
  assert (labels (disassemble 10 Sample.dispatch_start).2 !! 0x1000
          = Some "label_1000") as Ha by (vm_compute; reflexivity).
  assert (labels (disassemble 10 Sample.dispatch_start).2 !! 0x1005
          = Some "label_1005") as Hb by (vm_compute; reflexivity).
  split; [exact Ha|]. split; [exact Hb|].
  apply (disassemble_label_names_distinct 10 Sample.dispatch_start
           0x1000 0x1005 "label_1000" "label_1005" eq_refl
           ltac:(simpl; lia) ltac:(simpl; lia) Ha Hb ltac:(lia)).
Defined.

(** Pass 1 from the start of [table_body] and pass 2 on the labels it makes
    end at the same cursor. *)
Lemma passes_agree_witness :
  (pass2 10 0x10 (Sample.at_offset Sample.dispatch 0)).1 = Finished
  ∧ offset (pass2 10 0x10 (Sample.at_offset Sample.dispatch 0)).2
    = offset (pass1 10 0x10 (Sample.at_offset Sample.dispatch_start 0)).2.
Proof.
  destruct (passes_agree 10 0x10 (Sample.at_offset Sample.dispatch_start 0)
              (Sample.at_offset Sample.dispatch 0))
    as (Hs & [(_ & Ho & _) | ([i Hi] & _)]).
  - by repeat split.
  - vm_compute. reflexivity.
  - split; [exact Hs | symmetry; exact Ho].
  - vm_compute in Hi. discriminate Hi.
Defined.

(** In [loop_body] the [jmp] at [0x1001], which pass 1 reaches after the
    [nop], goes back to [0x1000]. *)
Lemma branch_target_labelled_witness :
  ∃ s, labels (this (pass1 10 0x2 (Sample.at_offset Sample.loop_start 0)).2)
       !! 0x1000 = Some s
       ∧ (labels (this (Sample.at_offset Sample.loop_start 0)) !! 0x1000
          = Some s
          ∨ s = label_name 0x1000).
Proof.
  apply (branch_target_labelled 10 0x2 (Sample.at_offset Sample.loop_start 0)
           (Sample.at_offset Sample.loop_start 1)
           [Sample.decoded 0x1000 1 ZYDIS_MNEMONIC_NOP ""]
           {| insn_runtime_address := 0x1001;
              insn_info := Sample.insn 2 ZYDIS_MNEMONIC_JMP true;
              insn_operands := [Sample.imm_operand (Sample.sign_extend8 0xFD)];
              insn_text := "" |} 0x1000).
  - apply (label_turns_cons 0x2 _ _ (Sample.at_offset Sample.loop_start 1));
      [reflexivity | simpl; lia | reflexivity | apply label_turns_nil].
  - reflexivity.
  - simpl. lia.
  - reflexivity.
  - reflexivity.
  - simpl. lia.
  - simpl. lia.
Defined.

(** Of the three [ret] of [table_body] the function [two_rets] has the
    first two; the second one begins at the end address. *)
Lemma pass2_stops_past_end_witness :
  pass2 3 0x1 (Sample.at_offset Sample.two_rets 0)
  = (Finished,
     Sample.at_offset
       (set_dissassembly Sample.two_rets
          (Sample.line "    ret" +:+ Sample.line "    ret")) 2).
Proof.
  apply (pass2_stops_past_end 3 0x1 (Sample.at_offset Sample.two_rets 0) _
           [Sample.decoded 0x1000 1 (ZYDIS_MNEMONIC_OTHER 0) "ret";
            Sample.decoded 0x1001 1 (ZYDIS_MNEMONIC_OTHER 0) "ret"]).
  - apply (turns_cons 0x1 (Sample.at_offset Sample.two_rets 0) _
             (Sample.at_offset
                (set_dissassembly Sample.two_rets (Sample.line "    ret")) 1));
      [reflexivity | simpl; lia | reflexivity |].
    apply (turns_cons 0x1 _ _
             (Sample.at_offset
                (set_dissassembly Sample.two_rets
                   (Sample.line "    ret" +:+ Sample.line "    ret")) 2));
      [reflexivity | simpl; lia | reflexivity |].
    apply turns_nil.
  - simpl. lia.
  - simpl. lia.
Defined.

Lemma nothing_to_disassemble_witness :
  disassemble 1 Sample.inverted = (Finished, Sample.inverted).
Proof.
  apply (nothing_to_disassemble 0 Sample.inverted).
  left. vm_compute. reflexivity.
Defined.

(** The table of [shared_slot_body], whose first two slots hold the same
    address, and the lines of the table of [table_body]. *)
Lemma jump_table_labels_witness :
  labels (this (pass1_jump_table
                  (table_fuel (Sample.at_offset Sample.shared_slot 5))
                  false 0x1000 (Sample.at_offset Sample.shared_slot 5)).2)
  = <[0x1001 := "label_1001"]>
      (<[0x1000 := "label_1000"]> {[ 0x1005 := "label_1005" ]}).
Proof.
  rewrite (jump_table_labels (Sample.at_offset Sample.shared_slot 5) 0x1000
             [0x1000; 0x1001]).
  - vm_compute. reflexivity.
  - simpl. lia.
  - simpl. lia.
  - repeat split. exists 0x2000. by split.
Defined.

Lemma jump_table_lines_witness :
  m_dissassembly
    (this (pass2_jump_table (table_fuel (Sample.at_offset Sample.dispatch 5))
             false 0x1000 (Sample.at_offset Sample.dispatch 5)).2)
  = Sample.line "label_1005:" +:+ Sample.line "    .int label_1000"
    +:+ Sample.line "    .int label_1001"
    +:+ Sample.line "    .int label_1002".
Proof.
  rewrite (jump_table_lines (Sample.at_offset Sample.dispatch 5) 0x1000
             [0x1001; 0x1002]).
  - vm_compute. reflexivity.
  - simpl. lia.
  - simpl. lia.
  - repeat split. exists 0x2000. by split.
Defined.

(** Pass 2 on [table_body] with the labels of pass 1. *)
Lemma pass2_text_is_blocks_witness :
  ∃ instructions blocks,
    turns 0x10 (Sample.at_offset Sample.dispatch 0) instructions
      (pass2 10 0x10 (Sample.at_offset Sample.dispatch 0)).2
    ∧ (length instructions < 10)%nat
    ∧ (UnasmDisassembleCustom ZYDIS_MACHINE_MODE_LEGACY_32
         (runtime_address (pass2 10 0x10 (Sample.at_offset Sample.dispatch 0)).2)
         (section_pointer (pass2 10 0x10 (Sample.at_offset Sample.dispatch 0)).2)
         96 (this (pass2 10 0x10 (Sample.at_offset Sample.dispatch 0)).2)
       = None
       ∨ 0x10 < offset (pass2 10 0x10 (Sample.at_offset Sample.dispatch 0)).2)
    ∧ Forall2 (instruction_block (labels Sample.dispatch)) instructions blocks
    ∧ m_dissassembly (this (pass2 10 0x10 (Sample.at_offset Sample.dispatch 0)).2)
      = m_dissassembly Sample.dispatch +:+ concat_text blocks.
Proof.
  apply (pass2_text_is_blocks 10 0x10 (Sample.at_offset Sample.dispatch 0)).
  vm_compute. reflexivity.
Defined.

(** The table of [open_table_body] lasts to the end of the section data. *)
Lemma jump_table_scan_overruns_witness :
  (pass1_jump_table (table_fuel (Sample.at_offset Sample.open_table 2)) false
     0x1000 (Sample.at_offset Sample.open_table 2)).1 = Undefined
  ∧ (pass2_jump_table (table_fuel (Sample.at_offset Sample.open_table 2)) false
       0x1000 (Sample.at_offset Sample.open_table 2)).1 = Undefined.
Proof.
  apply (jump_table_scan_overruns (Sample.at_offset Sample.open_table 2)
           0x1000 [0x1001]).
  - simpl. lia.
  - simpl. lia.
  - by repeat split.
Defined.
